(** * AutoYt2mp3: the record store and the two batch pipelines

    A shallow embedding of [code/update_db_from_txt.py] (discovery) and
    [code/conversion.py] (conversion) and the properties of the entry
    lifecycle: duplicate detection, status updates, persistence; then of
    the input file and the search of the discovery run, of the helpers of
    the browser steps, and of [manage_database.py].

    Conventions of the embedding:
    - a store entry is the Python [dict] that [json.load] returns, a finite
      map from field names to values; the values of the model are [null],
      the booleans and the strings, which is what the pipelines read and
      write (numbers and nested values are left out);
    - the store file [tunes_database.json] is a text, or is missing; the
      file system keeps the log of the texts written to it;
    - [json] and [urllib.parse] are libraries, not code of the repository:
      they are interfaces ([JsonCodec], [UrlLib]); executable models of both
      ([py_json], [py_urllib]) instantiate the interfaces on concrete inputs;
    - the browser is an oracle: what a search returns, how a conversion ends;
    - a Python exception is a [Raise] result. *)

From Stdlib Require Import Ascii String.
From stdpp Require Import gmap strings list fin_maps.

Local Open Scope string_scope.
Local Open Scope list_scope.

(** ** JSON scalars, entries, exceptions *)

Inductive jval : Type :=
| JNull
| JBool (b : bool)
| JStr (s : string).

#[global] Instance jval_eq_dec : EqDecision jval.
Proof. solve_decision. Defined.

Abbreviation entry := (gmap string jval).
Abbreviation store := (list (gmap string jval)).

Inductive exn : Type :=
| KeyError (key : string)
| TypeError
| AttributeError
| ValueError
| WebDriverException
| SystemExit (code : nat).

Inductive result (A : Type) : Type :=
| Ok (a : A)
| Raise (e : exn).
Arguments Ok {A} a.
Arguments Raise {A} e.

#[global] Instance exn_eq_dec : EqDecision exn.
Proof. solve_decision. Defined.

#[global] Instance result_eq_dec {A} `{EqDecision A} : EqDecision (result A).
Proof. solve_decision. Defined.

#[global] Instance result_ret : MRet result := λ A a, Ok a.
#[global] Instance result_bind : MBind result := λ A B k m,
  match m with
  | Ok a => k a
  | Raise e => Raise e
  end.

Definition is_Ok {A} (m : result A) : Prop := ∃ a, m = Ok a.

(** Python truthiness of a string ([if s:]) and of a dict ([if d:]). *)
Definition str_truthy (s : string) : bool := negb (String.eqb s "").
Definition dict_truthy (d : entry) : bool := negb (bool_decide (d = ∅)).

(** ** The file system: the store file and the log of the writes to it *)

Record fsys : Type := {
  db_file : option string;
  write_log : list string
}.

(** ** Library interfaces *)

(** [json.dump(data, f, ensure_ascii=False, indent=2)] and [json.load(f)];
    [json_load] is [None] when the text does not parse as a store. *)
Class JsonCodec : Type := {
  json_dump : store → string;
  json_load : string → option store
}.

(** What [json] guarantees on the values of the model: a dumped store loads
    back as the same value. *)
Definition codec_roundtrip `{JsonCodec} : Prop :=
  ∀ data : store, json_load (json_dump data) = Some data.

(** The attributes of [urlparse(url)] that the code reads. *)
Record ParseResult : Type := {
  hostname : option string;
  path : string;
  query : string
}.

(** [urllib.parse.urlparse] and [urllib.parse.parse_qs]. [urlparse] is
    [None] on the URLs on which it raises [ValueError] (a host with an
    unbalanced bracket, a bracketed host that is no IPv6 address, a host
    whose NFKC form holds a delimiter). *)
Class UrlLib : Type := {
  urlparse : string → option ParseResult;
  parse_qs : string → gmap string (list string)
}.

(** What [parse_qs] guarantees with its default arguments
    ([keep_blank_values=False]): a key is bound to a non-empty list of
    non-blank values. *)
Definition parse_qs_no_blank `{UrlLib} : Prop :=
  ∀ (qs k : string) (vs : list string),
    parse_qs qs !! k = Some vs → vs ≠ [] ∧ Forall (λ v, v ≠ "") vs.

(** ** Python strings

    The texts of the model are byte strings (the UTF-8 encoding of the
    Python text). The functions below are those of [str] on the characters
    below 128: [str.isspace], [str.lower] and slicing act on the ASCII
    characters, so they are the functions of Python on ASCII texts. *)

Module py_str.

(** [c.isspace()]: the characters 9 to 13 and 28 to 32. *)
Definition isspace (c : ascii) : bool :=
  let n := nat_of_ascii c in
  (Nat.leb 9 n && Nat.leb n 13) || (Nat.leb 28 n && Nat.leb n 32).

Fixpoint lstrip (s : string) : string :=
  match s with
  | EmptyString => EmptyString
  | String c s' => if isspace c then lstrip s' else s
  end.

Fixpoint rstrip (s : string) : string :=
  match s with
  | EmptyString => EmptyString
  | String c s' =>
      match rstrip s' with
      | EmptyString => if isspace c then EmptyString else String c EmptyString
      | r => String c r
      end
  end.

(** [s.strip()] *)
Definition strip (s : string) : string := rstrip (lstrip s).

Definition lower_char (c : ascii) : ascii :=
  let n := nat_of_ascii c in
  if Nat.leb 65 n && Nat.leb n 90 then ascii_of_nat (n + 32) else c.

(** [s.lower()] *)
Fixpoint lower (s : string) : string :=
  match s with
  | EmptyString => EmptyString
  | String c s' => String (lower_char c) (lower s')
  end.

(** [sub in s] *)
Fixpoint contains (sub s : string) : bool :=
  String.prefix sub s
  || match s with
     | EmptyString => false
     | String _ s' => contains sub s'
     end.

(** [s.endswith(suffix)] *)
Fixpoint endswith (s suffix : string) : bool :=
  String.eqb s suffix
  || match s with
     | EmptyString => false
     | String _ s' => endswith s' suffix
     end.

(** [s.split()]: the maximal runs of characters that are not whitespace. *)
Fixpoint split (s : string) : list string :=
  match s with
  | EmptyString => []
  | String c s' =>
      if isspace c then split s'
      else match s' with
           | EmptyString => [String c EmptyString]
           | String c' _ =>
               if isspace c' then String c EmptyString :: split s'
               else match split s' with
                    | w :: ws => String c w :: ws
                    | [] => [String c EmptyString]
                    end
           end
  end.

(** [sep.join(words)] *)
Fixpoint join (sep : string) (words : list string) : string :=
  match words with
  | [] => EmptyString
  | [w] => w
  | w :: rest => w +:+ sep +:+ join sep rest
  end.

(** [s[:n]] *)
Definition slice_to (n : nat) (s : string) : string := String.substring 0 n s.

(** The text that a file opened in text mode hands out: with universal
    newlines, [\r\n] and [\r] are read as [\n]. *)
Fixpoint translate_newlines (s : string) : string :=
  match s with
  | EmptyString => EmptyString
  | String c s' =>
      if Ascii.eqb c "013" then
        match s' with
        | String c' s'' =>
            if Ascii.eqb c' "010" then String "010" (translate_newlines s'')
            else String "010" (translate_newlines s')
        | EmptyString => String "010" EmptyString
        end
      else String c (translate_newlines s')
  end.

(** [for ln in f]: the lines of a text, each with its end of line. *)
Fixpoint lines (s : string) : list string :=
  match s with
  | EmptyString => []
  | String c s' =>
      if Ascii.eqb c "010" then String c EmptyString :: lines s'
      else match lines s' with
           | ln :: lns => String c ln :: lns
           | [] => [String c EmptyString]
           end
  end.

End py_str.

(** ** update_db_from_txt.py *)

Module update_db_from_txt.
Section code.
Context `{JsonCodec} `{UrlLib}.

(** [extract_video_id]: the [ValueError] of [urlparse] is not caught. *)
Definition extract_video_id (youtube_url : string) : result (option string) :=
  match urlparse youtube_url with
  | None => Raise ValueError
  | Some parsed_url =>
      if bool_decide (hostname parsed_url ∈ [Some "www.youtube.com"; Some "youtube.com"]) then
        if bool_decide (path parsed_url = "/watch") then
          match parse_qs (query parsed_url) !! "v" with
          | Some vs => Ok (head vs)
          | None => Ok None
          end
        else Ok None
      else Ok None
  end.

(** [extract_video_id] on the value of a field: [urlparse] coerces a falsy
    non-string argument ([None], [False]) to the empty URL, which has no
    hostname, and fails on [True]. *)
Definition extract_video_id_dyn (v : jval) : result (option string) :=
  match v with
  | JStr s => extract_video_id s
  | JNull | JBool false => Ok None
  | JBool true => Raise AttributeError
  end.

Definition load_database (fs : fsys) : store :=
  match db_file fs with
  | Some text =>
      match json_load text with
      | Some data => data
      | None => []
      end
  | None => []
  end.

Definition save_database (data : store) (fs : fsys) : fsys :=
  {| db_file := Some (json_dump data);
     write_log := write_log fs ++ [json_dump data] |}.

(** The loop of [check_duplicate]: [entry['url']] raises on a missing key. *)
Fixpoint check_duplicate_loop (new_video_id : string) (database : store)
  : result (option entry) :=
  match database with
  | [] => Ok None
  | entry :: rest =>
      match entry !! "url" with
      | None => Raise (KeyError "url")
      | Some u =>
          existing_video_id ← extract_video_id_dyn u;
          if bool_decide (existing_video_id = Some new_video_id)
          then Ok (Some entry)
          else check_duplicate_loop new_video_id rest
      end
  end.

Definition check_duplicate (new_url : string) (database : store)
  : result (option entry) :=
  new_video_id ← extract_video_id new_url;
  match new_video_id with
  | None => Ok None
  | Some new_video_id =>
      if str_truthy new_video_id
      then check_duplicate_loop new_video_id database
      else Ok None
  end.

Definition result_obj (q url : string) : entry :=
  {[ "title" := JStr q;
     "url" := JStr url;
     "done" := JBool false;
     "download_path" := JStr "";
     "project" := JStr "" ]}.

(** The variables of [main] that the loop updates. *)
Record run : Type := {
  processed_count : nat;
  new_entries : list entry;
  duplicates_found : list (string * entry)
}.

Definition run0 : run :=
  {| processed_count := 0; new_entries := []; duplicates_found := [] |}.

(** One iteration of the loop of [main] on query [q]; [found] is what
    [search_query_and_get_first_url] did for it. The report of a duplicate
    prints [duplicate['title']] and [duplicate['url']]. *)
Definition main_query (database : store) (st : run) (q : string)
    (found : result (option string)) : result run :=
  url ← found;
  st' ←
    match url with
    | Some url =>
        if str_truthy url then
          duplicate ← check_duplicate url database;
          match duplicate with
          | Some duplicate =>
              if dict_truthy duplicate then
                match duplicate !! "title", duplicate !! "url" with
                | None, _ => Raise (KeyError "title")
                | _, None => Raise (KeyError "url")
                | Some _, Some _ =>
                    Ok {| processed_count := processed_count st;
                          new_entries := new_entries st;
                          duplicates_found :=
                            duplicates_found st ++ [(q, duplicate)] |}
                end
              else
                Ok {| processed_count := processed_count st;
                      new_entries := new_entries st ++ [result_obj q url];
                      duplicates_found := duplicates_found st |}
          | None =>
              Ok {| processed_count := processed_count st;
                    new_entries := new_entries st ++ [result_obj q url];
                    duplicates_found := duplicates_found st |}
          end
        else Ok st
    | None => Ok st
    end;
  Ok {| processed_count := S (processed_count st');
        new_entries := new_entries st';
        duplicates_found := duplicates_found st' |}.

(** [for idx, q in enumerate(queries, 1)]; [driver idx query] is the result
    of the [idx]-th search. *)
Fixpoint main_loop (driver : nat → string → result (option string))
    (database : store) (idx : nat) (queries : list string) (st : run)
  : result run :=
  match queries with
  | [] => Ok st
  | q :: rest =>
      st' ← main_query database st q (driver idx ("song: " +:+ q));
      main_loop driver database (S idx) rest st'
  end.

(** [main]: the run ends with the file system and the variables of the
    loop; [database.extend(new_entries)] and the save happen only when
    [new_entries] is not empty. *)
Definition main (driver : nat → string → result (option string))
    (queries : list string) (fs : fsys) : result (fsys * run) :=
  match queries with
  | [] => Raise (SystemExit 2)
  | _ =>
      let database := load_database fs in
      st ← main_loop driver database 1 queries run0;
      match new_entries st with
      | [] => Ok (fs, st)
      | _ => Ok (save_database (database ++ new_entries st) fs, st)
      end
  end.

(** [read_lines]; [in_txt] is the content of the file at the path, a text
    that [open] decodes. [strip] is the one of [py_str]: the function of
    Python on ASCII texts. *)
Definition read_lines (in_txt : string) : list string :=
  map py_str.strip
    (filter (λ ln, str_truthy (py_str.strip ln) = true)
       (py_str.lines (py_str.translate_newlines in_txt))).

(** [main(in_txt)], from the content of the input file. *)
Definition main_in_txt (driver : nat → string → result (option string))
    (in_txt : string) (fs : fsys) : result (fsys * run) :=
  main driver (read_lines in_txt) fs.

(** What the browser shows after a search. *)
Inductive results_page : Type :=
| NoItemSection                         (* [wait.until] raises TimeoutException *)
| NoSuchElement                         (* [find_elements] raises NoSuchElementException *)
| PageError (e : exn)                   (* another exception of the browser *)
| VideoTitles (hrefs : list (option string)).
    (* [a.get_attribute("href")] of the elements [ytd-video-renderer a#video-title] *)

(** The loop of [first_video_url_from_results]. *)
Fixpoint first_watch_href (items : list (option string)) : option string :=
  match items with
  | [] => None
  | a :: rest =>
      match a with
      | Some href =>
          if str_truthy href && py_str.contains "/watch" href then Some href
          else first_watch_href rest
      | None => first_watch_href rest
      end
  end.

Definition first_video_url_from_results (page : results_page)
  : result (option string) :=
  match page with
  | NoItemSection => Ok None
  | NoSuchElement => Ok None
  | PageError e => Raise e
  | VideoTitles items => Ok (first_watch_href items)
  end.

(** What the browser does for one search: the two calls of [driver.get],
    [maybe_handle_consent], which acts on the browser only, and the page of
    the results. *)
Record search : Type := {
  get : result unit;
  get_again : result unit;
  consent : result unit;
  page : results_page
}.

(** [search_query_and_get_first_url]: a [WebDriverException] of the first
    [driver.get] is caught, and the call is made once more. *)
Definition search_query_and_get_first_url (b : search) : result (option string) :=
  _ ← match get b with
      | Raise WebDriverException => get_again b
      | r => r
      end;
  _ ← consent b;
  first_video_url_from_results (page b).

End code.
End update_db_from_txt.

(** ** conversion.py *)

(** How the browser steps of one entry end. *)
Inductive outcome : Type :=
| BrowserError      (* a call of the browser steps raises *)
| InputNotFound     (* find_input_by_id returns None *)
| ConvertNotFound   (* find_button_by_text returns None *)
| DownloadTimeout   (* wait_for_button_with_text returns None *)
| Downloaded.       (* the Download button was found and clicked *)

(** The lines of the log that open the handling of an entry. *)
Inductive log_event : Type :=
| AlreadyDone (pos : nat)   (* "=== [Entree idx/n] title - DEJA TRAITEE ===" *)
| Processing (pos : nat).   (* "=== [Entree idx/n] title ===" *)

Module conversion.
Section code.
Context `{JsonCodec}.

(** [TQDM_AVAILABLE]: whether the progress bar is in use. *)
Variable TQDM_AVAILABLE : bool.

Definition load_database (fs : fsys) : store :=
  match db_file fs with
  | Some text =>
      match json_load text with
      | Some data => data
      | None => []
      end
  | None => []
  end.

Definition save_database (data : store) (fs : fsys) : fsys :=
  {| db_file := Some (json_dump data);
     write_log := write_log fs ++ [json_dump data] |}.

(** The loop of [update_database_entry] over the freshly loaded list: the
    first entry whose url equals [url] is updated, then [break]. *)
Fixpoint update_first (url : jval) (download_path : string)
    (done_status : jval) (database : store) : result store :=
  match database with
  | [] => Ok []
  | entry :: rest =>
      match entry !! "url" with
      | None => Raise (KeyError "url")
      | Some u =>
          if bool_decide (u = url) then
            let entry := <["done" := done_status]> entry in
            let entry :=
              if str_truthy download_path
              then <["download_path" := JStr download_path]> entry
              else entry in
            Ok (entry :: rest)
          else
            rest' ← update_first url download_path done_status rest;
            Ok (entry :: rest')
      end
  end.

Definition update_database_entry (url : jval) (download_path : string)
    (done_status : jval) (fs : fsys) : result fsys :=
  let database := load_database fs in
  database' ← update_first url download_path done_status database;
  Ok (save_database database' fs).

(** The variables of [process_file] that the loop updates, and the file
    system. *)
Record state : Type := {
  fs : fsys;
  data : store;
  processed_count : nat;
  successful_downloads : nat;
  log : list log_event
}.

Definition set_item (st : state) (pos : nat) (item : entry) : store :=
  <[pos := item]> (data st).

(** The [except Exception] branch: the entry is marked, counted, and the
    loop goes on ([continue]) without reaching the save below. *)
Definition on_exception (st : state) (fs' : fsys) (pos : nat) (item : entry)
    (log' : list log_event) : state :=
  {| fs := fs';
     data := set_item st pos (<["done" := JStr "timeout"]> item);
     processed_count := S (processed_count st);
     successful_downloads := successful_downloads st;
     log := log' |}.

(** One iteration of [for idx, item in enumerate(data, 1)], on the item at
    position [pos]; [browser pos] is how its browser steps end. *)
Definition process_entry (download_dir : string) (browser : nat → outcome)
    (st : state) (pos : nat) : result state :=
  match data st !! pos with
  | None => Ok st
  | Some item =>
      let title := default (JStr "") (item !! "title") in
      let url := default (JStr "") (item !! "url") in
      let done_status := default (JBool false) (item !! "done") in
      if bool_decide (done_status = JBool true) then
        Ok {| fs := fs st; data := data st;
              processed_count := processed_count st;
              successful_downloads := successful_downloads st;
              log := log st ++ [AlreadyDone pos] |}
      else
        let log' := log st ++ [Processing pos] in
        (* progress_bar.set_description(f"Traitement: {title[:30]}...") *)
        _ ← (if TQDM_AVAILABLE then
               match title with
               | JStr _ => Ok ()
               | _ => Raise TypeError
               end
             else Ok ());
        match browser pos with
        | BrowserError => Ok (on_exception st (fs st) pos item log')
        | InputNotFound | ConvertNotFound =>
            Ok {| fs := fs st; data := data st;
                  processed_count := processed_count st;
                  successful_downloads := successful_downloads st;
                  log := log' |}
        | DownloadTimeout =>
            let item := <["done" := JStr "timeout"]> item in
            match update_database_entry url download_dir (JStr "timeout") (fs st) with
            | Raise _ => Ok (on_exception st (fs st) pos item log')
            | Ok fs' =>
                let data' := set_item st pos item in
                Ok {| fs := save_database data' fs'; data := data';
                      processed_count := S (processed_count st);
                      successful_downloads := successful_downloads st;
                      log := log' |}
            end
        | Downloaded =>
            let item := <["done" := JBool true]> item in
            match update_database_entry url download_dir (JBool true) (fs st) with
            | Raise _ => Ok (on_exception st (fs st) pos item log')
            | Ok fs' =>
                let item := <["download_path" := JStr download_dir]> item in
                let data' := set_item st pos item in
                Ok {| fs := save_database data' fs'; data := data';
                      processed_count := S (processed_count st);
                      successful_downloads := S (successful_downloads st);
                      log := log' |}
            end
        end
  end.

Fixpoint process_entries (download_dir : string) (browser : nat → outcome)
    (positions : list nat) (st : state) : result state :=
  match positions with
  | [] => Ok st
  | pos :: rest =>
      st' ← process_entry download_dir browser st pos;
      process_entries download_dir browser rest st'
  end.

Definition not_done (item : entry) : bool :=
  negb (bool_decide (default (JBool false) (item !! "done") = JBool true)).

(** The last statement of [process_file]: [save_database(data)]. *)
Definition final_save (st : state) : state :=
  {| fs := save_database (data st) (fs st);
     data := data st;
     processed_count := processed_count st;
     successful_downloads := successful_downloads st;
     log := log st |}.

(** [process_file]: nothing is written when every entry is done; otherwise
    the loop runs over all the entries and the data are saved once more. *)
Definition process_file (download_dir : string) (browser : nat → outcome)
    (fs0 : fsys) : result state :=
  let data := load_database fs0 in
  let entries_to_process := filter (λ item, not_done item = true) data in
  let total_entries := length entries_to_process in
  let st0 := {| fs := fs0; data := data; processed_count := 0;
                successful_downloads := 0; log := [] |} in
  if bool_decide (total_entries = 0) then Ok st0
  else
    st ← process_entries download_dir browser (seq 0 (length data)) st0;
    Ok (final_save st).

(** *** The helpers of the browser steps *)

(** An element of the page, as the calls of one search of the page see it:
    [e.id], [e.is_displayed()], [e.size], [e.tag_name], [e.text] and
    [e.get_attribute(name)]. The fields [tag_name], [elem_text] and
    [attributes] are the values that the calls return: the model describes
    the calls that return, not the exceptions that the browser raises on an
    element that has left the page. *)
Record WebElement : Type := {
  elem_id : string;
  is_displayed : result bool;
  elem_size : result (gmap string Z);
  tag_name : string;
  elem_text : string;
  attributes : gmap string string
}.

Definition get_attribute (elem : WebElement) (name : string) : option string :=
  attributes elem !! name.

(** [is_visible]: any exception of the browser makes the element invisible. *)
Definition is_visible (elem : WebElement) : bool :=
  match is_displayed elem with
  | Ok true =>
      match elem_size elem with
      | Ok size =>
          bool_decide (0 < default 0 (size !! "height"))%Z
          && bool_decide (0 < default 0 (size !! "width"))%Z
      | Raise _ => false
      end
  | Ok false => false
  | Raise _ => false
  end.

(** The local variable [text] of [short_label]. *)
Definition short_label_text (elem : WebElement) : string :=
  let text := py_str.strip (elem_text elem) in
  let text := py_str.join " " (py_str.split text) in
  if Nat.ltb 60 (String.length text)
  then py_str.slice_to 57 text +:+ "..."
  else text.

Definition short_label (elem : WebElement) : string :=
  let tag := py_str.lower (tag_name elem) in
  let id_ := default "" (get_attribute elem "id") in
  let name := default "" (get_attribute elem "name") in
  let placeholder := default "" (get_attribute elem "placeholder") in
  let aria := default "" (get_attribute elem "aria-label") in
  let text := short_label_text elem in
  "<" +:+ tag +:+ " id='" +:+ id_ +:+ "' name='" +:+ name
  +:+ "' placeholder='" +:+ placeholder +:+ "' aria-label='" +:+ aria
  +:+ "' text='" +:+ text +:+ "'>".

(** The first loop of [list_text_boxes] and of [list_buttons]:
    [find_elements sel] is what [driver.find_elements(By.CSS_SELECTOR, sel)]
    does; a selector on which it raises gives no element. *)
Definition find_all (find_elements : string → result (list WebElement))
    (selectors : list string) : list WebElement :=
  flat_map (λ sel, match find_elements sel with
                   | Ok found => found
                   | Raise _ => []
                   end) selectors.

(** The second loop: the visible elements, one per key; slicing the
    [outerHTML] of an element that has none raises. *)
Fixpoint uniq_visible (elems : list WebElement) (seen : gset (string * string))
  : result (list WebElement) :=
  match elems with
  | [] => Ok []
  | e :: rest =>
      if negb (is_visible e) then uniq_visible rest seen
      else
        match get_attribute e "outerHTML" with
        | None => Raise TypeError
        | Some html =>
            let key := (elem_id e, py_str.slice_to 120 html) in
            if bool_decide (key ∈ seen) then uniq_visible rest seen
            else
              uniq ← uniq_visible rest ({[ key ]} ∪ seen);
              Ok (e :: uniq)
        end
  end.

Definition list_text_boxes (find_elements : string → result (list WebElement))
  : result (list WebElement) :=
  let selectors :=
    ["input[type='text']"; "input[type='search']"; "input[type='email']";
     "input[type='url']"; "input[type='number']"; "input[type='tel']";
     "input[type='password']"; "textarea"; "[contenteditable='true']"] in
  uniq_visible (find_all find_elements selectors) ∅.

Definition list_buttons (find_elements : string → result (list WebElement))
  : result (list WebElement) :=
  let selectors :=
    ["button"; "input[type='button']"; "input[type='submit']";
     "input[type='reset']"; "input[type='image']"; "[role='button']";
     "*[onclick]"; "*[tabindex]"] in
  uniq_visible (find_all find_elements selectors) ∅.

(** [find_input_by_id]; [find_element] is what
    [driver.find_element(By.ID, target_id)] does. *)
Definition find_input_by_id (find_element : result WebElement)
  : option WebElement :=
  match find_element with
  | Ok elem => if is_visible elem then Some elem else None
  | Raise _ => None
  end.

(** The test of the loop of [find_button_by_text]. *)
Definition button_has_text (text : string) (btn : WebElement) : bool :=
  let btn_text := py_str.lower (py_str.strip (elem_text btn)) in
  let value :=
    py_str.lower (py_str.strip (default "" (get_attribute btn "value"))) in
  py_str.contains (py_str.lower text) btn_text
  || py_str.contains (py_str.lower text) value.

Definition find_button_by_text (find_elements : string → result (list WebElement))
    (text : string) : result (option WebElement) :=
  buttons ← list_buttons find_elements;
  Ok (List.find (button_has_text text) buttons).

(** [wait_for_download]: [initial] is the listing of the download directory
    at the start ([None]: no directory), [polls] the listings that the
    iterations of the loop see before the time is out; [set_iter] is the
    order in which Python iterates over a set of names. *)
Definition is_partial (f : string) : bool :=
  py_str.endswith f ".crdownload" || py_str.endswith f ".tmp"
  || py_str.endswith f ".part".

Fixpoint wait_for_download_loop (set_iter : gset string → list string)
    (initial_files : gset string) (polls : list (option (list string)))
  : option string :=
  match polls with
  | [] => None
  | listing :: rest =>
      match listing with
      | Some names =>
          let current_files : gset string := list_to_set names in
          let new_files := current_files ∖ initial_files in
          let completed_files :=
            List.filter (λ f, negb (is_partial f)) (set_iter new_files) in
          match completed_files with
          | downloaded_file :: _ => Some downloaded_file
          | [] => wait_for_download_loop set_iter initial_files rest
          end
      | None => wait_for_download_loop set_iter initial_files rest
      end
  end.

Definition wait_for_download (set_iter : gset string → list string)
    (initial : option (list string)) (polls : list (option (list string)))
  : option string :=
  let initial_files : gset string :=
    match initial with
    | Some names => list_to_set names
    | None => ∅
    end in
  wait_for_download_loop set_iter initial_files polls.

(** The windows of the browser: the handles of the open windows, and the
    window that has the focus ([None] once it was closed). *)
Record windows : Type := {
  window_handles : list string;
  current_window_handle : option string
}.

(** [driver.switch_to.window(handle)] raises when no such window is open. *)
Definition switch_to_window (handle : string) (w : windows) : result windows :=
  if bool_decide (handle ∈ window_handles w) then
    Ok {| window_handles := window_handles w;
          current_window_handle := Some handle |}
  else Raise WebDriverException.

(** [driver.close()] closes the window that has the focus. *)
Definition close (w : windows) : result windows :=
  match current_window_handle w with
  | Some handle =>
      Ok {| window_handles :=
              List.filter (λ h, negb (String.eqb h handle)) (window_handles w);
            current_window_handle := None |}
  | None => Raise WebDriverException
  end.

(** The loop of [close_new_tabs]: the windows that it leaves, and whether
    it came to its end without an exception. *)
Fixpoint close_new_tabs_loop (original_window : string)
    (current_windows : list string) (w : windows) : windows * bool :=
  match current_windows with
  | [] => (w, true)
  | window :: rest =>
      if negb (String.eqb window original_window) then
        match switch_to_window window w with
        | Raise _ => (w, false)
        | Ok w1 =>
            match close w1 with
            | Raise _ => (w1, false)
            | Ok w2 => close_new_tabs_loop original_window rest w2
            end
        end
      else close_new_tabs_loop original_window rest w
  end.

(** [close_new_tabs]: an exception ends the call, and is logged only. *)
Definition close_new_tabs (original_window : string) (w : windows) : windows :=
  let current_windows := window_handles w in
  if Nat.ltb 1 (length current_windows) then
    match close_new_tabs_loop original_window current_windows w with
    | (w1, true) =>
        match switch_to_window original_window w1 with
        | Ok w2 => w2
        | Raise _ => w1
        end
    | (w1, false) => w1
    end
  else w.

(** What one iteration of the loop of [wait_for_button_with_text] sees of
    the page: [by_xpath q] is what [driver.find_elements(By.XPATH, q)]
    does, [by_css sel] what [driver.find_elements(By.CSS_SELECTOR, sel)]
    does. *)
Record poll : Type := {
  by_xpath : string → result (list WebElement);
  by_css : string → result (list WebElement)
}.

Definition xpath_queries (text : string) : list string :=
  let upper := "'ABCDEFGHIJKLMNOPQRSTUVWXYZ'" in
  let lower := "'abcdefghijklmnopqrstuvwxyz'" in
  let t := py_str.lower text in
  ["//button[contains(translate(text(), " +:+ upper +:+ ", " +:+ lower
     +:+ "), '" +:+ t +:+ "')]";
   "//input[@type='button'][contains(translate(@value, " +:+ upper +:+ ", "
     +:+ lower +:+ "), '" +:+ t +:+ "')]";
   "//input[@type='submit'][contains(translate(@value, " +:+ upper +:+ ", "
     +:+ lower +:+ "), '" +:+ t +:+ "')]";
   "//*[contains(translate(text(), " +:+ upper +:+ ", " +:+ lower
     +:+ "), '" +:+ t +:+ "')][@onclick or @role='button']";
   "//a[contains(translate(text(), " +:+ upper +:+ ", " +:+ lower
     +:+ "), '" +:+ t +:+ "')]"].

(** The loop over the XPath queries: the first visible element; a query
    on which the browser raises is passed over. *)
Fixpoint first_visible (p : poll) (queries : list string) : option WebElement :=
  match queries with
  | [] => None
  | xpath :: rest =>
      match by_xpath p xpath with
      | Ok elements =>
          match List.find is_visible elements with
          | Some elem => Some elem
          | None => first_visible p rest
          end
      | Raise _ => first_visible p rest
      end
  end.

(** [wait_for_button_with_text]; [polls] is what the iterations of the
    loop see before the time is out. An exception of the search by
    [find_button_by_text] is logged, and the loop goes on. *)
Fixpoint wait_for_button_with_text (text : string) (polls : list poll)
  : option WebElement :=
  match polls with
  | [] => None
  | p :: rest =>
      match first_visible p (xpath_queries text) with
      | Some elem => Some elem
      | None =>
          match find_button_by_text (by_css p) text with
          | Ok (Some btn) => Some btn
          | _ => wait_for_button_with_text text rest
          end
      end
  end.

(** What the browser does in the steps of one entry: the calls that only
    act on the browser, the element with the id v, the elements that the
    selectors find once the URL is typed, and what the polls for the
    Download button see. *)
Record entry_page : Type := {
  navigate : result unit;              (* driver.get, wait_dom_ready *)
  input_v : result WebElement;         (* driver.find_element(By.ID, "v") *)
  type_url : result unit;              (* clear, click, send_keys *)
  find_elements : string → result (list WebElement);
  click_convert : result unit;
  download_polls : list poll;
  click_download : result unit         (* click, current_window_handle *)
}.

(** The browser steps of [process_file] for one entry, up to the update of
    the status: how they end. [close_new_tabs] raises nothing, and the
    result of [wait_for_download] is only logged (the listing of the
    download directory is taken not to raise). *)
Definition browser_steps (p : entry_page) : outcome :=
  match navigate p with
  | Raise _ => BrowserError
  | Ok _ =>
      match find_input_by_id (input_v p) with
      | None => InputNotFound
      | Some input_elem =>
          match type_url p with
          | Raise _ => BrowserError
          | Ok _ =>
              match find_button_by_text (find_elements p) "Convert" with
              | Raise _ => BrowserError
              | Ok None => ConvertNotFound
              | Ok (Some convert_btn) =>
                  match click_convert p with
                  | Raise _ => BrowserError
                  | Ok _ =>
                      match wait_for_button_with_text "Download"
                              (download_polls p) with
                      | None => DownloadTimeout
                      | Some download_btn =>
                          match click_download p with
                          | Raise _ => BrowserError
                          | Ok _ => Downloaded
                          end
                      end
                  end
              end
          end
      end
  end.

End code.
End conversion.

(** ** An executable model of [urllib.parse] (CPython 3.11)

    Strings are byte strings (the UTF-8 encoding of the Python text):
    [lower] acts on ASCII letters, [unquote] decodes [%XX] to the byte and
    keeps it as it is. [urlsplit] is [None] where the library raises
    [ValueError]. *)

Module py_urllib_model.

Definition is_scheme_char (c : ascii) : bool :=
  let n := nat_of_ascii c in
  (Nat.leb 97 n && Nat.leb n 122) || (Nat.leb 65 n && Nat.leb n 90)
  || (Nat.leb 48 n && Nat.leb n 57)
  || Ascii.eqb c "+" || Ascii.eqb c "-" || Ascii.eqb c ".".

Definition lower_char (c : ascii) : ascii :=
  let n := nat_of_ascii c in
  if Nat.leb 65 n && Nat.leb n 90 then ascii_of_nat (n + 32) else c.

Fixpoint lower (s : string) : string :=
  match s with
  | EmptyString => EmptyString
  | String c s' => String (lower_char c) (lower s')
  end.

Fixpoint all_chars (p : ascii → bool) (s : string) : bool :=
  match s with
  | EmptyString => true
  | String c s' => p c && all_chars p s'
  end.

(** [s.partition(c)]: the text before and after the first [c]. *)
Fixpoint partition (c : ascii) (s : string) : option (string * string) :=
  match s with
  | EmptyString => None
  | String a s' =>
      if Ascii.eqb a c then Some (EmptyString, s')
      else match partition c s' with
           | Some (before, after) => Some (String a before, after)
           | None => None
           end
  end.

(** [s.rpartition(c)]: the text before and after the last [c]. *)
Fixpoint rpartition (c : ascii) (s : string) : option (string * string) :=
  match s with
  | EmptyString => None
  | String a s' =>
      match rpartition c s' with
      | Some (before, after) => Some (String a before, after)
      | None => if Ascii.eqb a c then Some (EmptyString, s') else None
      end
  end.

(** [s.split(c)] *)
Fixpoint split (c : ascii) (s : string) : list string :=
  match s with
  | EmptyString => [EmptyString]
  | String a s' =>
      if Ascii.eqb a c then EmptyString :: split c s'
      else match split c s' with
           | w :: ws => String a w :: ws
           | [] => [String a EmptyString]
           end
  end.

(** The text up to the first character that satisfies [stop], and the rest. *)
Fixpoint span_until (stop : ascii → bool) (s : string) : string * string :=
  match s with
  | EmptyString => (EmptyString, EmptyString)
  | String a s' =>
      if stop a then (EmptyString, s)
      else let '(w, r) := span_until stop s' in (String a w, r)
  end.

Definition uses_params : list string :=
  [""; "ftp"; "hdl"; "prospero"; "http"; "imap"; "https"; "shttp"; "rtsp";
   "rtspu"; "sip"; "sips"; "mms"; "sftp"; "tel"].

(** [_splitparams]: the path is cut at the first [;] of its last segment. *)
Definition splitparams (url : string) : string :=
  match rpartition "/" url with
  | Some (dir, last) =>
      match partition ";" last with
      | Some (seg, _) => dir +:+ "/" +:+ seg
      | None => url
      end
  | None =>
      match partition ";" url with
      | Some (seg, _) => seg
      | None => url
      end
  end.

Record SplitResult : Type := {
  scheme : string;
  netloc : string;
  spath : string;
  squery : string;
  fragment : string
}.

Definition is_alpha (c : ascii) : bool :=
  let n := nat_of_ascii c in
  (Nat.leb 97 n && Nat.leb n 122) || (Nat.leb 65 n && Nat.leb n 90).

(** [url.lstrip(_WHATWG_C0_CONTROL_OR_SPACE)] *)
Fixpoint lstrip_c0 (s : string) : string :=
  match s with
  | EmptyString => EmptyString
  | String c s' => if Nat.leb (nat_of_ascii c) 32 then lstrip_c0 s' else s
  end.

(** The removal of [_UNSAFE_URL_BYTES_TO_REMOVE]: tab, CR, LF. *)
Fixpoint remove_unsafe (s : string) : string :=
  match s with
  | EmptyString => EmptyString
  | String c s' =>
      let n := nat_of_ascii c in
      if Nat.eqb n 9 || Nat.eqb n 13 || Nat.eqb n 10
      then remove_unsafe s' else String c (remove_unsafe s')
  end.

Definition mem_char (c : ascii) (s : string) : bool :=
  match partition c s with
  | Some _ => true
  | None => false
  end.

Definition is_digit (c : ascii) : bool :=
  let n := nat_of_ascii c in Nat.leb 48 n && Nat.leb n 57.

Definition is_hex_digit (c : ascii) : bool :=
  let n := nat_of_ascii c in
  (Nat.leb 48 n && Nat.leb n 57) || (Nat.leb 97 n && Nat.leb n 102)
  || (Nat.leb 65 n && Nat.leb n 70).

(** [int(s, 10)] on decimal digits. *)
Fixpoint decimal (acc : nat) (s : string) : nat :=
  match s with
  | EmptyString => acc
  | String c s' => decimal (10 * acc + (nat_of_ascii c - 48)) s'
  end.

(** [IPv4Address._parse_octet] returns: one to three decimal digits, no
    leading zero, at most 255. *)
Definition octet_ok (octet_str : string) : bool :=
  if negb (String.eqb octet_str "") && all_chars is_digit octet_str
     && Nat.leb (String.length octet_str) 3
  then (String.eqb octet_str "0" || negb (String.prefix "0" octet_str))
       && Nat.leb (decimal 0 octet_str) 255
  else false.

(** [IPv4Address(ip_str)] returns. *)
Definition ipv4_ok (ip_str : string) : bool :=
  let octets := split "." ip_str in
  Nat.eqb (length octets) 4 && forallb octet_ok octets.

(** [IPv6Address._parse_hextet] returns: one to four hexadecimal digits. *)
Definition hextet_ok (hextet_str : string) : bool :=
  negb (String.eqb hextet_str "") && all_chars is_hex_digit hextet_str
  && Nat.leb (String.length hextet_str) 4.

(** The positions of the empty parts, counted from [i]. *)
Fixpoint empty_parts (i : nat) (parts : list string) : list nat :=
  match parts with
  | [] => []
  | p :: rest =>
      (if String.eqb p "" then [i] else []) ++ empty_parts (S i) rest
  end.

(** [IPv6Address._ip_int_from_string] returns on the parts between the
    colons: a part with a dot is an IPv4 address and stands for two
    hextets (here [0], their value does not matter); at most one [::]. *)
Definition ipv6_parts_ok (parts : list string) : bool :=
  Nat.leb 3 (length parts)
  && let last_part := List.last parts "" in
     let v4 := mem_char "." last_part in
     let parts := if v4 then removelast parts ++ ["0"; "0"] else parts in
     (negb v4 || ipv4_ok last_part)
     && Nat.leb (length parts) 9
     && match empty_parts 1 (removelast (tail parts)) with
        | [] => Nat.eqb (length parts) 8 && forallb hextet_ok parts
        | [skip_index] =>
            let first_empty := String.eqb (List.hd "" parts) "" in
            let last_empty := String.eqb (List.last parts "") "" in
            let parts_hi := if first_empty then skip_index - 1 else skip_index in
            let parts_lo :=
              if last_empty then length parts - skip_index - 2
              else length parts - skip_index - 1 in
            (negb first_empty || Nat.eqb parts_hi 0)
            && (negb last_empty || Nat.eqb parts_lo 0)
            && Nat.leb (parts_hi + parts_lo) 7
            && forallb hextet_ok (take parts_hi parts)
            && forallb hextet_ok (drop (length parts - parts_lo) parts)
        | _ => false
        end.

(** [IPv6Address(ip_str)] returns: the address, then [%] and a scope that
    is not empty and has no [%]. *)
Definition ipv6_ok (ip_str : string) : bool :=
  negb (mem_char "/" ip_str)
  && match partition "%" ip_str with
     | Some (addr_str, scope_id) =>
         negb (String.eqb scope_id "") && negb (mem_char "%" scope_id)
         && negb (String.eqb addr_str "") && ipv6_parts_ok (split ":" addr_str)
     | None => negb (String.eqb ip_str "") && ipv6_parts_ok (split ":" ip_str)
     end.

(** [_check_bracketed_host] returns: an IPvFuture address
    ([v], hexadecimal digits, a dot, more) or an IPv6 address. *)
Definition bracketed_host_ok (hostname : string) : bool :=
  match hostname with
  | String "v" rest =>
      match partition "." rest with
      | Some (version, more) =>
          negb (String.eqb version "") && all_chars is_hex_digit version
          && negb (String.eqb more "")
      | None => false
      end
  | _ => ipv6_ok hostname
  end.

(** [_check_bracketed_netloc] returns. *)
Definition bracketed_netloc_ok (netloc : string) : bool :=
  let hostname_and_port :=
    match rpartition "@" netloc with
    | Some (_, h) => h
    | None => netloc
    end in
  match partition "[" hostname_and_port with
  | Some (before_bracket, bracketed) =>
      String.eqb before_bracket ""
      && match partition "]" bracketed with
         | Some (hostname, port) =>
             (String.eqb port "" || String.prefix ":" port)
             && bracketed_host_ok hostname
         | None => bracketed_host_ok bracketed
         end
  | None =>
      match partition ":" hostname_and_port with
      | Some (hostname, _) => bracketed_host_ok hostname
      | None => bracketed_host_ok hostname_and_port
      end
  end.

(** The characters whose NFKC form holds one of [/?#@:], in UTF-8. *)
Definition nfkc_delimiters : list string :=
  map (λ b : nat * nat * nat,
         String (ascii_of_nat b.1.1)
           (String (ascii_of_nat b.1.2) (String (ascii_of_nat b.2) EmptyString)))
    [(226, 129, 135); (226, 129, 136); (226, 129, 137); (226, 132, 128);
     (226, 132, 129); (226, 132, 133); (226, 132, 134); (226, 169, 180);
     (239, 184, 147); (239, 184, 150); (239, 185, 149); (239, 185, 150);
     (239, 185, 159); (239, 185, 171); (239, 188, 131); (239, 188, 143);
     (239, 188, 154); (239, 188, 159); (239, 188, 160)].

(** [_checknetloc] returns. *)
Definition checknetloc_ok (netloc : string) : bool :=
  negb (existsb (λ c, py_str.contains c netloc) nfkc_delimiters).

Definition urlsplit (url : string) : option SplitResult :=
  let url := remove_unsafe (lstrip_c0 url) in
  let '(scheme, url) :=
    match partition ":" url with
    | Some (String c pre, rest) =>
        if is_alpha c && all_chars is_scheme_char (String c pre)
        then (lower (String c pre), rest)
        else (EmptyString, url)
    | _ => (EmptyString, url)
    end in
  let '(netloc, url) :=
    match url with
    | String "/" (String "/" rest) =>
        span_until (λ c, Ascii.eqb c "/" || Ascii.eqb c "?" || Ascii.eqb c "#") rest
    | _ => (EmptyString, url)
    end in
  let unbalanced := xorb (mem_char "[" netloc) (mem_char "]" netloc) in
  let bracketed := mem_char "[" netloc && mem_char "]" netloc in
  let '(url, fragment) :=
    match partition "#" url with
    | Some (u, f) => (u, f)
    | None => (url, EmptyString)
    end in
  let '(url, query) :=
    match partition "?" url with
    | Some (u, q) => (u, q)
    | None => (url, EmptyString)
    end in
  if unbalanced then None
  else if (if bracketed then negb (bracketed_netloc_ok netloc) else false) then None
  else if negb (checknetloc_ok netloc) then None
  else Some {| scheme := scheme; netloc := netloc; spath := url;
               squery := query; fragment := fragment |}.

(** The [hostname] property of the result. *)
Definition hostname_of (netloc : string) : option string :=
  let hostinfo :=
    match rpartition "@" netloc with
    | Some (_, h) => h
    | None => netloc
    end in
  let hostname :=
    match partition "[" hostinfo with
    | Some (_, bracketed) =>
        match partition "]" bracketed with
        | Some (h, _) => h
        | None => bracketed
        end
    | None =>
        match partition ":" hostinfo with
        | Some (h, _) => h
        | None => hostinfo
        end
    end in
  match hostname with
  | EmptyString => None
  | _ =>
      match partition "%" hostname with
      | Some (h, zone) => Some (lower h +:+ "%" +:+ zone)
      | None => Some (lower hostname)
      end
  end.

Definition urlparse (url : string) : option ParseResult :=
  r ← urlsplit url;
  Some {| hostname := hostname_of (netloc r);
          path := if bool_decide (scheme r ∈ uses_params)
                  then splitparams (spath r) else spath r;
          query := squery r |}.

Definition hex_val (c : ascii) : option nat :=
  let n := nat_of_ascii c in
  if Nat.leb 48 n && Nat.leb n 57 then Some (n - 48)
  else if Nat.leb 97 n && Nat.leb n 102 then Some (n - 87)
  else if Nat.leb 65 n && Nat.leb n 70 then Some (n - 55)
  else None.

(** [unquote]: [%XX] with two hexadecimal digits is the byte [XX]. *)
Fixpoint unquote (s : string) : string :=
  match s with
  | EmptyString => EmptyString
  | String c s' =>
      if Ascii.eqb c "%" then
        match s' with
        | String x (String y r) =>
            match hex_val x, hex_val y with
            | Some h, Some l => String (ascii_of_nat (16 * h + l)) (unquote r)
            | _, _ => String c (unquote s')
            end
        | _ => String c (unquote s')
        end
      else String c (unquote s')
  end.

Definition plus_to_space (c : ascii) : ascii :=
  if Ascii.eqb c "+" then " "%char else c.

Fixpoint replace_plus (s : string) : string :=
  match s with
  | EmptyString => EmptyString
  | String c s' => String (plus_to_space c) (replace_plus s')
  end.

(** [parse_qsl]: the pairs [name=value] between [&], without those that
    have no [=] or an empty value. *)
Definition parse_pair (name_value : string) : option (string * string) :=
  match partition "=" name_value with
  | Some (name, String c value) =>
      Some (unquote (replace_plus name), unquote (replace_plus (String c value)))
  | _ => None
  end.

Definition parse_qsl (qs : string) : list (string * string) :=
  omap parse_pair (split "&" qs).

(** [parse_qs]: the values of a name, in the order of the query string. *)
Definition add_pair (parsed_result : gmap string (list string))
    (nv : string * string) : gmap string (list string) :=
  match parsed_result !! nv.1 with
  | Some values => <[nv.1 := values ++ [nv.2]]> parsed_result
  | None => <[nv.1 := [nv.2]]> parsed_result
  end.

Definition parse_qs (qs : string) : gmap string (list string) :=
  foldl add_pair ∅ (parse_qsl qs).

(** The invariant of the loop of [parse_qs]. *)
Definition no_blank (m : gmap string (list string)) : Prop :=
  ∀ k vs, m !! k = Some vs → vs ≠ [] ∧ Forall (λ v, v ≠ "") vs.

End py_urllib_model.

Definition py_urllib : UrlLib :=
  {| urlparse := py_urllib_model.urlparse;
     parse_qs := py_urllib_model.parse_qs |}.


(** ** An executable model of [json] on the stores of the model

    [json_dump] prints with the layout of [indent=2] and the escapes of
    [ensure_ascii=False]; the keys of an entry come in the order of the map.
    [json_load] reads only what the model of a store can hold: an array of
    objects whose values are [null], booleans or strings, with [\u] escapes
    below 128; any other text is [None]. The continuation [k] of a printer
    is the text that follows. *)

Module py_json_model.

Definition dquote : ascii := ascii_of_nat 34.
Definition backslash : ascii := ascii_of_nat 92.
Definition newline : ascii := ascii_of_nat 10.

Definition hex_digit (n : nat) : ascii :=
  if Nat.ltb n 10 then ascii_of_nat (48 + n) else ascii_of_nat (87 + n).

(** [ESCAPE_DCT] of [json.encoder]. *)
Definition put_char (c : ascii) (k : string) : string :=
  let n := nat_of_ascii c in
  if Ascii.eqb c dquote then String backslash (String dquote k)
  else if Ascii.eqb c backslash then String backslash (String backslash k)
  else if Nat.eqb n 10 then String backslash (String "n" k)
  else if Nat.eqb n 13 then String backslash (String "r" k)
  else if Nat.eqb n 9 then String backslash (String "t" k)
  else if Nat.eqb n 8 then String backslash (String "b" k)
  else if Nat.eqb n 12 then String backslash (String "f" k)
  else if Nat.ltb n 32 then
    String backslash (String "u" (String "0" (String "0"
      (String (hex_digit (n / 16)) (String (hex_digit (n mod 16)) k)))))
  else String c k.

Fixpoint put_chars (s : string) (k : string) : string :=
  match s with
  | EmptyString => k
  | String c s' => put_char c (put_chars s' k)
  end.

Definition put_str (s : string) (k : string) : string :=
  String dquote (put_chars s (String dquote k)).

Definition put_val (v : jval) (k : string) : string :=
  match v with
  | JNull => "null" +:+ k
  | JBool true => "true" +:+ k
  | JBool false => "false" +:+ k
  | JStr s => put_str s k
  end.

Definition put_member (m : string * jval) (k : string) : string :=
  put_str m.1 (": " +:+ put_val m.2 k).

(** The items of a container, separated by a comma, a line break and the
    indentation [ind]. *)
Fixpoint put_items {A} (put : A → string → string) (ind : string)
    (items : list A) (k : string) : string :=
  match items with
  | [] => k
  | [x] => put x k
  | x :: rest => put x (String "," (String newline (ind +:+ put_items put ind rest k)))
  end.

Definition put_entry (e : entry) (k : string) : string :=
  match map_to_list e with
  | [] => "{}" +:+ k
  | members =>
      String "{" (String newline ("    " +:+
        put_items put_member "    " members
          (String newline ("  }" +:+ k))))
  end.

Definition json_dump (data : store) : string :=
  match data with
  | [] => "[]"
  | _ =>
      String "[" (String newline ("  " +:+
        put_items put_entry "  " data (String newline "]")))
  end.

Definition is_ws (c : ascii) : bool :=
  let n := nat_of_ascii c in
  Nat.eqb n 32 || Nat.eqb n 9 || Nat.eqb n 10 || Nat.eqb n 13.

Fixpoint skip_ws (s : string) : string :=
  match s with
  | EmptyString => EmptyString
  | String c s' => if is_ws c then skip_ws s' else s
  end.

Definition hex_val (c : ascii) : option nat :=
  let n := nat_of_ascii c in
  if Nat.leb 48 n && Nat.leb n 57 then Some (n - 48)
  else if Nat.leb 97 n && Nat.leb n 102 then Some (n - 87)
  else if Nat.leb 65 n && Nat.leb n 70 then Some (n - 55)
  else None.

Definition hex4 (a b c d : ascii) : option nat :=
  a ← hex_val a; b ← hex_val b; c ← hex_val c; d ← hex_val d;
  Some (((a * 16 + b) * 16 + c) * 16 + d).

(** The one-letter escapes of [json.decoder] ([BACKSLASH]). *)
Definition unescape (c : ascii) : option ascii :=
  if Ascii.eqb c dquote then Some dquote
  else if Ascii.eqb c backslash then Some backslash
  else if Ascii.eqb c "/" then Some "/"%char
  else if Ascii.eqb c "b" then Some (ascii_of_nat 8)
  else if Ascii.eqb c "f" then Some (ascii_of_nat 12)
  else if Ascii.eqb c "n" then Some (ascii_of_nat 10)
  else if Ascii.eqb c "r" then Some (ascii_of_nat 13)
  else if Ascii.eqb c "t" then Some (ascii_of_nat 9)
  else None.

Definition and_then {A} (c : ascii) (r : option (string * A))
  : option (string * A) :=
  match r with
  | Some (w, rest) => Some (String c w, rest)
  | None => None
  end.

(** [scanstring], after the opening quote: the string and the text after
    the closing quote. A raw control character is an error. *)
Fixpoint scanstring (s : string) : option (string * string) :=
  match s with
  | EmptyString => None
  | String c r =>
      if Ascii.eqb c dquote then Some (EmptyString, r)
      else if Ascii.eqb c backslash then
        match r with
        | EmptyString => None
        | String e r1 =>
            if Ascii.eqb e "u" then
              match r1 with
              | String x1 (String x2 (String x3 (String x4 r2))) =>
                  match hex4 x1 x2 x3 x4 with
                  | Some n =>
                      if Nat.ltb n 128
                      then and_then (ascii_of_nat n) (scanstring r2)
                      else None
                  | None => None
                  end
              | _ => None
              end
            else
              match unescape e with
              | Some c' => and_then c' (scanstring r1)
              | None => None
              end
        end
      else if Nat.ltb (nat_of_ascii c) 32 then None
      else and_then c (scanstring r)
  end.

Definition parse_val (s : string) : option (jval * string) :=
  match s with
  | String "n" (String "u" (String "l" (String "l" r))) => Some (JNull, r)
  | String "t" (String "r" (String "u" (String "e" r))) => Some (JBool true, r)
  | String "f" (String "a" (String "l" (String "s" (String "e" r)))) =>
      Some (JBool false, r)
  | String c r =>
      if Ascii.eqb c dquote
      then '(w, rest) ← scanstring r; Some (JStr w, rest)
      else None
  | EmptyString => None
  end.

(** The members of an object up to the closing brace. *)
Fixpoint parse_members (fuel : nat) (s : string)
  : option (list (string * jval) * string) :=
  match fuel with
  | 0 => None
  | S fuel =>
      match s with
      | String c r =>
          if Ascii.eqb c dquote then
            '(key, r) ← scanstring r;
            match skip_ws r with
            | String ":" r =>
                '(v, r) ← parse_val (skip_ws r);
                match skip_ws r with
                | String "," r =>
                    '(ms, r) ← parse_members fuel (skip_ws r);
                    Some ((key, v) :: ms, r)
                | String "}" r => Some ([(key, v)], r)
                | _ => None
                end
            | _ => None
            end
          else None
      | EmptyString => None
      end
  end.

(** An object; of two members with the same key the last one stays. *)
Definition parse_entry (fuel : nat) (s : string) : option (entry * string) :=
  match s with
  | String "{" r =>
      match skip_ws r with
      | String "}" r => Some (∅, r)
      | r =>
          '(ms, r) ← parse_members fuel r;
          Some (list_to_map (reverse ms), r)
      end
  | _ => None
  end.

(** The items of the array up to the closing bracket. *)
Fixpoint parse_entries (fuel : nat) (s : string) : option (store * string) :=
  match fuel with
  | 0 => None
  | S fuel =>
      '(e, r) ← parse_entry fuel s;
      match skip_ws r with
      | String "," r =>
          '(es, r) ← parse_entries fuel (skip_ws r);
          Some (e :: es, r)
      | String "]" r => Some ([e], r)
      | _ => None
      end
  end.

Definition json_load (text : string) : option store :=
  let fuel := String.length text in
  match skip_ws text with
  | String "[" r =>
      '(data, r) ←
        match skip_ws r with
        | String "]" r => Some ([], r)
        | r => parse_entries fuel r
        end;
      match skip_ws r with
      | EmptyString => Some data
      | _ => None
      end
  | _ => None
  end.

End py_json_model.

Definition py_json : JsonCodec :=
  {| json_dump := py_json_model.json_dump;
     json_load := py_json_model.json_load |}.

(** ** Definitions that follow the words of the specification *)

Section spec_discovery.
Import update_db_from_txt.
Context `{JsonCodec} `{UrlLib}.

(** The canonical watch shape: [urlparse] returns, the host name is one of
    the two, the path is [/watch], and [parse_qs] binds [v] in the query
    (with its default arguments it binds the names that have a value that
    is not blank). *)
Definition canonical_watch_url (youtube_url : string) : Prop :=
  ∃ parsed_url, urlparse youtube_url = Some parsed_url
    ∧ hostname parsed_url ∈ [Some "www.youtube.com"; Some "youtube.com"]
    ∧ path parsed_url = "/watch"
    ∧ is_Some (parse_qs (query parsed_url) !! "v").

(** The first value that [parse_qs] binds to [v]. *)
Definition v_parameter (youtube_url : string) : option string :=
  parsed_url ← urlparse youtube_url;
  parse_qs (query parsed_url) !! "v" ≫= head.

(** The words of the specification on the query of a URL: a parameter
    [name] is present when a field of the query, between [&], is [name] or
    starts with [name=]. *)
Definition parameter_present (name qs : string) : Prop :=
  ∃ field, field ∈ py_urllib_model.split "&" qs
    ∧ (field = name ∨ String.prefix (name +:+ "=") field = true).

(** An entry of the store whose url has the identifier [id]. *)
Definition has_video_id (id : string) (e : entry) : bool :=
  match e !! "url" with
  | Some (JStr u) => bool_decide (extract_video_id u = Ok (Some id))
  | _ => false
  end.

(** A result URL is a duplicate when its identifier is the identifier of an
    entry of the store. *)
Definition is_duplicate (database : store) (url : string) : bool :=
  match extract_video_id url with
  | Ok (Some id) => str_truthy id && existsb (has_video_id id) database
  | _ => false
  end.

(** The records that the loop of [main] appends: a result URL is compared
    with the list that was loaded before the loop. *)
Fixpoint appended_entries (driver : nat → string → result (option string))
    (database : store) (idx : nat) (queries : list string) : list entry :=
  match queries with
  | [] => []
  | q :: rest =>
      match driver idx ("song: " +:+ q) with
      | Ok (Some url) =>
          if str_truthy url && negb (is_duplicate database url)
          then [result_obj q url] else []
      | _ => []
      end ++ appended_entries driver database (S idx) rest
  end.

(** The new records of a run in the words of the specification: one per
    query that yielded a result URL which is not a duplicate of an existing
    record, the records inserted for the earlier queries included, in the
    order of the queries. *)
Fixpoint expected_new_entries (driver : nat → string → result (option string))
    (existing : store) (idx : nat) (queries : list string) : list entry :=
  match queries with
  | [] => []
  | q :: rest =>
      match driver idx ("song: " +:+ q) with
      | Ok (Some url) =>
          if str_truthy url && negb (is_duplicate existing url)
          then result_obj q url
               :: expected_new_entries driver (existing ++ [result_obj q url])
                    (S idx) rest
          else expected_new_entries driver existing (S idx) rest
      | _ => expected_new_entries driver existing (S idx) rest
      end
  end.

(** The identifiers of the result URLs of a run that are not duplicates of
    a record of [database], in the order of the queries. *)
Fixpoint new_identifiers (driver : nat → string → result (option string))
    (database : store) (idx : nat) (queries : list string) : list string :=
  match queries with
  | [] => []
  | q :: rest =>
      match driver idx ("song: " +:+ q) with
      | Ok (Some url) =>
          if str_truthy url && negb (is_duplicate database url) then
            match extract_video_id url with
            | Ok (Some id) => if str_truthy id then [id] else []
            | _ => []
            end
          else []
      | _ => []
      end ++ new_identifiers driver database (S idx) rest
  end.

(** The records that the pipelines themselves write have a url that is a
    string and a title. *)
Definition store_ok (database : store) : Prop :=
  Forall (λ e : entry, (∃ u, e !! "url" = Some (JStr u))
                       ∧ is_Some (e !! "title")) database.

(** [urlparse] returns on the urls of the records. *)
Definition urls_parse (database : store) : Prop :=
  Forall (λ e : entry, ∀ u, e !! "url" = Some (JStr u) → is_Some (urlparse u))
    database.

(** [urlparse] returns on the result URLs of the searches. *)
Definition results_parse (driver : nat → string → result (option string)) : Prop :=
  ∀ idx q url, driver idx q = Ok (Some url) → is_Some (urlparse url).

(** No search raises. *)
Definition driver_ok (driver : nat → string → result (option string)) : Prop :=
  ∀ idx q, is_Ok (driver idx q).

(** The store file is written exactly once between [fs] and [fs']. *)
Definition persisted_once (fs fs' : fsys) : Prop :=
  ∃ text, write_log fs' = write_log fs ++ [text].

End spec_discovery.

Section spec_conversion.
Import conversion.

(** The entry that [update_database_entry] leaves in place of a matching
    entry [e]. *)
Definition updated_entry (download_path : string) (done_status : jval)
    (e : entry) : entry :=
  let e := <["done" := done_status]> e in
  if str_truthy download_path
  then <["download_path" := JStr download_path]> e
  else e.

(** No entry of the list has the url [url], and every one has a url. *)
Definition no_url_match (url : jval) (entries : store) : Prop :=
  Forall (λ e : entry, ∃ u, e !! "url" = Some u ∧ u ≠ url) entries.

(** [pos] is the position of the first entry whose url is [url]. *)
Definition first_url_match (url : jval) (database : store) (pos : nat) : Prop :=
  (∃ e, database !! pos = Some e ∧ e !! "url" = Some url)
  ∧ ∀ j e, (j < pos)%nat → database !! j = Some e → e !! "url" ≠ Some url.

(** The line that the loop of [process_file] logs for the entry at [pos]. *)
Definition event_of (database : store) (pos : nat) : list log_event :=
  match database !! pos with
  | Some item =>
      [if not_done item then Processing pos else AlreadyDone pos]
  | None => []
  end.

Definition is_processing (ev : log_event) : bool :=
  match ev with
  | Processing _ => true
  | AlreadyDone _ => false
  end.

(** The titles of the entries that are not done are strings (or missing):
    the progress bar, when in use, slices the title. *)
Definition titles_ok (TQDM_AVAILABLE : bool) (database : store) : Prop :=
  TQDM_AVAILABLE = true →
  Forall (λ item : entry, not_done item = true →
            ∃ s, default (JStr "") (item !! "title") = JStr s) database.

End spec_conversion.

(** ** Sample data for the concrete runs *)

Section samples.
Import update_db_from_txt.

Definition sample_url_1 : string := "https://www.youtube.com/watch?v=abc123".
Definition sample_url_2 : string := "https://www.youtube.com/watch?v=abc123&t=10".
Definition sample_url_3 : string := "https://www.youtube.com/watch?v=xyz789".

(** No store file yet. *)
Definition no_file : fsys := {| db_file := None; write_log := [] |}.

(** A store file that holds [data]. *)
Definition store_file `{JsonCodec} (data : store) : fsys :=
  {| db_file := Some (json_dump data); write_log := [] |}.

Definition pending_a : entry := result_obj "Song A" sample_url_1.
Definition pending_a2 : entry := result_obj "Song A" sample_url_2.
Definition pending_b : entry := result_obj "Song B" sample_url_3.
Definition done_a : entry :=
  <["download_path" := JStr "/music"]> (<["done" := JBool true]> pending_a).

(** The first entry fails in the browser, the others download. *)
Definition browser_error_first (pos : nat) : outcome :=
  match pos with
  | 0 => BrowserError
  | _ => Downloaded
  end.

(** The Download button never appears. *)
Definition browser_timeout (pos : nat) : outcome := DownloadTimeout.

End samples.

(** ** Well-formed records *)

Section spec_records.

(** The three values of the field done that the pipelines write. *)
Definition is_status (v : jval) : Prop :=
  v = JBool true ∨ v = JBool false ∨ v = JStr "timeout".

(** A record as the pipelines write it: the five fields, the status in
    done, strings elsewhere. *)
Definition record_ok (e : entry) : Prop :=
  (∃ s, e !! "title" = Some (JStr s))
  ∧ (∃ s, e !! "url" = Some (JStr s))
  ∧ (∃ v, e !! "done" = Some v ∧ is_status v)
  ∧ (∃ s, e !! "download_path" = Some (JStr s))
  ∧ (∃ s, e !! "project" = Some (JStr s)).

(** Every entry has a url field. *)
Definition urls_present (database : store) : Prop :=
  Forall (λ e : entry, is_Some (e !! "url")) database.

End spec_records.

(** ** Queries *)

Section spec_queries.

Fixpoint string_forall (p : ascii → bool) (s : string) : bool :=
  match s with
  | EmptyString => true
  | String c s' => p c && string_forall p s'
  end.

Definition is_cr (c : ascii) : bool := Ascii.eqb c "013".
Definition is_lf (c : ascii) : bool := Ascii.eqb c "010".

(** A text of ASCII characters, on which [str.strip] and [str.isspace] are
    the functions of [py_str] (on other texts they also take the Unicode
    whitespace, as U+00A0). *)
Definition is_ascii (s : string) : Prop :=
  string_forall (λ c, Nat.ltb (nat_of_ascii c) 128) s = true.

(** A text of whitespace only. *)
Definition blank (s : string) : Prop := string_forall py_str.isspace s = true.

(** A query: a text that is not empty, has no whitespace at its ends and
    no end of line inside. *)
Definition is_query (q : string) : Prop :=
  q ≠ "" ∧ py_str.strip q = q
  ∧ string_forall (λ c, negb (is_cr c || is_lf c)) q = true.

(** A line feed can only be the last character. *)
Fixpoint lf_only_last (s : string) : bool :=
  match s with
  | EmptyString => true
  | String c s' =>
      match s' with
      | EmptyString => true
      | String _ _ => negb (is_lf c) && lf_only_last s'
      end
  end.

End spec_queries.

(** ** manage_database.py

    The answers that the user types are arguments: the text typed at a
    prompt, and for the entry number what [int] makes of it ([None] when it
    raises [ValueError]). What the functions print is not part of the
    model. *)

Module manage_database.
Section code.
Context `{JsonCodec}.

Definition load_database (fs : fsys) : store :=
  match db_file fs with
  | Some text =>
      match json_load text with
      | Some data => data
      | None => []
      end
  | None => []
  end.

Definition save_database (data : store) (fs : fsys) : fsys :=
  {| db_file := Some (json_dump data);
     write_log := write_log fs ++ [json_dump data] |}.

(** [update_project]: the file system that the call leaves. *)
Definition update_project (entry_num : option Z) (new_project : string)
    (fs : fsys) : fsys :=
  let database := load_database fs in
  match database with
  | [] => fs
  | _ =>
      match entry_num with
      | None => fs
      | Some entry_num =>
          if bool_decide (entry_num = 0%Z) then fs
          else if bool_decide (1 ≤ entry_num ≤ Z.of_nat (length database))%Z then
            match database !! Z.to_nat (entry_num - 1) with
            | Some entry =>
                let new_project := py_str.strip new_project in
                if str_truthy new_project then
                  let entry := <["project" := JStr new_project]> entry in
                  save_database
                    (<[Z.to_nat (entry_num - 1) := entry]> database) fs
                else fs
            | None => fs
            end
          else fs
      end
  end.

(** The list comprehension of [search_by_project]: [.lower()] raises on a
    project that is not a string. *)
Fixpoint found_entries (project_name : string) (database : store)
  : result (list entry) :=
  match database with
  | [] => Ok []
  | entry :: rest =>
      match default (JStr "") (entry !! "project") with
      | JStr project =>
          found ← found_entries project_name rest;
          Ok (if py_str.contains (py_str.lower project_name)
                   (py_str.lower project)
              then entry :: found else found)
      | _ => Raise AttributeError
      end
  end.

(** [search_by_project]: the entries that the call lists (none when it
    returns before the search). *)
Definition search_by_project (project_name : string) (fs : fsys)
  : result (list entry) :=
  let database := load_database fs in
  match database with
  | [] => Ok []
  | _ =>
      let project_name := py_str.strip project_name in
      if str_truthy project_name then found_entries project_name database
      else Ok []
  end.

(** The counters of [show_stats]. *)
Record stats : Type := {
  total : nat;
  completed : nat;
  timeout : nat;
  pending : nat
}.

(** [show_stats]: the counters that the call prints ([None]: the store is
    empty); the table of the projects, printed after them, is left out. *)
Definition show_stats (fs : fsys) : option stats :=
  let database := load_database fs in
  match database with
  | [] => None
  | _ =>
      Some {|
        total := length database;
        completed :=
          length (filter (λ e : entry, e !! "done" = Some (JBool true)) database);
        timeout :=
          length (filter (λ e : entry, e !! "done" = Some (JStr "timeout")) database);
        pending :=
          length (filter (λ e : entry, e !! "done" = Some (JBool false)) database)
      |}
  end.

End code.
End manage_database.

(** ** The three tools on one store *)

Section spec_pipeline.
Context `{JsonCodec} `{UrlLib}.

(** One completed run of a tool that can write the store. *)
Inductive tool_run (fs fs' : fsys) : Prop :=
| discovery_run (driver : nat → string → result (option string))
    (queries : list string) (st : update_db_from_txt.run) :
    update_db_from_txt.main driver queries fs = Ok (fs', st) →
    tool_run fs fs'
| conversion_run (tqdm : bool) (download_dir : string)
    (browser : nat → outcome) (st : conversion.state) :
    conversion.process_file tqdm download_dir browser fs = Ok st →
    fs' = conversion.fs st →
    tool_run fs fs'
| project_update (entry_num : option Z) (new_project : string) :
    fs' = manage_database.update_project entry_num new_project fs →
    tool_run fs fs'.

(** The records of [old] are in [new], at their positions, with their
    titles and urls. *)
Definition extends_store (old new : store) : Prop :=
  (length old ≤ length new)%nat
  ∧ ∀ pos e, old !! pos = Some e →
      ∃ e', new !! pos = Some e'
        ∧ e' !! "title" = e !! "title" ∧ e' !! "url" = e !! "url".

End spec_pipeline.

(** ** Elements of a page *)

Section spec_elements.
Import conversion.

(** The key under which the listings keep one element. *)
Definition elem_key (e : WebElement) : string * string :=
  (elem_id e, py_str.slice_to 120 (default "" (get_attribute e "outerHTML"))).

(** An element that one of the selectors finds. *)
Definition found_by (find_elements : string → result (list WebElement))
    (e : WebElement) : Prop :=
  ∃ sel found, find_elements sel = Ok found ∧ e ∈ found.

End spec_elements.

(** ** More sample data *)

Section samples_more.

(** The input field is never found. *)
Definition browser_no_input (pos : nat) : outcome := InputNotFound.

(** A record with a project. *)
Definition rock_a : entry := <["project" := JStr "Rock songs"]> done_a.

(** A search whose results page has one video title. *)
Definition search_a (idx : nat) (query : string) : update_db_from_txt.search :=
  {| update_db_from_txt.get := Ok ();
     update_db_from_txt.get_again := Ok ();
     update_db_from_txt.consent := Ok ();
     update_db_from_txt.page := update_db_from_txt.VideoTitles [Some sample_url_1] |}.

(** A page with one button. *)
Definition convert_button : conversion.WebElement :=
  {| conversion.elem_id := "e1";
     conversion.is_displayed := Ok true;
     conversion.elem_size := Ok {[ "height" := 20%Z; "width" := 80%Z ]};
     conversion.tag_name := "BUTTON";
     conversion.elem_text := " Convert ";
     conversion.attributes :=
       {[ "outerHTML" := "<button>Convert</button>" ]} |}.

Definition page_with_button (sel : string)
  : result (list conversion.WebElement) :=
  if String.eqb sel "button" then Ok [convert_button] else Ok [].

(** A page on which the three steps succeed. *)
Definition input_field : conversion.WebElement :=
  {| conversion.elem_id := "e0";
     conversion.is_displayed := Ok true;
     conversion.elem_size := Ok {[ "height" := 30%Z; "width" := 300%Z ]};
     conversion.tag_name := "input";
     conversion.elem_text := "";
     conversion.attributes := {[ "id" := "v" ]} |}.

Definition download_link : conversion.WebElement :=
  {| conversion.elem_id := "e2";
     conversion.is_displayed := Ok true;
     conversion.elem_size := Ok {[ "height" := 20%Z; "width" := 90%Z ]};
     conversion.tag_name := "a";
     conversion.elem_text := "Download";
     conversion.attributes := {[ "outerHTML" := "<a>Download</a>" ]} |}.

Definition download_poll : conversion.poll :=
  {| conversion.by_xpath := λ _, Ok [download_link];
     conversion.by_css := λ _, Ok [] |}.

Definition good_page : conversion.entry_page :=
  {| conversion.navigate := Ok ();
     conversion.input_v := Ok input_field;
     conversion.type_url := Ok ();
     conversion.find_elements := page_with_button;
     conversion.click_convert := Ok ();
     conversion.download_polls := [download_poll];
     conversion.click_download := Ok () |}.

End samples_more.

(** ** Tactics *)

(** Case analysis along the branches of a step. *)
Ltac step_cases Hstep :=
  repeat match type of Hstep with
  | context [match ?x with _ => _ end] =>
      let E := fresh "E" in destruct x eqn:E
  | context [if ?b then _ else _] =>
      let E := fresh "E" in destruct b eqn:E
  end.

(** * Properties *)

(** ** The models of the libraries have the properties of the interfaces *)

Section py_urllib_facts.
Import py_urllib_model.

Lemma unquote_nonempty (s : string) : s ≠ "" → unquote s ≠ "".
Proof.
  destruct s as [|c s]; [done|]. intros _. simpl.
  destruct (Ascii.eqb c "%"); [|done].
  destruct s as [|x [|y r]]; [done..|].
  by destruct (hex_val x), (hex_val y).
Qed.

Lemma parse_pair_value (nv name value : string) :
  parse_pair nv = Some (name, value) → value ≠ "".
Proof.
  unfold parse_pair. destruct (partition "=" nv) as [[n [|c v]]|]; [done| |done].
  intros Heq.
  assert (value = unquote (replace_plus (String c v))) as -> by congruence.
  by apply unquote_nonempty.
Qed.

Lemma add_pair_no_blank m nv :
  no_blank m → nv.2 ≠ "" → no_blank (add_pair m nv).
Proof.
  intros Hm Hv k vs. unfold add_pair.
  destruct (m !! nv.1) as [values|] eqn:Hnv; intros Hk.
  - destruct (decide (k = nv.1)) as [->|Hne].
    + rewrite lookup_insert_eq in Hk. injection Hk as <-.
      destruct (Hm _ _ Hnv) as [_ Hall]. split.
      * by destruct values.
      * apply Forall_app; split; [done|]. by apply Forall_singleton.
    + rewrite lookup_insert_ne in Hk by done. eauto.
  - destruct (decide (k = nv.1)) as [->|Hne].
    + rewrite lookup_insert_eq in Hk. injection Hk as <-.
      split; [done|]. by apply Forall_singleton.
    + rewrite lookup_insert_ne in Hk by done. eauto.
Qed.

Lemma foldl_add_pair_no_blank pairs m :
  no_blank m → Forall (λ nv : string * string, nv.2 ≠ "") pairs →
  no_blank (foldl add_pair m pairs).
Proof.
  revert m. induction pairs as [|nv pairs IH]; intros m Hm Hall; [done|].
  apply Forall_cons in Hall as [Hnv Hall]. simpl.
  apply IH; [|done]. by apply add_pair_no_blank.
Qed.

Lemma py_parse_qs_no_blank : @parse_qs_no_blank py_urllib.
Proof.
  intros qs. change (no_blank (py_urllib_model.parse_qs qs)).
  apply foldl_add_pair_no_blank.
  - intros k vs Hk. by rewrite lookup_empty in Hk.
  - apply Forall_forall. intros [n v] Hin. unfold parse_qsl in Hin.
    apply list_elem_of_omap in Hin as (nv & _ & Hnv).
    by eapply parse_pair_value.
Qed.

End py_urllib_facts.


Section py_json_facts.
Import py_json_model.

Lemma scanstring_put_char (c : ascii) (k : string) :
  scanstring (put_char c k) = and_then c (scanstring k).
Proof. by destruct c as [[] [] [] [] [] [] [] []]. Qed.

Lemma scanstring_put_chars (s k : string) :
  scanstring (put_chars s (String dquote k)) = Some (s, k).
Proof.
  induction s as [|c s IH]; [done|].
  simpl. by rewrite scanstring_put_char, IH.
Qed.

Lemma parse_val_put_val (v : jval) (k : string) :
  parse_val (put_val v k) = Some (v, k).
Proof.
  destruct v as [|[]|s]; [done..|].
  change (parse_val (put_val (JStr s) k))
    with ('(w, rest) ← scanstring (put_chars s (String dquote k));
          Some (JStr w, rest)).
  by rewrite scanstring_put_chars.
Qed.

Lemma skip_ws_put_val (v : jval) (k : string) :
  skip_ws (put_val v k) = put_val v k.
Proof. by destruct v as [|[]|s]. Qed.

Lemma skip_ws_put_members (m : string * jval) (ms : list (string * jval))
    (ind k : string) :
  skip_ws (put_items put_member ind (m :: ms) k)
  = put_items put_member ind (m :: ms) k.
Proof. by destruct ms. Qed.

Lemma put_members_cons (m : string * jval) (ms : list (string * jval))
    (ind k : string) :
  ∃ r, put_items put_member ind (m :: ms) k = String dquote r.
Proof. destruct ms; by eexists. Qed.

Lemma parse_members_put_member (fuel : nat) (key : string) (v : jval) (k : string) :
  parse_members (S fuel) (put_member (key, v) k) =
    match skip_ws k with
    | String "," r =>
        '(ms, r) ← parse_members fuel (skip_ws r); Some ((key, v) :: ms, r)
    | String "}" r => Some ([(key, v)], r)
    | _ => None
    end.
Proof.
  unfold put_member, put_str. cbn [parse_members fst snd].
  change (Ascii.eqb dquote dquote) with true. cbn iota.
  rewrite scanstring_put_chars. cbn [mbind option_bind].
  change (skip_ws (": " +:+ put_val v k)) with (String ":" (String " " (put_val v k))).
  cbn iota.
  change (skip_ws (String " " (put_val v k))) with (skip_ws (put_val v k)).
  rewrite skip_ws_put_val, parse_val_put_val. done.
Qed.

Lemma parse_members_put_items (ms : list (string * jval)) (fuel : nat) (k : string) :
  ms ≠ [] → (length ms ≤ fuel)%nat →
  parse_members fuel
    (put_items put_member "    " ms (String newline ("  }" +:+ k)))
  = Some (ms, k).
Proof.
  revert fuel. induction ms as [|[key v] ms IH]; intros fuel Hne Hfuel; [done|].
  destruct fuel as [|fuel]; [simpl in Hfuel; lia|].
  destruct ms as [|m ms].
  - change (put_items put_member "    " [(key, v)] ?K) with (put_member (key, v) K).
    by rewrite parse_members_put_member.
  - change (put_items put_member "    " ((key, v) :: m :: ms) ?K)
      with (put_member (key, v)
              (String "," (String newline
                 ("    " +:+ put_items put_member "    " (m :: ms) K)))).
    rewrite parse_members_put_member.
    change (skip_ws (String "," ?r)) with (String "," r). cbn iota.
    change (skip_ws (String newline ("    " +:+ ?r))) with (skip_ws r).
    rewrite skip_ws_put_members, IH; [done|done|simpl in *; lia].
Qed.

Lemma parse_entry_members (fuel : nat) (t r : string) :
  skip_ws t = String dquote r →
  parse_entry fuel (String "{" t) =
    '(ms, r1) ← parse_members fuel (String dquote r);
    Some (list_to_map (reverse ms), r1).
Proof. intros Hr. unfold parse_entry. cbn iota. by rewrite Hr. Qed.

Lemma parse_entry_put_entry (e : entry) (fuel : nat) (k : string) :
  (size e ≤ fuel)%nat → parse_entry fuel (put_entry e k) = Some (e, k).
Proof.
  intros Hfuel. unfold put_entry.
  destruct (map_to_list e) as [|m ms] eqn:Hms.
  - apply map_to_list_empty_iff in Hms as ->. done.
  - destruct (put_members_cons m ms "    " (String newline ("  }" +:+ k)))
      as [r Hr].
    rewrite (parse_entry_members fuel _ r).
    + rewrite <- Hr, parse_members_put_items; [|done|].
      * cbn [mbind option_bind]. f_equal. f_equal. rewrite <- Hms.
        rewrite <- (list_to_map_to_list e) at 2.
        apply list_to_map_proper; [|apply reverse_Permutation].
        rewrite fmap_reverse, reverse_Permutation. apply NoDup_fst_map_to_list.
      * rewrite <- Hms, length_map_to_list. done.
    + rewrite <- Hr. apply (skip_ws_put_members m ms).
Qed.

Lemma put_entry_open (e : entry) (k : string) :
  ∃ r, put_entry e k = String "{" r.
Proof. unfold put_entry. destruct (map_to_list e); by eexists. Qed.

Lemma put_entries_open (e : entry) (es : store) (ind k : string) :
  ∃ r, put_items put_entry ind (e :: es) k = String "{" r.
Proof. destruct es; apply put_entry_open. Qed.

Lemma parse_entries_put_items (es : store) (fuel : nat) (k : string) :
  es ≠ [] → (∀ e, e ∈ es → (size e + length es ≤ fuel)%nat) →
  parse_entries fuel (put_items put_entry "  " es (String newline ("]" +:+ k)))
  = Some (es, k).
Proof.
  revert fuel. induction es as [|e es IH]; intros fuel Hne Hfuel; [done|].
  assert (size e + length (e :: es) ≤ fuel)%nat as He
    by (apply Hfuel; left).
  destruct fuel as [|fuel]; [simpl in He; lia|]. simpl in He.
  destruct es as [|e' es].
  - change (put_items put_entry "  " [e] ?K) with (put_entry e K).
    cbn [parse_entries]. rewrite parse_entry_put_entry by lia. done.
  - change (put_items put_entry "  " (e :: e' :: es) ?K)
      with (put_entry e
              (String "," (String newline
                 ("  " +:+ put_items put_entry "  " (e' :: es) K)))).
    cbn [parse_entries]. rewrite parse_entry_put_entry by lia.
    cbn [mbind option_bind].
    change (skip_ws (String "," ?r)) with (String "," r). cbn iota.
    change (skip_ws (String newline ("  " +:+ ?r))) with (skip_ws r).
    destruct (put_entries_open e' es "  " (String newline ("]" +:+ k)))
      as [r Hr].
    rewrite Hr. change (skip_ws (String "{" r)) with (String "{" r).
    rewrite <- Hr, IH; [done|done|].
    intros e0 He0. specialize (Hfuel e0 (list_elem_of_further _ _ _ He0)).
    simpl in *. lia.
Qed.

Lemma length_append (a b : string) :
  String.length (a +:+ b) = (String.length a + String.length b)%nat.
Proof. induction a as [|c a IH]; simpl; [done|]. by rewrite IH. Qed.

Lemma put_char_length (c : ascii) (k : string) :
  (String.length k < String.length (put_char c k))%nat.
Proof. destruct c as [[] [] [] [] [] [] [] []]; simpl; lia. Qed.

Lemma put_str_length (s k : string) :
  (String.length k < String.length (put_str s k))%nat.
Proof.
  unfold put_str. simpl.
  assert (∀ k', String.length k' ≤ String.length (put_chars s k'))%nat as Hs.
  { induction s as [|c s IH]; intros k'; simpl; [done|].
    pose proof (put_char_length c (put_chars s k')). specialize (IH k'). lia. }
  specialize (Hs (String dquote k)). simpl in Hs. lia.
Qed.

Lemma put_member_length (m : string * jval) (k : string) :
  (String.length k < String.length (put_member m k))%nat.
Proof.
  destruct m as [key v]. unfold put_member. cbn [fst snd].
  pose proof (put_str_length key (": " +:+ put_val v k)) as Hs.
  assert (String.length k ≤ String.length (put_val v k))%nat as Hv.
  { destruct v as [|[]|w]; cbn [put_val];
      [rewrite length_append; simpl; lia..|].
    pose proof (put_str_length w k). lia. }
  rewrite length_append in Hs. lia.
Qed.

(** A container is at least as long as the sum of the weights of its
    items, when every item is longer than its weight. *)
Lemma put_items_length {A} (put : A → string → string) (w : A → nat)
    (ind : string) (items : list A) (k : string) :
  (∀ x k', String.length k' + w x ≤ String.length (put x k'))%nat →
  (String.length k + sum_list_with w items
     ≤ String.length (put_items put ind items k))%nat.
Proof.
  intros Hput. induction items as [|x items IH]; [simpl; lia|].
  destruct items as [|y items].
  - specialize (Hput x k). simpl in *. lia.
  - change (put_items put ind (x :: y :: items) k)
      with (put x (String "," (String newline
              (ind +:+ put_items put ind (y :: items) k)))).
    change (sum_list_with w (x :: y :: items))
      with (w x + sum_list_with w (y :: items))%nat.
    remember (put_items put ind (y :: items) k) as t eqn:Ht.
    remember (sum_list_with w (y :: items)) as n eqn:Hn.
    specialize (Hput x (String "," (String newline (ind +:+ t)))).
    cbn [String.length] in Hput. rewrite length_append in Hput. lia.
Qed.

Lemma put_entry_length (e : entry) (k : string) :
  (String.length k + S (size e) ≤ String.length (put_entry e k))%nat.
Proof.
  unfold put_entry. rewrite <- (length_map_to_list e).
  destruct (map_to_list e) as [|m ms] eqn:Hms.
  { rewrite length_append. simpl. lia. }
  assert (sum_list_with (λ _ : string * jval, 1%nat) (m :: ms) = length (m :: ms))
    as Hsum by (clear; induction (m :: ms); simpl; lia).
  pose proof (put_items_length put_member (λ _, 1%nat) "    " (m :: ms)
                (String newline ("  }" +:+ k))) as Hlen.
  rewrite Hsum in Hlen.
  remember (put_items put_member "    " (m :: ms)
              (String newline ("  }" +:+ k))) as t eqn:Ht.
  remember (length (m :: ms)) as n eqn:Hn.
  cbn [String.length] in *. rewrite !length_append in *.
  cbn [String.length] in *.
  assert (∀ (x : string * jval) k',
    (String.length k' + 1 ≤ String.length (put_member x k'))%nat) as Hm.
  { intros x k'. pose proof (put_member_length x k'). lia. }
  specialize (Hlen Hm). lia.
Qed.

Lemma sum_sizes_bound (es : store) (e : entry) :
  e ∈ es → (size e + length es ≤ sum_list_with (λ e, S (size e)) es)%nat.
Proof.
  induction es as [|e' es IH]; [by intros ?%elem_of_nil|].
  assert (length es ≤ sum_list_with (λ e, S (size e)) es)%nat as Hlen
    by (clear; induction es; simpl; lia).
  intros [->|Hin]%elem_of_cons; simpl; [lia|]. specialize (IH Hin). lia.
Qed.

Lemma json_load_entries (r r' : string) :
  skip_ws r = String "{" r' →
  json_load (String "[" r) =
    '(data, r) ← parse_entries (S (String.length r)) (String "{" r');
    match skip_ws r with
    | EmptyString => Some data
    | _ => None
    end.
Proof.
  intros Hr. unfold json_load. cbn zeta.
  change (skip_ws (String "[" r)) with (String "[" r). cbn iota.
  by rewrite Hr.
Qed.

Lemma py_json_roundtrip : @codec_roundtrip py_json.
Proof.
  intros data. change (json_load (json_dump data) = Some data).
  destruct data as [|e es]; [done|].
  destruct (put_entries_open e es "  " (String newline "]")) as [r Hr].
  unfold json_dump.
  rewrite (json_load_entries _ r).
  2:{ change (skip_ws (String newline ("  " +:+ ?t))) with (skip_ws t).
      by rewrite Hr. }
  rewrite <- Hr.
  change (String newline "]") with (String newline ("]" +:+ "")).
  rewrite parse_entries_put_items; [done|done|].
  intros e0 He0. pose proof (sum_sizes_bound _ _ He0) as Hsum.
  pose proof (put_items_length put_entry (λ e, S (size e)) "  " (e :: es)
                (String newline ("]" +:+ "")) (λ x k', put_entry_length x k'))
    as Hlen.
  remember (put_items put_entry "  " (e :: es) (String newline ("]" +:+ "")))
    as t eqn:Ht.
  remember (sum_list_with (λ e, S (size e)) (e :: es)) as n eqn:Hn.
  remember (length (e :: es)) as len eqn:Hlen'.
  cbn [String.length] in *. rewrite length_append. lia.
Qed.

End py_json_facts.

(** ** Discovery: identifiers and duplicates *)

Section discovery.
Import update_db_from_txt.
Context `{JsonCodec} `{UrlLib}.

Lemma str_truthy_true (s : string) : str_truthy s = true ↔ s ≠ "".
Proof.
  unfold str_truthy. rewrite negb_true_iff.
  destruct (String.eqb_spec s "") as [->|Hne]; split; congruence.
Qed.

Lemma extract_video_id_Some (youtube_url id : string) :
  extract_video_id youtube_url = Ok (Some id) ↔
  ∃ parsed_url, urlparse youtube_url = Some parsed_url
    ∧ hostname parsed_url ∈ [Some "www.youtube.com"; Some "youtube.com"]
    ∧ path parsed_url = "/watch"
    ∧ parse_qs (query parsed_url) !! "v" ≫= head = Some id.
Proof.
  unfold extract_video_id.
  destruct (urlparse youtube_url) as [parsed_url|];
    [|split; [done|by intros (? & ? & _)]].
  split.
  - intros Hid. exists parsed_url. split; [done|].
    case_bool_decide as Hh; [|done]. case_bool_decide as Hp; [|done].
    split_and!; [done..|].
    destruct (parse_qs _ !! "v"); simpl; congruence.
  - intros (p & [= <-] & Hh & Hp & Hv).
    rewrite bool_decide_true, bool_decide_true by done.
    destruct (parse_qs _ !! "v"); simpl in *; congruence.
Qed.

(** [extract_video_id] raises only the [ValueError] of [urlparse]. *)
Lemma extract_video_id_Raise (youtube_url : string) (ex : exn) :
  extract_video_id youtube_url = Raise ex ↔
  ex = ValueError ∧ urlparse youtube_url = None.
Proof.
  unfold extract_video_id.
  destruct (urlparse youtube_url) as [parsed_url|].
  - split; [|by intros [_ ?]].
    case_bool_decide; [|done]. case_bool_decide; [|done].
    by destruct (parse_qs _ !! "v").
  - split; [by intros [= <-]|by intros [-> _]].
Qed.

Lemma extract_video_id_parses (youtube_url : string) :
  is_Some (urlparse youtube_url) ↔ is_Ok (extract_video_id youtube_url).
Proof.
  split.
  - intros Hp. destruct (extract_video_id youtube_url) as [r|ex] eqn:Hr; [by eexists|].
    apply extract_video_id_Raise in Hr as [_ Hr]. rewrite Hr in Hp. by destruct Hp.
  - intros [r Hr]. destruct (urlparse youtube_url) eqn:Hp; [by eexists|].
    assert (extract_video_id youtube_url = Raise ValueError) as Hraise
      by by apply extract_video_id_Raise.
    congruence.
Qed.

Lemma check_duplicate_no_id (new_url : string) (db : store) :
  extract_video_id new_url = Ok None → check_duplicate new_url db = Ok None.
Proof. unfold check_duplicate. by intros ->. Qed.

Lemma has_video_id_str (id u : string) (e : entry) (r : option string) :
  e !! "url" = Some (JStr u) → extract_video_id u = Ok r →
  has_video_id id e = bool_decide (r = Some id).
Proof.
  intros Hu Hr. unfold has_video_id. rewrite Hu, Hr.
  apply bool_decide_ext. split; congruence.
Qed.

Lemma check_duplicate_loop_find (id : string) (db : store) :
  store_ok db → urls_parse db →
  check_duplicate_loop id db = Ok (List.find (has_video_id id) db).
Proof.
  induction 1 as [|e db [[u Hu] _] _ IH]; [done|].
  intros [Hparse Hrest]%Forall_cons.
  destruct (proj1 (extract_video_id_parses u) (Hparse u Hu)) as [r Hr].
  cbn [check_duplicate_loop List.find].
  rewrite (has_video_id_str id u e r Hu Hr), Hu.
  cbn [extract_video_id_dyn]. rewrite Hr. cbn [mbind result_bind].
  rewrite (IH Hrest). by case_bool_decide.
Qed.

Lemma find_has_video_id (id : string) (db : store) (e : entry) :
  List.find (has_video_id id) db = Some e →
  e ∈ db ∧ ∃ u, e !! "url" = Some (JStr u) ∧ extract_video_id u = Ok (Some id).
Proof.
  intros [Hin He]%find_some. split; [by apply list_elem_of_In|].
  unfold has_video_id in He.
  destruct (e !! "url") as [[| |u]|]; try done.
  exists u. split; [done|]. by apply bool_decide_eq_true in He.
Qed.

Lemma check_duplicate_spec (url : string) (db : store) :
  store_ok db → urls_parse db → is_Some (urlparse url) →
  check_duplicate url db =
    Ok (match extract_video_id url with
        | Ok (Some id) => if str_truthy id then List.find (has_video_id id) db else None
        | _ => None
        end).
Proof.
  intros Hdb Hparse [r Hr]%extract_video_id_parses. unfold check_duplicate.
  rewrite Hr. cbn [mbind result_bind]. destruct r as [id|]; [|done].
  destruct (str_truthy id); [|done]. by apply check_duplicate_loop_find.
Qed.

Lemma is_duplicate_find (url : string) (db : store) :
  is_duplicate db url =
    match extract_video_id url with
    | Ok (Some id) => if str_truthy id
                      then bool_decide (is_Some (List.find (has_video_id id) db))
                      else false
    | _ => false
    end.
Proof.
  unfold is_duplicate. destruct (extract_video_id url) as [[id|]|]; [|done..].
  destruct (str_truthy id); [|done]. simpl.
  destruct (List.find (has_video_id id) db) as [e|] eqn:Hfind.
  - rewrite bool_decide_true by by eexists.
    apply find_some in Hfind as [Hin He]. apply existsb_exists. eauto.
  - rewrite bool_decide_false by by intros [? ?].
    apply not_true_is_false. intros (e & Hin & He)%existsb_exists.
    by rewrite (find_none _ _ Hfind e Hin) in He.
Qed.

(** One iteration on a store whose entries have url and title, when
    [urlparse] returns on the urls. *)
Lemma main_query_ok (db : store) (st : run) (q : string) (found : option string) :
  store_ok db → urls_parse db →
  (∀ url, found = Some url → is_Some (urlparse url)) →
  ∃ dups,
    main_query db st q (Ok found) =
      Ok {| processed_count := S (processed_count st);
            new_entries := new_entries st ++
              match found with
              | Some url =>
                  if str_truthy url && negb (is_duplicate db url)
                  then [result_obj q url] else []
              | None => []
              end;
            duplicates_found := duplicates_found st ++ dups |}
    ∧ Forall (λ d : string * entry, d.1 = q ∧ d.2 ∈ db) dups.
Proof.
  intros Hdb Hparse Hfound. unfold main_query. cbn [mbind result_bind].
  destruct found as [url|]; [|exists []; by rewrite !app_nil_r].
  destruct (str_truthy url) eqn:Hurl; [|exists []; by rewrite !app_nil_r].
  rewrite check_duplicate_spec, is_duplicate_find by eauto.
  cbn [mbind result_bind andb].
  destruct (extract_video_id url) as [[id|]|]; [|by exists []; rewrite app_nil_r..].
  destruct (str_truthy id); [|by exists []; rewrite app_nil_r].
  destruct (List.find (has_video_id id) db) as [e|] eqn:Hfind.
  - rewrite bool_decide_true by by eexists.
    apply find_has_video_id in Hfind as (Hin & u & Hu & _).
    pose proof (proj1 (Forall_forall _ _) Hdb e Hin) as [_ [t Ht]].
    assert (dict_truthy e = true) as ->.
    { unfold dict_truthy. rewrite bool_decide_false; [done|].
      intros ->. by rewrite lookup_empty in Hu. }
    rewrite Ht, Hu. exists [(q, e)]. rewrite app_nil_r.
    split; [done|]. by apply Forall_singleton.
  - rewrite bool_decide_false by by intros [? ?].
    by exists []; rewrite app_nil_r.
Qed.

Lemma main_loop_ok (driver : nat → string → result (option string))
    (db : store) (idx : nat) (queries : list string) (st : run) :
  driver_ok driver → results_parse driver → store_ok db → urls_parse db →
  ∃ dups,
    main_loop driver db idx queries st =
      Ok {| processed_count := (processed_count st + length queries)%nat;
            new_entries :=
              new_entries st ++ appended_entries driver db idx queries;
            duplicates_found := duplicates_found st ++ dups |}
    ∧ Forall (λ d : string * entry, d.1 ∈ queries ∧ d.2 ∈ db) dups.
Proof.
  intros Hdrv Hres Hdb Hparse. revert idx st.
  induction queries as [|q queries IH]; intros idx st.
  { exists []. rewrite !app_nil_r, Nat.add_0_r. by destruct st. }
  cbn [main_loop appended_entries].
  destruct (Hdrv idx ("song: " +:+ q)) as [found Hfound]. rewrite Hfound.
  destruct (main_query_ok db st q found Hdb Hparse) as (dups1 & -> & Hdups1).
  { intros url ->. by eapply Hres. }
  cbn [mbind result_bind].
  edestruct IH as (dups2 & -> & Hdups2). exists (dups1 ++ dups2).
  cbn [processed_count new_entries duplicates_found length].
  split.
  - f_equal. rewrite <- !app_assoc. f_equal. lia.
  - apply Forall_app. split.
    + eapply Forall_impl; [done|]. intros d [-> ?]. split; [left|done].
    + eapply Forall_impl; [done|]. intros d [? ?]. split; [by right|done].
Qed.

(** What a completed call of [check_duplicate] returned. *)
Lemma check_duplicate_loop_Ok (id : string) (db : store) (r : option entry) :
  check_duplicate_loop id db = Ok r → r = List.find (has_video_id id) db.
Proof.
  induction db as [|e db IH]; [by intros [= <-]|].
  cbn [check_duplicate_loop List.find].
  destruct (e !! "url") as [[|[]|u]|] eqn:Hu;
    cbn [extract_video_id_dyn mbind result_bind]; try done.
  - unfold has_video_id at 1. rewrite Hu. exact IH.
  - unfold has_video_id at 1. rewrite Hu. exact IH.
  - destruct (extract_video_id u) as [r'|] eqn:Hr; [|done].
    cbn [mbind result_bind]. rewrite (has_video_id_str id u e r' Hu Hr).
    case_bool_decide; [by intros [= <-]|exact IH].
Qed.

Lemma check_duplicate_Ok (url : string) (db : store) (r : option entry) :
  check_duplicate url db = Ok r →
  is_Ok (extract_video_id url)
  ∧ r = match extract_video_id url with
        | Ok (Some id) => if str_truthy id then List.find (has_video_id id) db else None
        | _ => None
        end.
Proof.
  unfold check_duplicate.
  destruct (extract_video_id url) as [[id|]|]; cbn [mbind result_bind];
    [|by intros [= <-]; split; [eexists|]|done].
  intros Hloop. split; [by eexists|].
  destruct (str_truthy id); [|by injection Hloop as <-].
  by apply check_duplicate_loop_Ok.
Qed.

(** What a completed iteration of the loop of [main] did. *)
Lemma main_query_Ok (db : store) (st st' : run) (q : string)
    (found : result (option string)) :
  main_query db st q found = Ok st' →
  ∃ url dups,
    found = Ok url
    ∧ st' = {| processed_count := S (processed_count st);
               new_entries := new_entries st ++
                 match url with
                 | Some url =>
                     if str_truthy url && negb (is_duplicate db url)
                     then [result_obj q url] else []
                 | None => []
                 end;
               duplicates_found := duplicates_found st ++ dups |}
    ∧ Forall (λ d : string * entry, d.1 = q ∧ d.2 ∈ db) dups.
Proof.
  unfold main_query. destruct found as [url|]; [|done].
  cbn [mbind result_bind]. intros Hstep. exists url.
  destruct url as [url|]; [|exists []; rewrite !app_nil_r; by injection Hstep as <-].
  destruct (str_truthy url) eqn:Hurl;
    [|exists []; rewrite !app_nil_r; by injection Hstep as <-].
  destruct (check_duplicate url db) as [r|] eqn:Hdup; [|done].
  apply check_duplicate_Ok in Hdup as [_ Hdup]. cbn [mbind result_bind andb] in *.
  rewrite is_duplicate_find.
  destruct (extract_video_id url) as [[id|]|];
    [|subst r; exists []; rewrite app_nil_r; by injection Hstep as <-..].
  destruct (str_truthy id);
    [|subst r; exists []; rewrite app_nil_r; by injection Hstep as <-].
  destruct (List.find (has_video_id id) db) as [e|] eqn:Hfind; subst r.
  - rewrite bool_decide_true by by eexists.
    apply find_has_video_id in Hfind as (Hin & u & Hu & _).
    assert (dict_truthy e = true) as Htruthy.
    { unfold dict_truthy. rewrite bool_decide_false; [done|].
      intros ->. by rewrite lookup_empty in Hu. }
    rewrite Htruthy, Hu in Hstep.
    destruct (e !! "title"); [|done]. cbn [mbind result_bind] in Hstep.
    exists [(q, e)]. rewrite app_nil_r. split; [done|].
    split; [by injection Hstep as <-|]. by apply Forall_singleton.
  - rewrite bool_decide_false by by intros [? ?].
    exists []. rewrite app_nil_r. by injection Hstep as <-.
Qed.

Lemma main_loop_Ok (driver : nat → string → result (option string))
    (db : store) (idx : nat) (queries : list string) (st st' : run) :
  main_loop driver db idx queries st = Ok st' →
  ∃ dups,
    st' = {| processed_count := (processed_count st + length queries)%nat;
             new_entries :=
               new_entries st ++ appended_entries driver db idx queries;
             duplicates_found := duplicates_found st ++ dups |}
    ∧ Forall (λ d : string * entry, d.1 ∈ queries ∧ d.2 ∈ db) dups.
Proof.
  revert idx st. induction queries as [|q queries IH]; intros idx st Hloop.
  { exists []. injection Hloop as <-.
    rewrite !app_nil_r, Nat.add_0_r. by destruct st. }
  cbn [main_loop appended_entries mbind result_bind] in *.
  destruct (main_query db st q _) as [st1|] eqn:Hstep; [|done].
  apply main_query_Ok in Hstep as (url & dups1 & -> & -> & Hdups1).
  apply IH in Hloop as (dups2 & -> & Hdups2). exists (dups1 ++ dups2).
  cbn [processed_count new_entries duplicates_found length].
  split.
  - rewrite <- !app_assoc. f_equal. lia.
  - apply Forall_app. split.
    + eapply Forall_impl; [done|]. intros d [-> ?]. split; [left|done].
    + eapply Forall_impl; [done|]. intros d [? ?]. split; [by right|done].
Qed.

(** C5, amended. On the URLs on which [urlparse] returns,
    [extract_video_id] returns an identifier exactly on the canonical watch
    URLs: the host name is one of the two, the path is [/watch] and
    [parse_qs] binds [v] in the query, that is, [v] has a value that is not
    blank. The identifier is the first value of [v] and is not empty. On
    every other URL on which [urlparse] returns, [extract_video_id] returns
    [None]. A URL without identifier is not compared with the store:
    [check_duplicate] answers [None] whatever the store holds, and the
    iteration of [main] appends it as a new entry, reporting no
    duplicate. *)
Theorem extract_video_id_rule (Hqs : parse_qs_no_blank) (youtube_url : string) :
  (canonical_watch_url youtube_url ↔
     ∃ id, extract_video_id youtube_url = Ok (Some id) ∧ id ≠ ""
           ∧ v_parameter youtube_url = Some id)
  ∧ (is_Some (urlparse youtube_url) → ¬ canonical_watch_url youtube_url →
       extract_video_id youtube_url = Ok None)
  ∧ (extract_video_id youtube_url = Ok None →
       (∀ db : store, check_duplicate youtube_url db = Ok None)
       ∧ (youtube_url ≠ "" → ∀ (db : store) (st : run) (q : string),
            main_query db st q (Ok (Some youtube_url)) =
              Ok {| processed_count := S (processed_count st);
                    new_entries := new_entries st ++ [result_obj q youtube_url];
                    duplicates_found := duplicates_found st |})).
Proof.
  assert (Hcan : canonical_watch_url youtube_url ↔
     ∃ id, extract_video_id youtube_url = Ok (Some id) ∧ id ≠ ""
           ∧ v_parameter youtube_url = Some id).
  { unfold canonical_watch_url. split.
    - intros (p & Hparse & Hh & Hp & [vs Hvs]).
      destruct (Hqs _ _ _ Hvs) as [Hne Hall].
      destruct vs as [|id vs]; [done|]. exists id.
      apply Forall_cons in Hall as [Hid _].
      assert (v_parameter youtube_url = Some id) as Hv
        by (unfold v_parameter; rewrite Hparse; simpl; by rewrite Hvs).
      split_and!; [|done..]. apply extract_video_id_Some.
      exists p. split_and!; [done..|]. by rewrite Hvs.
    - intros (id & Hid & _ & _).
      apply extract_video_id_Some in Hid as (p & Hparse & Hh & Hp & Hv).
      exists p. split_and!; [done..|].
      destruct (parse_qs _ !! "v"); [by eexists|done]. }
  split; [exact Hcan|]. split.
  - intros [r Hr]%extract_video_id_parses Hnot. rewrite Hr. f_equal.
    destruct r as [id|]; [|done].
    exfalso. apply Hnot, Hcan.
    pose proof Hr as (p & Hparse & Hh & Hp & Hv)%extract_video_id_Some.
    exists id. split_and!; [done| |by unfold v_parameter; rewrite Hparse].
    destruct (parse_qs _ !! "v") as [vs|] eqn:Hvs; [|done].
    destruct (Hqs _ _ _ Hvs) as [_ Hall]. destruct vs; simplify_eq/=.
    by apply Forall_cons in Hall as [? _].
  - intros Hnone. split; [intros; by apply check_duplicate_no_id|].
    intros Hurl db st q. apply str_truthy_true in Hurl.
    unfold main_query. simpl. rewrite Hurl, check_duplicate_no_id by done.
    done.
Qed.

Lemma load_save_database (data : store) (fs : fsys) :
  codec_roundtrip → load_database (save_database data fs) = data.
Proof. intros Hrt. unfold load_database, save_database. simpl. by rewrite Hrt. Qed.

Lemma result_obj_fields (q url : string) :
  result_obj q url !! "title" = Some (JStr q)
  ∧ result_obj q url !! "url" = Some (JStr url)
  ∧ result_obj q url !! "done" = Some (JBool false)
  ∧ result_obj q url !! "download_path" = Some (JStr "")
  ∧ result_obj q url !! "project" = Some (JStr "").
Proof. unfold result_obj. split_and!; by simplify_map_eq. Qed.

Lemma appended_entries_shape (driver : nat → string → result (option string))
    (db : store) (idx : nat) (queries : list string) (e : entry) :
  e ∈ appended_entries driver db idx queries →
  ∃ i q url, queries !! i = Some q
    ∧ driver (idx + i)%nat ("song: " +:+ q) = Ok (Some url)
    ∧ is_duplicate db url = false
    ∧ e = result_obj q url.
Proof.
  revert idx. induction queries as [|q queries IH]; intros idx; simpl.
  { by intros ?%elem_of_nil. }
  intros [Hin|Hin]%elem_of_app.
  - exists 0%nat, q. rewrite Nat.add_0_r.
    destruct (driver idx ("song: " +:+ q)) as [[url|]|];
      try by apply elem_of_nil in Hin.
    destruct (str_truthy url); simpl in Hin; [|by apply elem_of_nil in Hin].
    destruct (is_duplicate db url) eqn:Hdup; simpl in Hin;
      [by apply elem_of_nil in Hin|].
    apply list_elem_of_singleton in Hin. by exists url.
  - destruct (IH _ Hin) as (i & q' & url & Hq & Hd & Hdup & He).
    exists (S i), q', url. by rewrite Nat.add_succ_r.
Qed.

(** What does hold of duplicates: a result URL whose identifier is the one
    of an entry of the store that [main] loaded is reported as a duplicate
    of the first such entry, and no record is added for it. *)
Lemma duplicate_of_loaded_entry (db : store) (st : run) (q u1 u2 id : string)
    (e1 : entry) :
  store_ok db → urls_parse db → e1 ∈ db → e1 !! "url" = Some (JStr u1) →
  extract_video_id u1 = Ok (Some id) → extract_video_id u2 = Ok (Some id) →
  id ≠ "" → u2 ≠ "" →
  ∃ e, List.find (has_video_id id) db = Some e
    ∧ check_duplicate u2 db = Ok (Some e)
    ∧ main_query db st q (Ok (Some u2)) =
        Ok {| processed_count := S (processed_count st);
              new_entries := new_entries st;
              duplicates_found := duplicates_found st ++ [(q, e)] |}.
Proof.
  intros Hdb Hparse Hin Hu1 Hid1 Hid2 Hid Hu2.
  apply str_truthy_true in Hid, Hu2.
  destruct (List.find (has_video_id id) db) as [e|] eqn:Hfind.
  - exists e. split; [done|].
    assert (check_duplicate u2 db = Ok (Some e)) as Hdup.
    { rewrite check_duplicate_spec, Hid2, Hid, Hfind; [done..|].
      apply extract_video_id_parses. by eexists. }
    split; [done|]. unfold main_query. cbn [mbind result_bind].
    rewrite Hu2, Hdup. cbn [mbind result_bind].
    apply find_has_video_id in Hfind as (Hine & u & Hu & _).
    pose proof (proj1 (Forall_forall _ _) Hdb e Hine) as [_ [t Ht]].
    assert (dict_truthy e = true) as ->.
    { unfold dict_truthy. rewrite bool_decide_false; [done|].
      intros ->. by rewrite lookup_empty in Hu. }
    by rewrite Ht, Hu.
  - exfalso. apply list_elem_of_In in Hin.
    pose proof (find_none _ _ Hfind e1 Hin) as Hno.
    unfold has_video_id in Hno. rewrite Hu1 in Hno.
    by rewrite bool_decide_true in Hno.
Qed.

Lemma has_video_id_result_obj (id q url : string) :
  has_video_id id (result_obj q url)
  = bool_decide (extract_video_id url = Ok (Some id)).
Proof.
  unfold has_video_id. by destruct (result_obj_fields q url) as (_ & -> & _).
Qed.

Lemma is_duplicate_app (db acc : store) (url : string) :
  is_duplicate (db ++ acc) url =
    is_duplicate db url
    || match extract_video_id url with
       | Ok (Some id) => str_truthy id && existsb (has_video_id id) acc
       | _ => false
       end.
Proof.
  unfold is_duplicate.
  destruct (extract_video_id url) as [[id|]|]; [|done..].
  rewrite existsb_app. by destruct (str_truthy id), (existsb _ db).
Qed.

(** When the identifiers of the new results of a run are pairwise
    distinct, comparing with the list loaded before the loop and comparing
    with the existing records, those of the run included, select the same
    records. *)
Lemma appended_entries_expected
    (driver : nat → string → result (option string)) (db acc : store)
    (idx : nat) (queries : list string) :
  NoDup (new_identifiers driver db idx queries) →
  (∀ e id, e ∈ acc → has_video_id id e = true → str_truthy id = true →
     id ∉ new_identifiers driver db idx queries) →
  appended_entries driver db idx queries
  = expected_new_entries driver (db ++ acc) idx queries.
Proof.
  revert idx acc. induction queries as [|q queries IH]; intros idx acc Hnodup Hacc.
  { done. }
  cbn [appended_entries expected_new_entries new_identifiers] in *.
  destruct (driver idx ("song: " +:+ q)) as [[url|]|]; cbn [app] in *;
    [|by apply IH..].
  destruct (str_truthy url) eqn:Hurl; cbn [andb app] in *; [|by apply IH].
  rewrite is_duplicate_app.
  destruct (is_duplicate db url) eqn:Hdup; cbn [negb orb app] in *; [by apply IH|].
  destruct (extract_video_id url) as [[id|]|ex] eqn:Hid.
  - destruct (str_truthy id) eqn:Htruthy; cbn [andb app] in *.
    + apply NoDup_cons in Hnodup as [Hfresh Hnodup].
      assert (existsb (has_video_id id) acc = false) as ->.
      { apply not_true_is_false. intros (e & He & Hhas)%existsb_exists.
        apply list_elem_of_In in He.
        apply (Hacc e id He Hhas Htruthy). left. }
      cbn [negb]. f_equal. rewrite <- app_assoc. apply IH; [done|].
      intros e id' [He|He]%elem_of_app Hhas Hid'.
      * intros Hin. apply (Hacc e id' He Hhas Hid'). by right.
      * apply list_elem_of_singleton in He as ->.
        rewrite has_video_id_result_obj, Hid in Hhas.
        apply bool_decide_eq_true in Hhas. by injection Hhas as <-.
    + cbn [negb]. f_equal. rewrite <- app_assoc. apply IH; [done|].
      intros e id' [He|He]%elem_of_app Hhas Hid'; [by eapply Hacc|].
      apply list_elem_of_singleton in He as ->.
      rewrite has_video_id_result_obj, Hid in Hhas.
      apply bool_decide_eq_true in Hhas. congruence.
  - cbn [negb app] in *. f_equal. rewrite <- app_assoc. apply IH; [done|].
    intros e id' [He|He]%elem_of_app Hhas Hid'; [by eapply Hacc|].
    apply list_elem_of_singleton in He as ->.
    rewrite has_video_id_result_obj, Hid in Hhas.
    by apply bool_decide_eq_true in Hhas.
  - cbn [negb app] in *. f_equal. rewrite <- app_assoc. apply IH; [done|].
    intros e id' [He|He]%elem_of_app Hhas Hid'; [by eapply Hacc|].
    apply list_elem_of_singleton in He as ->.
    rewrite has_video_id_result_obj, Hid in Hhas.
    by apply bool_decide_eq_true in Hhas.
Qed.

(** A run completes when it has a query, no search raises, the records of
    the store have url and title, and [urlparse] returns on the urls of the
    results and of the records. *)
Lemma main_complete (driver : nat → string → result (option string))
    (queries : list string) (fs : fsys) :
  queries ≠ [] → driver_ok driver → results_parse driver →
  store_ok (load_database fs) → urls_parse (load_database fs) →
  is_Ok (main driver queries fs).
Proof.
  intros Hq Hdrv Hres Hdb Hparse. unfold main.
  destruct queries as [|q queries]; [done|].
  destruct (main_loop_ok driver (load_database fs) 1 (q :: queries) run0
              Hdrv Hres Hdb Hparse) as (dups & -> & _).
  cbn [mbind result_bind new_entries]. destruct (_ ++ _); by eexists.
Qed.

(** C7, amended. After a discovery run that completes and whose new
    results have pairwise distinct identifiers, the store holds the records
    it held, unchanged and in their order, followed by one new record per
    query that yielded a result URL which is not a duplicate, in the order
    of the queries; a new record has the query as title, the result URL as
    url, done false, and an empty download_path and project. The store file
    is written at most once, after all the queries: once when there is a
    new record, not at all when there is none, and then the file is left as
    it was. *)
Theorem discovery_batch_append (driver : nat → string → result (option string))
    (queries : list string) (fs fs' : fsys) (st : run) :
  codec_roundtrip →
  main driver queries fs = Ok (fs', st) →
  NoDup (new_identifiers driver (load_database fs) 1 queries) →
  new_entries st = expected_new_entries driver (load_database fs) 1 queries
  ∧ load_database fs' = load_database fs ++ new_entries st
  ∧ Forall (λ e : entry, ∃ q url, q ∈ queries
       ∧ e !! "title" = Some (JStr q) ∧ e !! "url" = Some (JStr url)
       ∧ e !! "done" = Some (JBool false)
       ∧ e !! "download_path" = Some (JStr "")
       ∧ e !! "project" = Some (JStr "")) (new_entries st)
  ∧ (new_entries st ≠ [] →
       write_log fs' =
         write_log fs ++ [json_dump (load_database fs ++ new_entries st)])
  ∧ (new_entries st = [] → fs' = fs).
Proof.
  intros Hrt Hmain Hdistinct. unfold main in Hmain.
  destruct queries as [|q0 queries0] eqn:Hqs; [done|]. rewrite <- Hqs in *.
  destruct (main_loop driver (load_database fs) 1 queries run0) as [st1|] eqn:Hloop;
    [|done].
  apply main_loop_Ok in Hloop as (dups & -> & _).
  cbn [mbind result_bind new_entries run0 app] in Hmain.
  rewrite <- (app_nil_r (load_database fs)) at 1.
  rewrite <- (appended_entries_expected driver (load_database fs) [] 1 queries)
    by (done || by intros e id ?%elem_of_nil).
  set (new := appended_entries driver (load_database fs) 1 queries) in *.
  assert (Forall (λ e : entry, ∃ q url, q ∈ queries
         ∧ e !! "title" = Some (JStr q) ∧ e !! "url" = Some (JStr url)
         ∧ e !! "done" = Some (JBool false)
         ∧ e !! "download_path" = Some (JStr "")
         ∧ e !! "project" = Some (JStr "")) new) as Hshape.
  { apply Forall_forall. intros e He.
    apply appended_entries_shape in He as (i & q & url & Hi & _ & _ & ->).
    exists q, url. split; [by eapply list_elem_of_lookup_2|].
    apply result_obj_fields. }
  destruct new as [|e new'] eqn:Hnew; injection Hmain as <- <-;
    cbn [new_entries].
  - split_and!; [done|by rewrite app_nil_r|done|done|done].
  - split_and!; [done|by rewrite load_save_database|done|done|done].
Qed.

End discovery.

(** C5, as stated, fails. The query of this watch URL has a [v] parameter,
    with a blank value, and [extract_video_id] returns no identifier. And
    on a host with an unbalanced bracket [extract_video_id] does not return
    [None]: the [ValueError] of [urlparse] goes through. *)
Lemma blank_v_parameter_has_no_identifier :
  ∃ parsed_url,
    @urlparse py_urllib "https://www.youtube.com/watch?v=" = Some parsed_url
    ∧ hostname parsed_url = Some "www.youtube.com"
    ∧ path parsed_url = "/watch"
    ∧ parameter_present "v" (query parsed_url)
    ∧ @update_db_from_txt.extract_video_id py_urllib
        "https://www.youtube.com/watch?v=" = Ok None
    ∧ @update_db_from_txt.extract_video_id py_urllib
        "https://[www.youtube.com/watch?v=abc123" = Raise ValueError.
Proof.
  eexists. split; [vm_compute; reflexivity|]. cbn [hostname path query].
  split_and!; [done|done| |reflexivity..].
  exists "v=". split; [by left|by right].
Qed.

(** C7, as stated, fails: a run whose only query has no result leaves the
    missing store file missing and writes nothing, where the claim has the
    store persisted once. *)
Lemma discovery_without_new_entry_writes_nothing :
  ∃ st, @update_db_from_txt.main py_json py_urllib
          (λ _ _, Ok None) ["Song A"] no_file = Ok (no_file, st)
    ∧ ¬ persisted_once no_file no_file.
Proof.
  eexists. split; [reflexivity|].
  intros [text Htext]. simpl in Htext. discriminate.
Qed.

(** Witness of C7: one query, one result, on a missing store file. *)
Lemma discovery_batch_append_witness :
  let driver := λ (_ : nat) (_ : string), Ok (Some sample_url_1) in
  ∃ fs' st,
    @update_db_from_txt.main py_json py_urllib driver ["Song A"] no_file
      = Ok (fs', st)
    ∧ update_db_from_txt.new_entries st = [pending_a]
    ∧ @update_db_from_txt.load_database py_json fs' = [pending_a]
    ∧ write_log fs' = [@json_dump py_json [pending_a]].
Proof.
  intros driver.
  destruct (@main_complete py_json py_urllib driver ["Song A"] no_file)
    as [[fs' st] Hmain].
  - discriminate.
  - intros idx q. by eexists.
  - intros idx q url [= <-]. eexists. vm_compute. reflexivity.
  - apply Forall_nil_2.
  - apply Forall_nil_2.
  - destruct (@discovery_batch_append py_json py_urllib driver ["Song A"]
                no_file fs' st py_json_roundtrip Hmain)
      as (Hnew & Hload & _ & Hlog & _).
    { vm_compute. apply NoDup_singleton. }
    assert (update_db_from_txt.new_entries st = [pending_a]) as Hst
      by (rewrite Hnew; reflexivity).
    exists fs', st. rewrite Hst in *.
    split; [exact Hmain|]. split; [reflexivity|]. split; [exact Hload|].
    apply Hlog. discriminate.
Defined.

(** C1 (defect of the code). Two queries of one run whose result URLs have
    the same identifier, on an empty store: both are inserted as new
    records and no duplicate is reported, because [main] compares a result
    only with the records loaded at the start of the run; the list of the
    specification has the first record only. *)
Theorem in_batch_duplicate_inserted :
  let driver := λ (idx : nat) (_ : string),
    Ok (Some (if Nat.eqb idx 1 then sample_url_1 else sample_url_2)) in
  let queries := ["Song A"; "Song A live"] in
  @update_db_from_txt.extract_video_id py_urllib sample_url_1 = Ok (Some "abc123")
  ∧ @update_db_from_txt.extract_video_id py_urllib sample_url_2 = Ok (Some "abc123")
  ∧ (∃ fs',
      @update_db_from_txt.main py_json py_urllib driver queries no_file
      = Ok (fs', {| update_db_from_txt.processed_count := 2;
                    update_db_from_txt.new_entries :=
                      [update_db_from_txt.result_obj "Song A" sample_url_1;
                       update_db_from_txt.result_obj "Song A live" sample_url_2];
                    update_db_from_txt.duplicates_found := [] |})
      ∧ @update_db_from_txt.load_database py_json fs' =
          [update_db_from_txt.result_obj "Song A" sample_url_1;
           update_db_from_txt.result_obj "Song A live" sample_url_2])
  ∧ @expected_new_entries py_urllib driver [] 1 queries
    = [update_db_from_txt.result_obj "Song A" sample_url_1].
Proof.
  intros driver queries. split; [reflexivity|]. split; [reflexivity|]. split.
  - eexists. split; [reflexivity|].
    apply (@load_save_database py_json). exact py_json_roundtrip.
  - reflexivity.
Qed.

(** ** The record store *)

Section store.
Context `{JsonCodec}.

(** C8. [load_database] does not raise (its result is a store, not a
    [result]): on a missing store file, and on a store file whose text does
    not parse, it returns the empty list; on a store file that parses it
    returns the parsed list of records. The two copies of the function, in
    [conversion.py] and in [update_db_from_txt.py], agree. *)
Theorem load_database_failure_mode (fs : fsys) :
  (db_file fs = None → conversion.load_database fs = [])
  ∧ (∀ text, db_file fs = Some text → json_load text = None →
       conversion.load_database fs = [])
  ∧ (∀ text data, db_file fs = Some text → json_load text = Some data →
       conversion.load_database fs = data)
  ∧ update_db_from_txt.load_database fs = conversion.load_database fs.
Proof.
  unfold conversion.load_database, update_db_from_txt.load_database.
  split_and!; [by intros ->|by intros text -> ->|by intros text data -> ->|done].
Qed.

Lemma conversion_load_save (data : store) (fs : fsys) :
  codec_roundtrip →
  conversion.load_database (conversion.save_database data fs) = data.
Proof.
  intros Hrt. unfold conversion.load_database, conversion.save_database.
  simpl. by rewrite Hrt.
Qed.

(** C9. A well-formed store file, loaded and saved at once, holds the same
    store: the text written loads as the list of records that was loaded,
    with the same records in the same order and every field of each; and a
    store file that [save_database] wrote is rewritten byte for byte. *)
Theorem store_roundtrip (fs : fsys) (text : string) (data : store) :
  codec_roundtrip →
  db_file fs = Some text → json_load text = Some data →
  let fs' := update_db_from_txt.save_database (conversion.load_database fs) fs in
  conversion.load_database fs' = data
  ∧ conversion.load_database fs' = conversion.load_database fs
  ∧ (∃ text', db_file fs' = Some text' ∧ json_load text' = Some data)
  ∧ (∀ data0, text = json_dump data0 → db_file fs' = db_file fs).
Proof.
  intros Hrt Hfile Hload fs'.
  assert (conversion.load_database fs = data) as Hdata
    by (unfold conversion.load_database; by rewrite Hfile, Hload).
  assert (conversion.load_database fs' = data) as Hdata'.
  { unfold fs'. rewrite Hdata. by apply conversion_load_save. }
  split_and!; [done|congruence| |].
  - exists (json_dump data). unfold fs'. rewrite Hdata. simpl. by rewrite Hrt.
  - intros data0 ->. unfold fs'. rewrite Hdata, Hfile. simpl.
    rewrite Hrt in Hload. by injection Hload as ->.
Qed.

End store.

(** ** Conversion: the status update of the store *)

Section upsert.
Import conversion.
Context `{JsonCodec}.

Lemma update_first_no_match (url : jval) (dp : string) (ds : jval) (db : store) :
  no_url_match url db → update_first url dp ds db = Ok db.
Proof.
  induction 1 as [|e db (u & Hu & Hne) _ IH]; [done|].
  cbn [update_first]. rewrite Hu, bool_decide_false by done.
  by rewrite IH.
Qed.

Lemma update_first_match (url : jval) (dp : string) (ds : jval)
    (pre post : store) (e : entry) :
  no_url_match url pre → e !! "url" = Some url →
  update_first url dp ds (pre ++ e :: post)
  = Ok (pre ++ updated_entry dp ds e :: post).
Proof.
  intros Hpre He. induction Hpre as [|x pre (u & Hu & Hne) _ IH].
  - cbn [app update_first]. rewrite He, bool_decide_true by done. done.
  - cbn [app update_first]. rewrite Hu, bool_decide_false by done.
    by rewrite IH.
Qed.

(** The three ways the loop of [update_database_entry] ends: no entry
    matches; a first entry matches; an entry without url comes before any
    match. *)
Lemma update_first_cases (url : jval) (db : store) :
  no_url_match url db
  ∨ (∃ pre e post, db = pre ++ e :: post ∧ no_url_match url pre
       ∧ e !! "url" = Some url)
  ∨ (∃ pre e post, db = pre ++ e :: post ∧ no_url_match url pre
       ∧ e !! "url" = None).
Proof.
  induction db as [|x db IH]; [left; constructor|].
  destruct (x !! "url") as [u|] eqn:Hu.
  - destruct (decide (u = url)) as [->|Hne].
    + right; left. exists [], x, db. split_and!; [done|constructor|done].
    + destruct IH as [Hno|[(pre & e & post & -> & Hpre & He)
                          |(pre & e & post & -> & Hpre & He)]].
      * left. constructor; eauto.
      * right; left. exists (x :: pre), e, post.
        split_and!; [done|constructor; eauto|done].
      * right; right. exists (x :: pre), e, post.
        split_and!; [done|constructor; eauto|done].
  - right; right. exists [], x, db. split_and!; [done|constructor|done].
Qed.

Lemma update_first_raise (url : jval) (dp : string) (ds : jval)
    (pre post : store) (e : entry) :
  no_url_match url pre → e !! "url" = None →
  update_first url dp ds (pre ++ e :: post) = Raise (KeyError "url").
Proof.
  intros Hpre He. induction Hpre as [|x pre (u & Hu & Hne) _ IH].
  - cbn [app update_first]. by rewrite He.
  - cbn [app update_first]. rewrite Hu, bool_decide_false by done.
    by rewrite IH.
Qed.



Lemma no_url_match_lookup (url : jval) (db : store) (j : nat) (e : entry) :
  no_url_match url db → db !! j = Some e → e !! "url" ≠ Some url.
Proof.
  intros Hno Hj. pose proof (proj1 (Forall_lookup _ _) Hno j e Hj)
    as (u & Hu & Hne). congruence.
Qed.

Lemma updated_entry_fields (dp : string) (ds : jval) (e : entry) :
  updated_entry dp ds e !! "done" = Some ds
  ∧ (dp ≠ "" → updated_entry dp ds e !! "download_path" = Some (JStr dp))
  ∧ (dp = "" → updated_entry dp ds e !! "download_path" = e !! "download_path")
  ∧ (∀ k, k ≠ "done" → k ≠ "download_path" → updated_entry dp ds e !! k = e !! k).
Proof.
  unfold updated_entry. cbn zeta.
  destruct (str_truthy dp) eqn:Hdp.
  - apply str_truthy_true in Hdp. split_and!; intros; by simplify_map_eq.
  - assert (dp = "") as ->.
    { destruct (decide (dp = "")) as [|Hne]; [done|].
      apply str_truthy_true in Hne. congruence. }
    split_and!; intros; by simplify_map_eq.
Qed.

(** C10. The frame of [update_database_entry]: when it returns, it has
    written one list, as long as the list it loaded, that differs from it
    at most at the position of the first entry whose url is the given url,
    and there only in the field done, which is the given status, and, when
    the given path is not empty, in the field download_path, which is the
    given path; when no url matches, the list written is the list loaded.
    When it raises (an entry without url comes before any match), nothing
    is written. *)
Theorem update_database_entry_frame (url : jval) (download_path : string)
    (done_status : jval) (fs : fsys) :
  let loaded := load_database fs in
  match update_database_entry url download_path done_status fs with
  | Ok fs' =>
      ∃ written : store,
        fs' = save_database written fs
        ∧ length written = length loaded
        ∧ (∀ pos e e', loaded !! pos = Some e → written !! pos = Some e' →
             e' ≠ e →
             first_url_match url loaded pos
             ∧ e' !! "done" = Some done_status
             ∧ (download_path ≠ "" →
                  e' !! "download_path" = Some (JStr download_path))
             ∧ (download_path = "" →
                  e' !! "download_path" = e !! "download_path")
             ∧ (∀ k, k ≠ "done" → k ≠ "download_path" → e' !! k = e !! k))
        ∧ ((∀ e, e ∈ loaded → e !! "url" ≠ Some url) → written = loaded)
  | Raise ex =>
      ex = KeyError "url" ∧ ∃ e, e ∈ loaded ∧ e !! "url" = None
  end.
Proof.
  intros loaded. unfold update_database_entry. fold loaded.
  destruct (update_first_cases url loaded)
    as [Hno|[(pre & e & post & Hdb & Hpre & He)
            |(pre & e & post & Hdb & Hpre & He)]].
  - rewrite update_first_no_match by done. cbn [mbind result_bind].
    exists loaded. split_and!; [done|done| |done].
    intros pos e e' He He' Hne. congruence.
  - rewrite Hdb, update_first_match by done. cbn [mbind result_bind].
    eexists. split; [done|]. split; [by rewrite !length_app|]. split.
    + intros pos x x' Hx Hx' Hne.
      destruct (decide (pos = length pre)) as [->|Hpos].
      * rewrite list_lookup_middle in Hx, Hx' by done.
        injection Hx as <-. injection Hx' as <-. split.
        { split; [exists e; by rewrite list_lookup_middle|].
          intros j y Hj Hy. rewrite lookup_app_l in Hy by done.
          by eapply no_url_match_lookup. }
        apply updated_entry_fields.
      * exfalso. apply Hne.
        destruct (decide (pos < length pre)%nat) as [Hlt|Hge].
        { rewrite lookup_app_l in Hx, Hx' by done. congruence. }
        rewrite lookup_app_r in Hx, Hx' by lia.
        destruct (pos - length pre)%nat as [|i] eqn:Hi; [lia|].
        simpl in Hx, Hx'. congruence.
    + intros Hnone. exfalso. apply (Hnone e); [|done].
      apply elem_of_app. right. left.
  - rewrite Hdb, update_first_raise by done. cbn [mbind result_bind].
    split; [done|]. exists e. split; [|done].
    apply elem_of_app. right. left.
Qed.

(** C6, amended. Every call of [update_database_entry] loads the store
    file afresh and goes through the records in their order, comparing the
    url field of each with the given url (equality of the values, no
    identifier is extracted), and ends in one of three ways. No record
    matches, and every record has a url: the list that was loaded is
    written back. A first record matches, and the records before it have a
    url: it is replaced in place by the record with the new status and,
    when the given path is not empty, the new path, and the whole list is
    written back. A record without url comes before any match: the call
    raises [KeyError] and writes nothing. *)
Theorem update_database_entry_matches_url (url : jval) (download_path : string)
    (done_status : jval) (fs : fsys) :
  let loaded := load_database fs in
  let call := update_database_entry url download_path done_status fs in
  (no_url_match url loaded ∧ call = Ok (save_database loaded fs))
  ∨ (∃ pre e post, loaded = pre ++ e :: post ∧ no_url_match url pre
       ∧ e !! "url" = Some url
       ∧ call = Ok (save_database
                      (pre ++ updated_entry download_path done_status e :: post) fs))
  ∨ (∃ pre e post, loaded = pre ++ e :: post ∧ no_url_match url pre
       ∧ e !! "url" = None
       ∧ call = Raise (KeyError "url")).
Proof.
  intros loaded call. unfold call, update_database_entry. fold loaded.
  destruct (update_first_cases url loaded)
    as [Hno|[(pre & e & post & Hdb & Hpre & He)
            |(pre & e & post & Hdb & Hpre & He)]].
  - left. split; [done|]. by rewrite update_first_no_match.
  - right; left. exists pre, e, post. split_and!; [done..|].
    by rewrite Hdb, update_first_match.
  - right; right. exists pre, e, post. split_and!; [done..|].
    by rewrite Hdb, update_first_raise.
Qed.

End upsert.

(** ** Conversion: the loop of [process_file] *)

Section run.
Import conversion.
Context `{JsonCodec}.
Variable TQDM_AVAILABLE : bool.
Variable download_dir : string.
Variable browser : nat → outcome.

Abbreviation process_entry := (process_entry TQDM_AVAILABLE download_dir browser).
Abbreviation process_entries := (process_entries TQDM_AVAILABLE download_dir browser).
Abbreviation process_file := (process_file TQDM_AVAILABLE download_dir browser).

(** Case analysis along the branches of [process_entry]. *)
Ltac branches Hstep :=
  repeat match type of Hstep with
  | context [match ?x with _ => _ end] =>
      let E := fresh "E" in destruct x eqn:E
  | context [if ?b then _ else _] =>
      let E := fresh "E" in destruct b eqn:E
  end.

Lemma not_done_false (item : entry) :
  not_done item = false ↔ default (JBool false) (item !! "done") = JBool true.
Proof.
  unfold not_done. rewrite negb_false_iff. apply bool_decide_eq_true.
Qed.

Lemma not_done_of_done (item : entry) :
  item !! "done" = Some (JBool true) → not_done item = false.
Proof. intros Hd. apply not_done_false. by rewrite Hd. Qed.

Lemma process_entry_out_of_range (st : state) (pos : nat) :
  data st !! pos = None → process_entry st pos = Ok st.
Proof. intros Hpos. unfold conversion.process_entry. by rewrite Hpos. Qed.

Lemma process_entry_done (st : state) (pos : nat) (item : entry) :
  data st !! pos = Some item → not_done item = false →
  process_entry st pos =
    Ok {| fs := fs st; data := data st;
          processed_count := processed_count st;
          successful_downloads := successful_downloads st;
          log := log st ++ [AlreadyDone pos] |}.
Proof.
  intros Hpos Hdone%not_done_false. unfold conversion.process_entry.
  rewrite Hpos. cbn zeta. by rewrite bool_decide_true.
Qed.

(** What one iteration does with an entry that is not done. *)
Lemma process_entry_selected (st st' : state) (pos : nat) (item : entry) :
  data st !! pos = Some item → not_done item = true →
  process_entry st pos = Ok st' →
  log st' = log st ++ [Processing pos]
  ∧ (processed_count st' ≤ S (processed_count st))%nat
  ∧ (∃ item', data st' = <[pos := item']> (data st)
       ∧ (∀ k, k ≠ "done" → k ≠ "download_path" → item' !! k = item !! k)
       ∧ match browser pos with
         | BrowserError => item' = <["done" := JStr "timeout"]> item
         | DownloadTimeout => item' = <["done" := JStr "timeout"]> item
         | InputNotFound | ConvertNotFound => item' = item
         | Downloaded => True
         end)
  ∧ (fs st' = fs st ∨ ∃ fs1, fs st' = save_database (data st') fs1)
  ∧ (browser pos = BrowserError → fs st' = fs st).
Proof.
  intros Hpos Hnd Hstep. unfold conversion.process_entry in Hstep.
  rewrite Hpos in Hstep. cbn zeta in Hstep.
  unfold not_done in Hnd. apply negb_true_iff in Hnd. rewrite Hnd in Hstep.
  cbn [mbind result_bind] in Hstep.
  branches Hstep; simplify_eq/=.
  all: split; [done|]; split; [lia|].
  all: split; [|split; [eauto|done]].
  all: unfold on_exception, set_item; cbn [data].
  all: try (eexists; split; [done|]; split; [|done];
            intros; by simplify_map_eq).
  all: try (exists item; split; [by rewrite list_insert_id|]; done).
  all: try (eexists; split; [done|]; split; [|by rewrite insert_insert_eq];
            intros; by simplify_map_eq).
Qed.

Lemma process_entry_data (st st' : state) (pos : nat) :
  process_entry st pos = Ok st' →
  length (data st') = length (data st)
  ∧ ∀ j, j ≠ pos → data st' !! j = data st !! j.
Proof.
  intros Hstep. destruct (data st !! pos) as [item|] eqn:Hpos.
  - destruct (not_done item) eqn:Hnd.
    + destruct (process_entry_selected _ _ _ _ Hpos Hnd Hstep)
        as (_ & _ & (item' & -> & _) & _).
      split; [by rewrite length_insert|].
      intros j Hj. by rewrite list_lookup_insert_ne.
    + rewrite (process_entry_done _ _ _ Hpos Hnd) in Hstep.
      by injection Hstep as <-.
  - rewrite process_entry_out_of_range in Hstep by done.
    by injection Hstep as <-.
Qed.

Lemma process_entry_log (st st' : state) (pos : nat) :
  process_entry st pos = Ok st' →
  log st' = log st ++ event_of (data st) pos
  ∧ (processed_count st'
       + length (filter (λ ev, is_processing ev = true) (log st))
     ≤ processed_count st
       + length (filter (λ ev, is_processing ev = true) (log st')))%nat.
Proof.
  intros Hstep. unfold event_of.
  destruct (data st !! pos) as [item|] eqn:Hpos.
  - destruct (not_done item) eqn:Hnd.
    + destruct (process_entry_selected _ _ _ _ Hpos Hnd Hstep)
        as (-> & Hcount & _).
      split; [done|]. rewrite filter_app, length_app. simpl. lia.
    + rewrite (process_entry_done _ _ _ Hpos Hnd) in Hstep.
      injection Hstep as <-. simpl. split; [done|].
      rewrite filter_app, length_app. simpl. lia.
  - rewrite process_entry_out_of_range in Hstep by done.
    injection Hstep as <-. by rewrite app_nil_r.
Qed.

Lemma process_entries_cons (pos : nat) (positions : list nat) (st st' : state) :
  process_entries (pos :: positions) st = Ok st' →
  ∃ st1, process_entry st pos = Ok st1 ∧ process_entries positions st1 = Ok st'.
Proof.
  cbn [conversion.process_entries mbind result_bind].
  destruct (process_entry st pos) as [st1|]; [|done]. by exists st1.
Qed.

(** The loop changes no entry outside the positions it visits. *)
Lemma process_entries_other (positions : list nat) (st st' : state) :
  process_entries positions st = Ok st' →
  length (data st') = length (data st)
  ∧ ∀ j, j ∉ positions → data st' !! j = data st !! j.
Proof.
  revert st. induction positions as [|pos positions IH]; intros st Hrun.
  { by injection Hrun as <-. }
  apply process_entries_cons in Hrun as (st1 & Hstep & Hrun).
  destruct (process_entry_data _ _ _ Hstep) as [Hlen1 Hother1].
  destruct (IH _ Hrun) as [Hlen Hother].
  split; [congruence|]. intros j [Hj1 Hj2]%not_elem_of_cons.
  by rewrite Hother, Hother1.
Qed.

(** The loop logs one line per position, in order, and counts no more
    entries than it logs as processed. *)
Lemma process_entries_log (positions : list nat) (st st' : state) :
  NoDup positions →
  process_entries positions st = Ok st' →
  log st' = log st ++ flat_map (event_of (data st)) positions
  ∧ (processed_count st'
       + length (filter (λ ev, is_processing ev = true) (log st))
     ≤ processed_count st
       + length (filter (λ ev, is_processing ev = true) (log st')))%nat.
Proof.
  intros Hnodup. revert st.
  induction Hnodup as [|pos positions Hpos _ IH]; intros st Hrun.
  { injection Hrun as <-. simpl. by rewrite app_nil_r. }
  apply process_entries_cons in Hrun as (st1 & Hstep & Hrun).
  destruct (process_entry_log _ _ _ Hstep) as [Hlog1 Hcount1].
  destruct (process_entry_data _ _ _ Hstep) as [_ Hother1].
  destruct (IH _ Hrun) as [Hlog Hcount].
  split; [|lia]. rewrite Hlog, Hlog1, <- app_assoc. f_equal. simpl. f_equal.
  clear -Hother1 Hpos. induction positions as [|q positions IHq]; [done|].
  apply not_elem_of_cons in Hpos as [Hq Hpos].
  simpl. rewrite IHq by done. f_equal.
  unfold event_of. by rewrite Hother1.
Qed.

(** An entry that is done when the loop reaches the positions stays as it
    is and is not logged as processed. *)
Lemma process_entries_done (positions : list nat) (st st' : state)
    (pos : nat) (item : entry) :
  process_entries positions st = Ok st' →
  data st !! pos = Some item → not_done item = false →
  data st' !! pos = Some item
  ∧ (Processing pos ∉ log st → Processing pos ∉ log st').
Proof.
  revert st. induction positions as [|p positions IH]; intros st Hrun Hpos Hnd.
  { by injection Hrun as <-. }
  apply process_entries_cons in Hrun as (st1 & Hstep & Hrun).
  destruct (process_entry_data _ _ _ Hstep) as [_ Hother1].
  destruct (process_entry_log _ _ _ Hstep) as [Hlog1 _].
  assert (data st1 !! pos = Some item) as Hpos1.
  { destruct (decide (pos = p)) as [->|Hne]; [|by rewrite Hother1].
    rewrite (process_entry_done _ _ _ Hpos Hnd) in Hstep.
    by injection Hstep as <-. }
  destruct (IH _ Hrun Hpos1 Hnd) as [Hdata Hlog]. split; [done|].
  intros Hnot. apply Hlog. rewrite Hlog1. intros [Hin|Hin]%elem_of_app; [done|].
  unfold event_of in Hin. destruct (data st !! p) as [x|] eqn:Hp;
    [|by apply elem_of_nil in Hin].
  apply list_elem_of_singleton in Hin.
  destruct (not_done x) eqn:Hx; [|done]. injection Hin as ->.
  congruence.
Qed.

(** An entry that is not done, once the loop has visited its position. *)
Lemma process_entries_selected (positions : list nat) (st st' : state)
    (pos : nat) (item : entry) :
  NoDup positions → pos ∈ positions →
  process_entries positions st = Ok st' →
  data st !! pos = Some item → not_done item = true →
  ∃ item', data st' !! pos = Some item'
    ∧ (∀ k, k ≠ "done" → k ≠ "download_path" → item' !! k = item !! k)
    ∧ match browser pos with
      | BrowserError => item' = <["done" := JStr "timeout"]> item
      | DownloadTimeout => item' = <["done" := JStr "timeout"]> item
      | InputNotFound | ConvertNotFound => item' = item
      | Downloaded => True
      end.
Proof.
  intros Hnodup. revert st.
  induction Hnodup as [|p positions Hp _ IH]; intros st Hin Hrun Hpos Hnd.
  { by apply elem_of_nil in Hin. }
  apply process_entries_cons in Hrun as (st1 & Hstep & Hrun).
  destruct (decide (pos = p)) as [->|Hne].
  - destruct (process_entry_selected _ _ _ _ Hpos Hnd Hstep)
      as (_ & _ & (item' & Hdata & Hframe & Hcase) & _).
    exists item'. split; [|done].
    destruct (process_entries_other _ _ _ Hrun) as [_ Hother].
    rewrite Hother, Hdata by done.
    apply list_lookup_insert_eq. by eapply lookup_lt_Some.
  - destruct (process_entry_data _ _ _ Hstep) as [_ Hother1].
    apply elem_of_cons in Hin as [Hin|Hin]; [done|].
    apply (IH st1); [done|done|by rewrite Hother1|done].
Qed.




(** The two ways [process_file] ends: at once, when every entry is done,
    or with the save of the data after the loop. *)
Lemma process_file_inv (fs0 : fsys) (st : state) :
  process_file fs0 = Ok st →
  let st0 := {| fs := fs0; data := load_database fs0; processed_count := 0;
                successful_downloads := 0; log := [] |} in
  (Forall (λ item, not_done item = false) (load_database fs0) ∧ st = st0)
  ∨ (∃ st1, process_entries (seq 0 (length (load_database fs0))) st0 = Ok st1
       ∧ st = final_save st1).
Proof.
  unfold conversion.process_file. cbn zeta. intros Hrun.
  case_bool_decide as Htotal.
  - left. split; [|by injection Hrun as <-].
    apply length_zero_iff_nil in Htotal. apply Forall_forall. intros x Hx.
    destruct (not_done x) eqn:Hnd; [|done].
    assert (x ∈ filter (λ item, not_done item = true) (load_database fs0)) as Hin
      by (by apply list_elem_of_filter).
    rewrite Htotal in Hin. by apply elem_of_nil in Hin.
  - right. cbn [mbind result_bind] in Hrun.
    destruct (conversion.process_entries _ _ _ _ _) as [st1|]; [|done].
    exists st1. split; [done|]. by injection Hrun as <-.
Qed.


(** C3. A selected record whose Download button does not appear within the
    budget ([wait_for_button_with_text] returns [None]) has, in the store
    that the run leaves, the status "timeout", which is not [True], and the
    download_path it had when the run loaded it: the final write of the
    record does not set it. Its other fields are unchanged as well. *)
Theorem timeout_fallback (fs0 : fsys) (st : state) (pos : nat) (item : entry) :
  codec_roundtrip →
  process_file fs0 = Ok st →
  load_database fs0 !! pos = Some item →
  not_done item = true →
  browser pos = DownloadTimeout →
  ∃ item',
    load_database (fs st) !! pos = Some item'
    ∧ data st !! pos = Some item'
    ∧ db_file (fs st) = Some (json_dump (data st))
    ∧ item' !! "done" = Some (JStr "timeout")
    ∧ item' !! "done" ≠ Some (JBool true)
    ∧ item' !! "download_path" = item !! "download_path"
    ∧ (∀ k, k ≠ "done" → item' !! k = item !! k).
Proof.
  intros Hrt Hrun Hpos Hnd Hbrowser.
  apply process_file_inv in Hrun as [[Hall _]|(st1 & Hloop & ->)]; cbn zeta in *.
  { pose proof (proj1 (Forall_lookup _ _) Hall _ _ Hpos). congruence. }
  assert (pos ∈ seq 0 (length (load_database fs0))) as Hin.
  { apply list_elem_of_In, in_seq. apply lookup_lt_Some in Hpos. lia. }
  destruct (process_entries_selected _ _ _ _ _ (NoDup_seq _ _) Hin Hloop Hpos Hnd)
    as (item' & Hdata & _ & Hcase).
  rewrite Hbrowser in Hcase. subst item'.
  exists (<["done" := JStr "timeout"]> item).
  cbn [final_save fs data]. rewrite conversion_load_save by done.
  split_and!; try done.
  - by simplify_map_eq.
  - by simplify_map_eq.
  - by simplify_map_eq.
  - intros k Hk. by simplify_map_eq.
Qed.

(** A run completes when the titles of the entries that are not done are
    strings, or the progress bar is not in use. *)
Lemma process_entries_complete (positions : list nat) (st : state) :
  NoDup positions →
  (TQDM_AVAILABLE = true →
   ∀ pos item, pos ∈ positions → data st !! pos = Some item →
     not_done item = true → ∃ s, default (JStr "") (item !! "title") = JStr s) →
  is_Ok (process_entries positions st).
Proof.
  intros Hnodup. revert st.
  induction Hnodup as [|p positions Hp _ IH]; intros st Htitles.
  { by eexists. }
  assert (is_Ok (process_entry st p)) as [st1 Hstep].
  { unfold conversion.process_entry.
    destruct (data st !! p) as [item|] eqn:Hpos; [|by eexists]. cbn zeta.
    case_bool_decide as Hd; [by eexists|].
    assert ((if TQDM_AVAILABLE
             then match default (JStr "") (item !! "title") with
                  | JStr _ => Ok ()
                  | _ => Raise TypeError
                  end
             else Ok ()) = Ok ()) as ->.
    { destruct TQDM_AVAILABLE; [|done].
      destruct (Htitles eq_refl p item) as [s ->]; [left|done| |done].
      unfold not_done. by rewrite bool_decide_false. }
    cbn [mbind result_bind].
    destruct (browser p); try by eexists.
    all: destruct (update_database_entry _ _ _ _); by eexists. }
  cbn [conversion.process_entries mbind result_bind]. rewrite Hstep.
  apply IH. intros Htqdm pos item Hin Hpos Hnd.
  destruct (process_entry_data _ _ _ Hstep) as [_ Hother].
  apply (Htitles Htqdm pos item); [by right| |done].
  rewrite <- Hother; [done|]. intros ->. done.
Qed.

Lemma process_file_complete (fs0 : fsys) :
  titles_ok TQDM_AVAILABLE (load_database fs0) → is_Ok (process_file fs0).
Proof.
  intros Htitles. unfold conversion.process_file. cbn zeta.
  case_bool_decide; [by eexists|].
  destruct (process_entries_complete (seq 0 (length (load_database fs0)))
    {| fs := fs0; data := load_database fs0; processed_count := 0;
       successful_downloads := 0; log := [] |} (NoDup_seq _ _)) as [st1 Hst1].
  - intros Htqdm pos item _ Hpos Hnd. cbn [data] in Hpos.
    by apply (proj1 (Forall_lookup _ _) (Htitles Htqdm) pos item).
  - rewrite Hst1. by eexists.
Qed.

(** What the [except] branch does on a failure of the browser steps: the
    entry is marked in the data of the run, and the file system is left as
    it is. *)
Lemma browser_error_not_saved (st : state) (pos : nat) (item : entry) :
  data st !! pos = Some item → not_done item = true →
  (TQDM_AVAILABLE = true → ∃ s, default (JStr "") (item !! "title") = JStr s) →
  browser pos = BrowserError →
  process_entry st pos =
    Ok (on_exception st (fs st) pos item (log st ++ [Processing pos])).
Proof.
  intros Hpos Hnd Htitle Hbrowser. unfold conversion.process_entry.
  rewrite Hpos. cbn zeta. unfold not_done in Hnd.
  apply negb_true_iff in Hnd. rewrite Hnd, Hbrowser.
  destruct TQDM_AVAILABLE; [|done]. by destruct (Htitle eq_refl) as [s ->].
Qed.

End run.

(** ** Concrete runs *)

Lemma load_store_file `{JsonCodec} (data : store) :
  codec_roundtrip → conversion.load_database (store_file data) = data.
Proof.
  intros Hrt. unfold conversion.load_database, store_file. simpl. by rewrite Hrt.
Qed.

(** C4 (defect of the code). The browser steps of the first of two pending
    records raise: the iteration marks the record "timeout" in the data of
    the run and goes on to the next record without a write: the store file
    still holds the record as pending, and no text was written. The record
    reaches the store file only with a later save. *)
Theorem exception_not_persisted_at_once :
  let fs0 := @store_file py_json [pending_a; pending_b] in
  let st0 := {| conversion.fs := fs0; conversion.data := [pending_a; pending_b];
                conversion.processed_count := 0;
                conversion.successful_downloads := 0;
                conversion.log := [] |} in
  ∃ st1,
    @conversion.process_entry py_json true "/music" browser_error_first st0 0
      = Ok st1
    ∧ conversion.data st1 !! 0%nat = Some (<["done" := JStr "timeout"]> pending_a)
    ∧ conversion.processed_count st1 = 1%nat
    ∧ conversion.fs st1 = fs0
    ∧ write_log (conversion.fs st1) = []
    ∧ @conversion.load_database py_json (conversion.fs st1) !! 0%nat
        = Some pending_a
    ∧ pending_a !! "done" = Some (JBool false).
Proof.
  intros fs0 st0. eexists. split.
  - apply browser_error_not_saved; [done|done| |done].
    intros _. by eexists.
  - cbn [conversion.on_exception conversion.fs conversion.data
         conversion.processed_count conversion.set_item st0].
    split_and!; [done|done|done|done| |done].
    unfold fs0. by rewrite (load_store_file _ py_json_roundtrip).
Qed.

(** C2 (defect of the code). A store of two records with one url, the
    first done, the second pending, and a run in which the Download button
    of the pending record does not appear. The run skips the done record,
    but the call of [update_database_entry] for the pending record, which
    looks for the url, rewrites the done record: the first text that the
    run writes holds it with the status "timeout" and the new path, and
    the pending record as it was. The save of the data of the run, later in
    the iteration, writes the done record back as it was loaded. *)
Theorem done_record_rewritten_in_passing :
  let fs0 := @store_file py_json [done_a; pending_a] in
  ∃ st text,
    @conversion.process_file py_json true "/new" browser_timeout fs0 = Ok st
    ∧ conversion.log st = [AlreadyDone 0; Processing 1]
    ∧ write_log (conversion.fs st) !! 0%nat = Some text
    ∧ @json_load py_json text
      = Some [<["download_path" := JStr "/new"]>
                (<["done" := JStr "timeout"]> done_a);
              pending_a]
    ∧ done_a !! "done" = Some (JBool true)
    ∧ done_a !! "download_path" = Some (JStr "/music")
    ∧ @conversion.load_database py_json (conversion.fs st)
      = [done_a; <["done" := JStr "timeout"]> pending_a].
Proof.
  intros fs0. eexists. eexists. split; [reflexivity|].
  split; [reflexivity|]. split; [reflexivity|].
  split; [refine (bool_decide_unpack _ _); vm_compute; exact I|].
  split; [reflexivity|]. split; [reflexivity|].
  refine (bool_decide_unpack _ _). vm_compute. exact I.
Qed.

(** C6, as stated, fails: the store holds a record whose url has the
    identifier of the given url, but is not the same text; the call leaves
    the record as it is. *)
Lemma upsert_ignores_identifier :
  let fs0 := @store_file py_json [pending_a2] in
  @update_db_from_txt.extract_video_id py_urllib sample_url_1 = Ok (Some "abc123")
  ∧ @update_db_from_txt.extract_video_id py_urllib sample_url_2 = Ok (Some "abc123")
  ∧ @conversion.update_database_entry py_json
      (JStr sample_url_1) "/music" (JBool true) fs0
    = Ok (@conversion.save_database py_json [pending_a2] fs0)
  ∧ @conversion.load_database py_json
      (@conversion.save_database py_json [pending_a2] fs0) = [pending_a2]
  ∧ pending_a2 !! "done" = Some (JBool false).
Proof.
  intros fs0. split; [reflexivity|]. split; [reflexivity|]. split.
  - unfold conversion.update_database_entry, fs0.
    rewrite (load_store_file _ py_json_roundtrip).
    rewrite update_first_no_match; [done|].
    apply Forall_singleton. exists (JStr sample_url_2). by split.
  - split; [|done]. apply conversion_load_save, py_json_roundtrip.
Qed.

Lemma sample_titles_ok :
  titles_ok true (@conversion.load_database py_json
                    (@store_file py_json [done_a; pending_b])).
Proof.
  intros _. rewrite (load_store_file _ py_json_roundtrip).
  repeat constructor; intros _; by eexists.
Qed.


(** Witness of C3: the pending record of the same run times out. *)
Lemma timeout_fallback_witness :
  ∃ st item',
    @conversion.process_file py_json true "/music" browser_timeout
      (@store_file py_json [done_a; pending_b]) = Ok st
    ∧ @conversion.load_database py_json (conversion.fs st) !! 1%nat = Some item'
    ∧ item' !! "done" = Some (JStr "timeout")
    ∧ item' !! "download_path" = Some (JStr "").
Proof.
  destruct (@process_file_complete py_json true "/music" browser_timeout
              (@store_file py_json [done_a; pending_b]) sample_titles_ok)
    as [st Hst].
  destruct (@timeout_fallback py_json true "/music" browser_timeout
              _ st 1%nat pending_b py_json_roundtrip Hst)
    as (item' & Hload & _ & _ & Hdone & _ & Hpath & _).
  - by rewrite (load_store_file _ py_json_roundtrip).
  - reflexivity.
  - reflexivity.
  - exists st, item'. split; [exact Hst|]. split; [exact Hload|].
    split; [exact Hdone|]. rewrite Hpath. reflexivity.
Defined.

(** Witness of C5: a canonical watch URL and its identifier. *)
Lemma extract_video_id_rule_witness :
  @canonical_watch_url py_urllib sample_url_1
  ∧ ∃ id, @update_db_from_txt.extract_video_id py_urllib sample_url_1 = Ok (Some id)
          ∧ id ≠ "".
Proof.
  assert (@canonical_watch_url py_urllib sample_url_1) as Hcan.
  { eexists. split; [vm_compute; reflexivity|]. split; [|split].
    - apply list_elem_of_In. left. reflexivity.
    - reflexivity.
    - eexists. vm_compute. reflexivity. }
  split; [exact Hcan|].
  destruct (proj1 (proj1 (@extract_video_id_rule py_urllib
                            py_parse_qs_no_blank sample_url_1)) Hcan)
    as (id & Hid & Hne & _).
  exists id. split; [exact Hid|exact Hne].
Defined.

(** Witness of C9: a store file of two records. *)
Lemma store_roundtrip_witness :
  let fs := @store_file py_json [done_a; pending_b] in
  let fs' := @update_db_from_txt.save_database py_json
               (@conversion.load_database py_json fs) fs in
  @conversion.load_database py_json fs' = [done_a; pending_b]
  ∧ db_file fs' = db_file fs.
Proof.
  intros fs fs'.
  destruct (@store_roundtrip py_json fs
              (@json_dump py_json [done_a; pending_b]) [done_a; pending_b]
              py_json_roundtrip eq_refl (py_json_roundtrip _))
    as (Hload & _ & _ & Hbytes).
  split; [exact Hload|]. exact (Hbytes _ eq_refl).
Defined.

(** Witness of C8: a missing file, a text that is not JSON, and a store. *)
Lemma load_database_failure_mode_witness :
  @conversion.load_database py_json no_file = []
  ∧ @conversion.load_database py_json
      {| db_file := Some "not json"; write_log := [] |} = []
  ∧ @conversion.load_database py_json (@store_file py_json [pending_a])
    = [pending_a].
Proof.
  split; [|split].
  - exact (proj1 (@load_database_failure_mode py_json no_file) eq_refl).
  - exact (proj1 (proj2 (@load_database_failure_mode py_json
             {| db_file := Some "not json"; write_log := [] |}))
             "not json" eq_refl eq_refl).
  - exact (proj1 (proj2 (proj2 (@load_database_failure_mode py_json
             (@store_file py_json [pending_a]))))
             _ [pending_a] eq_refl (py_json_roundtrip _)).
Defined.

(** * Further properties of the code *)

(** ** More on the conversion run *)

Section run_more.
Import conversion.
Context `{JsonCodec}.
Variable TQDM_AVAILABLE : bool.
Variable download_dir : string.
Variable browser : nat → outcome.

Abbreviation process_entry := (process_entry TQDM_AVAILABLE download_dir browser).
Abbreviation process_entries := (process_entries TQDM_AVAILABLE download_dir browser).
Abbreviation process_file := (process_file TQDM_AVAILABLE download_dir browser).

Lemma not_done_true_done (item : entry) :
  not_done item = true → item !! "done" ≠ Some (JBool true).
Proof.
  intros Hnd Hd. unfold not_done in Hnd.
  apply negb_true_iff, bool_decide_eq_false in Hnd. apply Hnd. by rewrite Hd.
Qed.

Lemma not_done_timeout (item : entry) :
  not_done (<["done" := JStr "timeout"]> item) = true.
Proof. unfold not_done. by rewrite lookup_insert_eq. Qed.

(** The counters of one iteration: no success without a processed entry. *)
Lemma process_entry_counts (st st' : state) (pos : nat) :
  process_entry st pos = Ok st' →
  (processed_count st ≤ processed_count st')%nat
  ∧ (successful_downloads st ≤ successful_downloads st')%nat
  ∧ (successful_downloads st' + processed_count st
     ≤ successful_downloads st + processed_count st')%nat.
Proof.
  intros Hstep. unfold conversion.process_entry in Hstep.
  destruct (data st !! pos) as [item|]; [|injection Hstep as <-; lia].
  cbn zeta in Hstep. cbn [mbind result_bind] in Hstep.
  step_cases Hstep; simplify_eq/=; lia.
Qed.

Lemma process_entries_counts (positions : list nat) (st st' : state) :
  process_entries positions st = Ok st' →
  (processed_count st ≤ processed_count st')%nat
  ∧ (successful_downloads st ≤ successful_downloads st')%nat
  ∧ (successful_downloads st' + processed_count st
     ≤ successful_downloads st + processed_count st')%nat.
Proof.
  revert st. induction positions as [|p positions IH]; intros st Hrun.
  { injection Hrun as <-. lia. }
  apply process_entries_cons in Hrun as (st1 & Hstep & Hrun).
  apply process_entry_counts in Hstep. apply IH in Hrun. lia.
Qed.

(** The entries logged as processed are the entries that are not done. *)
Lemma processing_events_count (l1 l2 : store) :
  length (filter (λ ev, is_processing ev = true)
            (flat_map (event_of (l1 ++ l2)) (seq (length l1) (length l2))))
  = length (filter (λ item, not_done item = true) l2).
Proof.
  revert l1. induction l2 as [|x l2 IH]; intros l1; [done|].
  cbn [length seq flat_map]. rewrite filter_app, length_app.
  replace (l1 ++ x :: l2) with ((l1 ++ [x]) ++ l2) by by rewrite <- app_assoc.
  specialize (IH (l1 ++ [x])). rewrite length_app in IH. simpl in IH.
  rewrite Nat.add_1_r in IH. rewrite IH.
  unfold event_of at 1. rewrite <- app_assoc. simpl.
  rewrite list_lookup_middle by done.
  rewrite filter_cons. destruct (not_done x) eqn:Hx.
  - rewrite decide_True by done. rewrite filter_cons_True by done. done.
  - rewrite decide_False by done. rewrite filter_cons_False by by rewrite Hx.
    done.
Qed.

(** X1. The counters of a completed run: the successful downloads are at
    most the processed entries, and the processed entries are at most the
    entries that were not done when the store was loaded ([total_entries]):
    the success rate of the summary is at most 100 percent and the count
    of the entries that remain is never negative. *)
Theorem run_counters_bounded (fs0 : fsys) (st : state) :
  process_file fs0 = Ok st →
  (successful_downloads st ≤ processed_count st)%nat
  ∧ (processed_count st
     ≤ length (filter (λ item, not_done item = true) (load_database fs0)))%nat.
Proof.
  intros Hrun.
  apply process_file_inv in Hrun as [[_ ->]|(st1 & Hloop & ->)]; cbn zeta in *.
  { simpl. lia. }
  pose proof (process_entries_counts _ _ _ Hloop) as (_ & _ & Hsucc).
  destruct (process_entries_log TQDM_AVAILABLE download_dir browser _ _ _
              (NoDup_seq _ _) Hloop) as [Hlog Hcount].
  cbn [final_save successful_downloads processed_count log data] in *.
  rewrite Hlog in Hcount. cbn [app] in Hcount.
  pose proof (processing_events_count [] (load_database fs0)) as Hev.
  cbn [app length] in Hev. rewrite Hev in Hcount. simpl in Hcount. lia.
Qed.

(** What a completed run leaves in the store file, entry by entry. *)
Lemma process_file_entry (fs0 : fsys) (st : state) (pos : nat) (item : entry) :
  codec_roundtrip →
  process_file fs0 = Ok st →
  load_database fs0 !! pos = Some item →
  length (load_database (fs st)) = length (load_database fs0)
  ∧ ∃ item', load_database (fs st) !! pos = Some item'
      ∧ (∀ k, k ≠ "done" → k ≠ "download_path" → item' !! k = item !! k)
      ∧ (not_done item = false → item' = item)
      ∧ (not_done item = true →
           match browser pos with
           | BrowserError => item' = <["done" := JStr "timeout"]> item
           | DownloadTimeout => item' = <["done" := JStr "timeout"]> item
           | InputNotFound | ConvertNotFound => item' = item
           | Downloaded => True
           end).
Proof.
  intros Hrt Hrun Hpos.
  apply process_file_inv in Hrun as [[Hall ->]|(st1 & Hloop & ->)]; cbn zeta in *.
  { cbn [fs]. split; [done|]. exists item. split_and!; [done|done|done|].
    intros Hnd. pose proof (proj1 (Forall_lookup _ _) Hall _ _ Hpos). congruence. }
  cbn [final_save fs]. rewrite conversion_load_save by done.
  destruct (process_entries_other TQDM_AVAILABLE download_dir browser _ _ _ Hloop)
    as [Hlen _]. split; [done|].
  destruct (not_done item) eqn:Hnd.
  - assert (pos ∈ seq 0 (length (load_database fs0))) as Hin.
    { apply list_elem_of_In, in_seq. apply lookup_lt_Some in Hpos. lia. }
    destruct (process_entries_selected TQDM_AVAILABLE download_dir browser
                _ _ _ _ _ (NoDup_seq _ _) Hin Hloop Hpos Hnd)
      as (item' & Hdata & Hframe & Hcase).
    exists item'. split_and!; [done|done|done|done].
  - destruct (process_entries_done TQDM_AVAILABLE download_dir browser
                _ _ _ _ _ Hloop Hpos Hnd) as [Hdata _].
    exists item. split_and!; [done|done|done|done].
Qed.

(** X2. A completed conversion run adds, drops and reorders no record, and
    changes no field of a record other than done and download_path: the
    title, the url and the project of every record are those that were
    loaded. *)
Theorem process_file_frame (fs0 : fsys) (st : state) :
  codec_roundtrip →
  process_file fs0 = Ok st →
  length (load_database (fs st)) = length (load_database fs0)
  ∧ ∀ pos item, load_database fs0 !! pos = Some item →
      ∃ item', load_database (fs st) !! pos = Some item'
        ∧ ∀ k, k ≠ "done" → k ≠ "download_path" → item' !! k = item !! k.
Proof.
  intros Hrt Hrun. split.
  - apply process_file_inv in Hrun as [[_ ->]|(st1 & Hloop & ->)];
      cbn zeta in *; [done|].
    cbn [final_save fs]. rewrite conversion_load_save by done.
    by destruct (process_entries_other TQDM_AVAILABLE download_dir browser
                   _ _ _ Hloop) as [-> _].
  - intros pos item Hpos.
    destruct (process_file_entry fs0 st pos item Hrt Hrun Hpos)
      as (_ & item' & Hload & Hframe & _). eauto.
Qed.

(** X3. No spurious success: after a completed run a record has the
    status [True] only if it had it when the store was loaded or the
    Download button of its conversion was found and clicked. *)
Theorem no_spurious_done (fs0 : fsys) (st : state) (pos : nat)
    (item item' : entry) :
  codec_roundtrip →
  process_file fs0 = Ok st →
  load_database fs0 !! pos = Some item →
  load_database (fs st) !! pos = Some item' →
  item' !! "done" = Some (JBool true) →
  item !! "done" = Some (JBool true) ∨ browser pos = Downloaded.
Proof.
  intros Hrt Hrun Hpos Hpos' Hdone.
  destruct (process_file_entry fs0 st pos item Hrt Hrun Hpos)
    as (_ & x & Hload & _ & Hkept & Hcase).
  assert (x = item') as -> by congruence.
  destruct (not_done item) eqn:Hnd.
  - specialize (Hcase eq_refl).
    destruct (browser pos); [| | | |by right].
    + subst item'. by simplify_map_eq.
    + subst item'. by destruct (not_done_true_done item Hnd).
    + subst item'. by destruct (not_done_true_done item Hnd).
    + subst item'. by simplify_map_eq.
  - left. rewrite <- (Hkept eq_refl). done.
Qed.

(** X4. An entry whose input field or Convert button is not found is left
    as it is: the iteration changes neither the data nor the file system
    nor the counters, so the entry is not counted as processed, and after
    the run the store holds the record that was loaded. *)
Theorem not_found_leaves_entry (fs0 : fsys) (st : state) (pos : nat)
    (item : entry) :
  codec_roundtrip →
  process_file fs0 = Ok st →
  load_database fs0 !! pos = Some item →
  browser pos = InputNotFound ∨ browser pos = ConvertNotFound →
  load_database (fs st) !! pos = Some item
  ∧ ∀ st1 st2, data st1 !! pos = Some item → not_done item = true →
      process_entry st1 pos = Ok st2 →
      fs st2 = fs st1 ∧ data st2 = data st1
      ∧ processed_count st2 = processed_count st1
      ∧ successful_downloads st2 = successful_downloads st1.
Proof.
  intros Hrt Hrun Hpos Hbrowser. split.
  - destruct (process_file_entry fs0 st pos item Hrt Hrun Hpos)
      as (_ & x & Hload & _ & Hkept & Hcase).
    destruct (not_done item); [|by rewrite <- (Hkept eq_refl)].
    specialize (Hcase eq_refl).
    destruct Hbrowser as [Hb|Hb]; rewrite Hb in Hcase; by subst x.
  - intros st1 st2 Hdata Hnd Hstep. unfold conversion.process_entry in Hstep.
    rewrite Hdata in Hstep. cbn zeta in Hstep. unfold not_done in Hnd.
    apply negb_true_iff in Hnd. rewrite Hnd in Hstep.
    cbn [mbind result_bind] in Hstep.
    destruct Hbrowser as [Hb|Hb]; rewrite Hb in Hstep;
      step_cases Hstep; by simplify_eq/=.
Qed.

Lemma update_database_entry_complete (url : jval) (dp : string) (ds : jval)
    (fs0 : fsys) :
  urls_present (load_database fs0) →
  is_Ok (update_database_entry url dp ds fs0).
Proof.
  intros Hurls. unfold update_database_entry.
  destruct (update_first_cases url (load_database fs0))
    as [Hno|[(pre & e & post & Hdb & Hpre & He)
            |(pre & e & post & Hdb & Hpre & He)]].
  - rewrite update_first_no_match by done. by eexists.
  - rewrite Hdb, update_first_match by done. by eexists.
  - exfalso. rewrite Hdb in Hurls.
    apply Forall_app in Hurls as [_ [[u Hu] _]%Forall_cons].
    congruence.
Qed.

(** One iteration keeps the url fields, in the data and in the file. *)
Lemma process_entry_urls (st st' : state) (pos : nat) :
  codec_roundtrip →
  process_entry st pos = Ok st' →
  urls_present (data st) → urls_present (load_database (fs st)) →
  urls_present (data st') ∧ urls_present (load_database (fs st')).
Proof.
  intros Hrt Hstep Hdata Hfile.
  destruct (data st !! pos) as [item|] eqn:Hpos.
  - destruct (not_done item) eqn:Hnd.
    + destruct (process_entry_selected TQDM_AVAILABLE download_dir browser
                  _ _ _ _ Hpos Hnd Hstep)
        as (_ & _ & (item' & Hdata' & Hframe & _) & Hfs & _).
      assert (urls_present (data st')) as Hurls.
      { rewrite Hdata'. apply Forall_insert; [done|].
        rewrite Hframe by done.
        by apply (proj1 (Forall_lookup _ _) Hdata pos item). }
      split; [done|]. destruct Hfs as [->|[fs1 ->]]; [done|].
      by rewrite conversion_load_save.
    + rewrite (process_entry_done _ _ _ _ _ _ Hpos Hnd) in Hstep.
      by injection Hstep as <-.
  - rewrite process_entry_out_of_range in Hstep by done.
    by injection Hstep as <-.
Qed.

(** One iteration on an entry whose download succeeds, when the status
    update finds the url fields it reads. *)
Lemma process_entry_downloaded (st st' : state) (pos : nat) (item : entry) :
  data st !! pos = Some item → not_done item = true →
  browser pos = Downloaded →
  urls_present (load_database (fs st)) →
  process_entry st pos = Ok st' →
  data st' =
    <[pos := <["download_path" := JStr download_dir]>
               (<["done" := JBool true]> item)]> (data st).
Proof.
  intros Hpos Hnd Hbrowser Hurls Hstep.
  unfold conversion.process_entry in Hstep.
  rewrite Hpos in Hstep. cbn zeta in Hstep. unfold not_done in Hnd.
  apply negb_true_iff in Hnd. rewrite Hnd, Hbrowser in Hstep.
  cbn [mbind result_bind] in Hstep.
  destruct (update_database_entry_complete
              (default (JStr "") (item !! "url")) download_dir (JBool true)
              (fs st) Hurls) as [fs1 Hupd].
  rewrite Hupd in Hstep. step_cases Hstep; by simplify_eq/=.
Qed.

Lemma process_entries_urls (positions : list nat) (st st' : state) :
  codec_roundtrip →
  process_entries positions st = Ok st' →
  urls_present (data st) → urls_present (load_database (fs st)) →
  urls_present (data st') ∧ urls_present (load_database (fs st')).
Proof.
  intros Hrt. revert st.
  induction positions as [|p positions IH]; intros st Hrun Hdata Hfile.
  { by injection Hrun as <-. }
  apply process_entries_cons in Hrun as (st1 & Hstep & Hrun).
  destruct (process_entry_urls _ _ _ Hrt Hstep Hdata Hfile).
  by apply (IH st1).
Qed.

Lemma process_entries_downloaded (positions : list nat) (st st' : state)
    (pos : nat) (item : entry) :
  codec_roundtrip →
  NoDup positions → pos ∈ positions →
  process_entries positions st = Ok st' →
  urls_present (data st) → urls_present (load_database (fs st)) →
  data st !! pos = Some item → not_done item = true →
  browser pos = Downloaded →
  data st' !! pos =
    Some (<["download_path" := JStr download_dir]>
            (<["done" := JBool true]> item)).
Proof.
  intros Hrt Hnodup. revert st.
  induction Hnodup as [|p positions Hp _ IH];
    intros st Hin Hrun Hdata Hfile Hpos Hnd Hbrowser.
  { by apply elem_of_nil in Hin. }
  apply process_entries_cons in Hrun as (st1 & Hstep & Hrun).
  destruct (process_entry_urls _ _ _ Hrt Hstep Hdata Hfile) as [Hdata1 Hfile1].
  destruct (decide (pos = p)) as [->|Hne].
  - destruct (process_entries_other TQDM_AVAILABLE download_dir browser
                _ _ _ Hrun) as [_ Hother].
    rewrite Hother by done.
    rewrite (process_entry_downloaded _ _ _ _ Hpos Hnd Hbrowser Hfile Hstep).
    apply list_lookup_insert_eq. by eapply lookup_lt_Some.
  - destruct (process_entry_data TQDM_AVAILABLE download_dir browser
                _ _ _ Hstep) as [_ Hother1].
    apply elem_of_cons in Hin as [Hin|Hin]; [done|].
    apply (IH st1); [done|done|done|done|by rewrite Hother1|done|done].
Qed.

Lemma process_file_downloaded (fs0 : fsys) (st : state) (pos : nat) (item : entry) :
  codec_roundtrip →
  process_file fs0 = Ok st →
  urls_present (load_database fs0) →
  load_database fs0 !! pos = Some item →
  not_done item = true →
  browser pos = Downloaded →
  load_database (fs st) !! pos =
    Some (<["download_path" := JStr download_dir]>
            (<["done" := JBool true]> item)).
Proof.
  intros Hrt Hrun Hurls Hpos Hnd Hbrowser.
  apply process_file_inv in Hrun as [[Hall _]|(st1 & Hloop & ->)]; cbn zeta in *.
  { pose proof (proj1 (Forall_lookup _ _) Hall _ _ Hpos). congruence. }
  cbn [final_save fs]. rewrite conversion_load_save by done.
  assert (pos ∈ seq 0 (length (load_database fs0))) as Hin.
  { apply list_elem_of_In, in_seq. apply lookup_lt_Some in Hpos. lia. }
  by apply (process_entries_downloaded _ _ _ _ _ Hrt (NoDup_seq _ _) Hin Hloop).
Qed.

(** X5. A successful download, on a store whose entries all have a url
    field: in the store that the run leaves the record has the status
    [True] and the download directory of the run as download_path, and its
    other fields as they were loaded. *)
Theorem download_recorded (fs0 : fsys) (st : state) (pos : nat) (item : entry) :
  codec_roundtrip →
  process_file fs0 = Ok st →
  urls_present (load_database fs0) →
  load_database fs0 !! pos = Some item →
  not_done item = true →
  browser pos = Downloaded →
  ∃ item',
    load_database (fs st) !! pos = Some item'
    ∧ item' !! "done" = Some (JBool true)
    ∧ item' !! "download_path" = Some (JStr download_dir)
    ∧ ∀ k, k ≠ "done" → k ≠ "download_path" → item' !! k = item !! k.
Proof.
  intros Hrt Hrun Hurls Hpos Hnd Hbrowser. eexists. split.
  - by apply (process_file_downloaded fs0 st pos item).
  - split_and!; [by simplify_map_eq|by simplify_map_eq|].
    intros k Hk1 Hk2. by simplify_map_eq.
Qed.

(** After a run in which every download succeeded, all the records of the
    store are done. *)
Lemma process_file_all_done (fs0 : fsys) (st : state) :
  codec_roundtrip →
  process_file fs0 = Ok st →
  urls_present (load_database fs0) →
  (∀ pos item, load_database fs0 !! pos = Some item → not_done item = true →
     browser pos = Downloaded) →
  Forall (λ item, not_done item = false) (load_database (fs st)).
Proof.
  intros Hrt Hrun Hurls Hall. apply Forall_lookup. intros pos item' Hpos'.
  destruct (load_database fs0 !! pos) as [item|] eqn:Hpos.
  - destruct (process_file_entry fs0 st pos item Hrt Hrun Hpos)
      as (_ & x & Hload & _ & Hkept & _).
    destruct (not_done item) eqn:Hnd.
    + rewrite (process_file_downloaded fs0 st pos item) in Hpos'
        by eauto.
      injection Hpos' as <-. apply not_done_of_done. by simplify_map_eq.
    + rewrite (Hkept eq_refl) in Hload. congruence.
  - apply lookup_ge_None in Hpos. apply lookup_lt_Some in Hpos'.
    apply process_file_inv in Hrun as [[_ ->]|(st1 & Hloop & ->)];
      cbn zeta in *.
    + cbn [fs] in Hpos'. lia.
    + cbn [final_save fs] in Hpos'. rewrite conversion_load_save in Hpos' by done.
      destruct (process_entries_other TQDM_AVAILABLE download_dir browser
                  _ _ _ Hloop) as [Hlen _]. cbn [data] in Hlen. lia.
Qed.

(** X6. A run after a run in which every download succeeded (on a store
    whose entries all have a url field) has nothing to do: whatever its
    settings and its browser, it returns at once, with the file system it
    found (nothing is written), no entry counted and an empty log. *)
Theorem rerun_after_success_is_idle (fs0 : fsys) (st : state)
    (tqdm' : bool) (download_dir' : string) (browser' : nat → outcome) :
  codec_roundtrip →
  process_file fs0 = Ok st →
  urls_present (load_database fs0) →
  (∀ pos item, load_database fs0 !! pos = Some item → not_done item = true →
     browser pos = Downloaded) →
  ∃ st',
    conversion.process_file tqdm' download_dir' browser' (fs st) = Ok st'
    ∧ fs st' = fs st ∧ processed_count st' = 0%nat
    ∧ successful_downloads st' = 0%nat ∧ log st' = [].
Proof.
  intros Hrt Hrun Hurls Hall.
  pose proof (process_file_all_done fs0 st Hrt Hrun Hurls Hall) as Hdone.
  assert (filter (λ item, not_done item = true) (load_database (fs st)) = [])
    as Hnone.
  { induction Hdone as [|item l Hitem _ IH]; [done|].
    rewrite filter_cons_False; [done|]. by rewrite Hitem. }
  eexists. split.
  - unfold conversion.process_file. cbn zeta.
    rewrite Hnone. by rewrite bool_decide_eq_true_2.
  - done.
Qed.

(** X7. An entry that was selected and did not download (time-out, failure
    of a browser step, input field or button not found) is still selected by
    the next run: its status is not [True] in the store the run leaves, and
    the next run, whatever its settings and its browser, logs it as
    processed. *)
Theorem failed_entry_is_retried (fs0 : fsys) (st st' : state) (pos : nat)
    (item : entry) (tqdm' : bool) (download_dir' : string)
    (browser' : nat → outcome) :
  codec_roundtrip →
  process_file fs0 = Ok st →
  load_database fs0 !! pos = Some item →
  not_done item = true →
  browser pos ≠ Downloaded →
  conversion.process_file tqdm' download_dir' browser' (fs st) = Ok st' →
  (∃ item', load_database (fs st) !! pos = Some item'
            ∧ item' !! "done" ≠ Some (JBool true))
  ∧ Processing pos ∈ log st'.
Proof.
  intros Hrt Hrun Hpos Hnd Hbrowser Hrun'.
  destruct (process_file_entry fs0 st pos item Hrt Hrun Hpos)
    as (_ & item' & Hload & _ & _ & Hcase).
  specialize (Hcase Hnd).
  assert (not_done item' = true) as Hnd'.
  { destruct (browser pos); subst; try done; apply not_done_timeout. }
  split.
  { exists item'. split; [done|]. by apply not_done_true_done. }
  apply process_file_inv in Hrun' as [[Hall _]|(st1 & Hloop & ->)];
    cbn zeta in *.
  { pose proof (proj1 (Forall_lookup _ _) Hall _ _ Hload). congruence. }
  destruct (process_entries_log tqdm' download_dir' browser' _ _ _
              (NoDup_seq _ _) Hloop) as [Hlog _].
  cbn [final_save log]. rewrite Hlog. cbn [log data app].
  apply list_elem_of_In, in_flat_map. exists pos. split.
  - apply in_seq. apply lookup_lt_Some in Hload. lia.
  - unfold event_of. rewrite Hload, Hnd'. by left.
Qed.

Lemma updated_entry_idemp (dp : string) (ds : jval) (e : entry) :
  updated_entry dp ds (updated_entry dp ds e) = updated_entry dp ds e.
Proof.
  unfold updated_entry. cbn zeta. apply map_eq. intros k.
  destruct (str_truthy dp);
    destruct (decide (k = "done")); destruct (decide (k = "download_path"));
    by simplify_map_eq.
Qed.

Lemma update_first_idemp (url : jval) (dp : string) (ds : jval)
    (db db' : store) :
  update_first url dp ds db = Ok db' → update_first url dp ds db' = Ok db'.
Proof.
  intros Hupd.
  destruct (update_first_cases url db)
    as [Hno|[(pre & e & post & -> & Hpre & He)
            |(pre & e & post & -> & Hpre & He)]].
  - rewrite update_first_no_match in Hupd by done. injection Hupd as <-.
    by apply update_first_no_match.
  - rewrite update_first_match in Hupd by done. injection Hupd as <-.
    rewrite update_first_match; [by rewrite updated_entry_idemp|done|].
    destruct (updated_entry_fields dp ds e) as (_ & _ & _ & Hframe).
    by rewrite Hframe.
  - by rewrite update_first_raise in Hupd.
Qed.

(** X8. A status update is idempotent: the same update made a second time
    succeeds, and writes the text that the first one wrote, so the store
    that is loaded afterwards is the same. *)
Theorem update_database_entry_idempotent (url : jval) (download_path : string)
    (done_status : jval) (fs0 fs1 : fsys) :
  codec_roundtrip →
  update_database_entry url download_path done_status fs0 = Ok fs1 →
  ∃ fs2,
    update_database_entry url download_path done_status fs1 = Ok fs2
    ∧ db_file fs2 = db_file fs1
    ∧ load_database fs2 = load_database fs1
    ∧ write_log fs2 = write_log fs1 ++ [default "" (db_file fs1)].
Proof.
  intros Hrt Hupd. unfold update_database_entry in *. cbn zeta in *.
  destruct (update_first url download_path done_status (load_database fs0))
    as [db'|] eqn:Hfirst; [|done].
  cbn [mbind result_bind] in Hupd. injection Hupd as <-.
  rewrite conversion_load_save by done.
  rewrite (update_first_idemp _ _ _ _ _ Hfirst). cbn [mbind result_bind].
  eexists. split; [done|]. split; [done|]. split; [|done].
  by rewrite !conversion_load_save.
Qed.

End run_more.

(** ** More on the discovery run *)

Section discovery_more.
Import update_db_from_txt.
Context `{JsonCodec} `{UrlLib}.

Lemma find_first {A} (P : A → bool) (l : list A) (x : A) :
  List.find P l = Some x →
  ∃ pos, l !! pos = Some x ∧ P x = true
    ∧ ∀ j y, (j < pos)%nat → l !! j = Some y → P y = false.
Proof.
  induction l as [|a l IH]; [done|]. simpl. destruct (P a) eqn:Ha.
  - intros [= ->]. exists 0%nat. split_and!; [done|done|]. intros; lia.
  - intros (pos & Hpos & Hx & Hfirst)%IH. exists (S pos).
    split_and!; [done|done|]. intros [|j] y Hj Hy.
    + by injection Hy as <-.
    + apply (Hfirst j); [lia|done].
Qed.

Lemma find_none {A} (P : A → bool) (l : list A) :
  List.find P l = None → Forall (λ y, P y = false) l.
Proof.
  induction l as [|a l IH]; [done|]. simpl. destruct (P a) eqn:Ha; [done|].
  intros Hl. constructor; [done|by apply IH].
Qed.

Lemma check_duplicate_loop_Raise (id : string) (db : store) (ex : exn) :
  check_duplicate_loop id db = Raise ex →
  (ex = KeyError "url" ∧ ∃ e, e ∈ db ∧ e !! "url" = None)
  ∨ (ex = AttributeError ∧ ∃ e, e ∈ db ∧ e !! "url" = Some (JBool true))
  ∨ (ex = ValueError
     ∧ ∃ e u, e ∈ db ∧ e !! "url" = Some (JStr u) ∧ urlparse u = None).
Proof.
  revert ex. induction db as [|e db IH]; intros ex; [done|]. simpl.
  assert (∀ ex', check_duplicate_loop id db = Raise ex' →
    (ex' = KeyError "url" ∧ ∃ e0, e0 ∈ e :: db ∧ e0 !! "url" = None)
    ∨ (ex' = AttributeError
       ∧ ∃ e0, e0 ∈ e :: db ∧ e0 !! "url" = Some (JBool true))
    ∨ (ex' = ValueError
       ∧ ∃ e0 u, e0 ∈ e :: db ∧ e0 !! "url" = Some (JStr u) ∧ urlparse u = None))
    as Hrest.
  { intros ex' Hr.
    destruct (IH _ Hr)
      as [[-> (e' & ? & ?)]|[[-> (e' & ? & ?)]|[-> (e' & u & ? & ? & ?)]]].
    - left. split; [done|]. exists e'. split; [by right|done].
    - right; left. split; [done|]. exists e'. split; [by right|done].
    - right; right. split; [done|]. exists e', u. split; [by right|done]. }
  destruct (e !! "url") as [u|] eqn:Hu.
  - destruct u as [|[]|s]; cbn [extract_video_id_dyn mbind result_bind].
    + case_bool_decide; [done|]. apply Hrest.
    + intros [= <-]. right; left. split; [done|]. exists e.
      split; [by left|done].
    + case_bool_decide; [done|]. apply Hrest.
    + destruct (extract_video_id s) as [r|ex'] eqn:Hs; cbn [mbind result_bind].
      * case_bool_decide; [done|]. apply Hrest.
      * intros [= <-]. apply extract_video_id_Raise in Hs as [-> Hs].
        right; right. split; [done|]. exists e, s. split; [by left|done].
  - intros [= <-]. left. split; [done|]. exists e. split; [by left|done].
Qed.

(** X9. What [check_duplicate] returns: an entry is returned only when the
    new URL has a non-empty identifier, and it is then the first entry of
    the list whose url has that identifier; [None] is returned only when no
    entry of the list has the identifier of the new URL; the call raises
    only on an entry without a url field ([KeyError]), on an entry with the
    url [True] ([AttributeError]), and when [urlparse] raises on the new
    URL or on the url of an entry ([ValueError]). *)
Theorem check_duplicate_first_match (new_url : string) (database : store) :
  match check_duplicate new_url database with
  | Ok (Some e) =>
      ∃ pos u id,
        database !! pos = Some e ∧ e !! "url" = Some (JStr u)
        ∧ extract_video_id new_url = Ok (Some id) ∧ id ≠ ""
        ∧ extract_video_id u = Ok (Some id)
        ∧ ∀ j e', (j < pos)%nat → database !! j = Some e' →
            has_video_id id e' = false
  | Ok None =>
      is_Some (urlparse new_url)
      ∧ ∀ id, extract_video_id new_url = Ok (Some id) → id ≠ "" →
          Forall (λ e, has_video_id id e = false) database
  | Raise ex =>
      (ex = KeyError "url" ∧ ∃ e, e ∈ database ∧ e !! "url" = None)
      ∨ (ex = AttributeError
         ∧ ∃ e, e ∈ database ∧ e !! "url" = Some (JBool true))
      ∨ (ex = ValueError
         ∧ (urlparse new_url = None
            ∨ ∃ e u, e ∈ database ∧ e !! "url" = Some (JStr u)
                ∧ urlparse u = None))
  end.
Proof.
  destruct (check_duplicate new_url database) as [r|ex] eqn:Hcheck.
  - apply check_duplicate_Ok in Hcheck as [Hparse%extract_video_id_parses Hcheck].
    destruct (extract_video_id new_url) as [[id|]|ex] eqn:Hid.
    + destruct (str_truthy id) eqn:Htruthy.
      * apply str_truthy_true in Htruthy. subst r.
        destruct (List.find (has_video_id id) database) as [e|] eqn:Hfind.
        -- destruct (find_first _ _ _ Hfind) as (pos & Hpos & He & Hfirst).
           unfold has_video_id in He.
           destruct (e !! "url") as [[| |u]|] eqn:Hu; try done.
           apply bool_decide_eq_true in He.
           exists pos, u, id. split_and!; done.
        -- split; [done|]. intros id' [= <-] _. by apply find_none.
      * subst r. split; [done|]. intros id' [= <-] Hne.
        apply str_truthy_true in Hne. congruence.
    + subst r. by split.
    + subst r. by split.
  - unfold check_duplicate in Hcheck.
    destruct (extract_video_id new_url) as [[id|]|ex'] eqn:Hid;
      cbn [mbind result_bind] in Hcheck; [|done|].
    + destruct (str_truthy id); [|done].
      destruct (check_duplicate_loop_Raise id _ _ Hcheck) as [?|[?|[-> ?]]]; auto.
    + injection Hcheck as <-. apply extract_video_id_Raise in Hid as [-> Hid].
      auto.
Qed.

Lemma main_query_counts (db : store) (st st' : run) (q : string)
    (found : result (option string)) :
  main_query db st q found = Ok st' →
  (length (new_entries st') + length (duplicates_found st')
   ≤ S (length (new_entries st) + length (duplicates_found st)))%nat.
Proof.
  intros Hq. unfold main_query in Hq.
  destruct found as [[url|]|]; cbn [mbind result_bind] in Hq;
    [| |done].
  - destruct (str_truthy url).
    + destruct (check_duplicate url db) as [[dup|]|];
        cbn [mbind result_bind] in Hq; [| |done].
      * step_cases Hq; simplify_eq/=; rewrite ?length_app; simpl; lia.
      * simplify_eq/=. rewrite ?length_app. simpl. lia.
    + simplify_eq/=. lia.
  - simplify_eq/=. lia.
Qed.

Lemma main_loop_counts (driver : nat → string → result (option string))
    (db : store) (idx : nat) (queries : list string) (st st' : run) :
  main_loop driver db idx queries st = Ok st' →
  (length (new_entries st') + length (duplicates_found st')
   ≤ length queries + (length (new_entries st) + length (duplicates_found st)))%nat.
Proof.
  revert idx st. induction queries as [|q queries IH]; intros idx st Hloop.
  { simpl in Hloop. injection Hloop as <-. simpl. lia. }
  cbn [main_loop] in Hloop.
  destruct (main_query db st q (driver idx ("song: " +:+ q))) as [st1|] eqn:Hq;
    [|done].
  cbn [mbind result_bind] in Hloop.
  apply main_query_counts in Hq. apply IH in Hloop. simpl. lia.
Qed.

(** X10. The summary of a completed discovery run: every query was
    processed; a query gave at most one new record or one duplicate report,
    so the new records and the duplicates together are at most the queries;
    a reported duplicate pairs a query of the run with a record of the
    store that was loaded; the store that the run leaves has as many
    records more as there are new records. *)
Theorem discovery_summary (driver : nat → string → result (option string))
    (queries : list string) (fs fs' : fsys) (st : run) :
  main driver queries fs = Ok (fs', st) →
  queries ≠ []
  ∧ processed_count st = length queries
  ∧ (length (new_entries st) + length (duplicates_found st)
     ≤ length queries)%nat
  ∧ Forall (λ d : string * entry, d.1 ∈ queries ∧ d.2 ∈ load_database fs)
      (duplicates_found st)
  ∧ (codec_roundtrip →
       length (load_database fs')
       = (length (load_database fs) + length (new_entries st))%nat).
Proof.
  intros Hmain. unfold main in Hmain.
  destruct queries as [|q queries]; [done|]. split; [done|].
  cbn zeta in Hmain.
  destruct (main_loop driver (load_database fs) 1 (q :: queries) run0)
    as [st1|] eqn:Hloop; [|done].
  cbn [mbind result_bind] in Hmain.
  pose proof (main_loop_counts _ _ _ _ _ _ Hloop) as Hcounts.
  destruct (main_loop_Ok _ _ _ _ _ _ Hloop) as (dups & Hst1 & Hdups).
  assert (st = st1 ∧ (fs' = fs ∧ new_entries st1 = []
            ∨ fs' = save_database (load_database fs ++ new_entries st1) fs))
    as [-> Hfs].
  { destruct (new_entries st1); simplify_eq/=; auto. }
  split_and!.
  - by rewrite Hst1.
  - simpl in *. lia.
  - by rewrite Hst1.
  - intros Hrt. destruct Hfs as [[-> ->]| ->]; [simpl; lia|].
    by rewrite load_save_database, length_app.
Qed.

Lemma appended_entries_mem (driver : nat → string → result (option string))
    (db : store) (idx i : nat) (queries : list string) (q url : string) :
  queries !! i = Some q →
  driver (idx + i)%nat ("song: " +:+ q) = Ok (Some url) →
  str_truthy url = true → is_duplicate db url = false →
  result_obj q url ∈ appended_entries driver db idx queries.
Proof.
  revert idx i. induction queries as [|q0 queries IH]; intros idx i; [done|].
  cbn [appended_entries]. destruct i as [|i].
  - intros [= ->]. rewrite Nat.add_0_r. intros -> -> ->. cbn [negb andb].
    apply elem_of_app. left. by left.
  - cbn [lookup list_lookup]. intros Hq Hdriver Hurl Hdup.
    apply elem_of_app. right. apply (IH (S idx) i); [done| |done|done].
    by rewrite Nat.add_succ_r in Hdriver.
Qed.

Lemma appended_entries_nil (driver : nat → string → result (option string))
    (db : store) (idx : nat) (queries : list string) :
  (∀ i q url, queries !! i = Some q →
     driver (idx + i)%nat ("song: " +:+ q) = Ok (Some url) →
     str_truthy url = true → is_duplicate db url = true) →
  appended_entries driver db idx queries = [].
Proof.
  revert idx. induction queries as [|q queries IH]; intros idx Hdup; [done|].
  cbn [appended_entries]. rewrite IH.
  - rewrite app_nil_r.
    destruct (driver idx ("song: " +:+ q)) as [[url|]|] eqn:Hdriver;
      [|done|done].
    destruct (str_truthy url) eqn:Hurl; [|done].
    rewrite (Hdup 0%nat q url); [done|done| |done].
    by rewrite Nat.add_0_r.
  - intros i q' url Hq Hdriver. apply (Hdup (S i) q' url); [done|].
    by rewrite Nat.add_succ_r.
Qed.

(** X28. A discovery run made again finds nothing new: when every URL that
    the searches return has a non-empty identifier, a second run on the
    same queries with the same results adds no record and leaves the store
    file as the first run left it (the records that the first run added
    are now found as duplicates). *)
Theorem discovery_rerun_adds_nothing
    (driver : nat → string → result (option string))
    (queries : list string) (fs fs1 fs2 : fsys) (st1 st2 : run) :
  codec_roundtrip →
  (∀ idx q url, driver idx q = Ok (Some url) → url ≠ "" →
     ∃ id, extract_video_id url = Ok (Some id) ∧ id ≠ "") →
  main driver queries fs = Ok (fs1, st1) →
  main driver queries fs1 = Ok (fs2, st2) →
  new_entries st2 = [] ∧ fs2 = fs1
  ∧ load_database fs2 = load_database fs ++ new_entries st1.
Proof.
  intros Hrt Hids Hmain1 Hmain2. unfold main in Hmain1, Hmain2.
  destruct queries as [|q0 queries]; [done|]. cbn zeta in Hmain1, Hmain2.
  destruct (main_loop driver (load_database fs) 1 (q0 :: queries) run0)
    as [r1|] eqn:Hloop1; [|done].
  destruct (main_loop driver (load_database fs1) 1 (q0 :: queries) run0)
    as [r2|] eqn:Hloop2; [|done].
  cbn [mbind result_bind] in Hmain1, Hmain2.
  destruct (main_loop_Ok _ _ _ _ _ _ Hloop1) as (dups1 & Hr1 & _).
  destruct (main_loop_Ok _ _ _ _ _ _ Hloop2) as (dups2 & Hr2 & _).
  assert (st1 = r1
          ∧ load_database fs1 = load_database fs ++ new_entries r1)
    as [-> Hdb1].
  { destruct (new_entries r1) as [|e new] eqn:Hnew.
    - injection Hmain1 as <- <-. by rewrite app_nil_r.
    - injection Hmain1 as <- <-. by rewrite load_save_database. }
  assert (new_entries r2 = []) as Hnone.
  { rewrite Hr2. cbn [new_entries run0 app].
    apply appended_entries_nil. intros i q url Hq Hdriver Hurl.
    rewrite Hdb1, is_duplicate_app.
    destruct (is_duplicate (load_database fs) url) eqn:Hdup; [done|].
    cbn [orb].
    destruct (Hids _ _ _ Hdriver) as (id & Hid & Hne).
    { by apply str_truthy_true. }
    rewrite Hid. apply str_truthy_true in Hne. rewrite Hne. cbn [andb].
    apply existsb_exists. exists (result_obj q url). split.
    - apply list_elem_of_In. rewrite Hr1. cbn [new_entries run0 app].
      by apply (appended_entries_mem _ _ 1 i).
    - rewrite has_video_id_result_obj. by apply bool_decide_eq_true. }
  rewrite Hnone in Hmain2. injection Hmain2 as <- <-. done.
Qed.

End discovery_more.

(** ** The input file of the discovery run *)

Section read_lines_props.
Import update_db_from_txt.

Lemma string_forall_app (p : ascii → bool) (a b : string) :
  string_forall p (a +:+ b) = string_forall p a && string_forall p b.
Proof.
  induction a as [|c a IH]; [done|].
  change (String c a +:+ b) with (String c (a +:+ b)). simpl.
  by rewrite IH, andb_assoc.
Qed.

Lemma string_forall_impl (p q : ascii → bool) (s : string) :
  (∀ c, p c = true → q c = true) →
  string_forall p s = true → string_forall q s = true.
Proof.
  intros Hpq. induction s as [|c s IH]; [done|]. simpl.
  intros [Hc Hs]%andb_true_iff. apply andb_true_iff. auto.
Qed.

Lemma lstrip_suffix (s : string) :
  ∃ pre, s = pre +:+ py_str.lstrip s ∧ string_forall py_str.isspace pre = true.
Proof.
  induction s as [|c s (pre & Hs & Hpre)]; [by exists ""|]. simpl.
  destruct (py_str.isspace c) eqn:Hc.
  - exists (String c pre). split.
    + change (String c pre +:+ py_str.lstrip s)
        with (String c (pre +:+ py_str.lstrip s)). by rewrite <- Hs.
    + simpl. by rewrite Hc.
  - by exists "".
Qed.

Lemma lstrip_head (s : string) :
  match py_str.lstrip s with
  | EmptyString => True
  | String c _ => py_str.isspace c = false
  end.
Proof.
  induction s as [|c s IH]; [done|]. simpl.
  by destruct (py_str.isspace c) eqn:Hc.
Qed.

Lemma lstrip_empty (s : string) : py_str.lstrip s = "" ↔ blank s.
Proof.
  unfold blank. induction s as [|c s IH]; [done|]. simpl.
  destruct (py_str.isspace c); [done|]. split; done.
Qed.

Lemma rstrip_empty (s : string) : py_str.rstrip s = "" ↔ blank s.
Proof.
  unfold blank. induction s as [|c s IH]; [done|]. simpl.
  destruct (py_str.rstrip s) eqn:Hr.
  - destruct (py_str.isspace c); [|split; done].
    simpl. by rewrite <- IH.
  - split; [done|]. intros [_ Hs]%andb_true_iff. apply IH in Hs. done.
Qed.

Lemma strip_empty (s : string) : py_str.strip s = "" ↔ blank s.
Proof.
  unfold py_str.strip. rewrite rstrip_empty. split.
  - intros Hb. apply lstrip_empty.
    pose proof (lstrip_head s) as Hh.
    destruct (py_str.lstrip s) as [|c r]; [done|].
    unfold blank in Hb. simpl in Hb. by rewrite Hh in Hb.
  - intros Hb. apply lstrip_empty in Hb. by rewrite Hb.
Qed.


Lemma lstrip_id (s : string) :
  match s with
  | EmptyString => True
  | String c _ => py_str.isspace c = false
  end → py_str.lstrip s = s.
Proof. destruct s as [|c s]; [done|]. simpl. by intros ->. Qed.

Lemma rstrip_cons (c : ascii) (s : string) :
  py_str.isspace c = false → ∃ r, py_str.rstrip (String c s) = String c r.
Proof. intros Hc. simpl. rewrite Hc. destruct (py_str.rstrip s); by eexists. Qed.

Lemma rstrip_idemp (s : string) :
  py_str.rstrip (py_str.rstrip s) = py_str.rstrip s.
Proof.
  induction s as [|c s IH]; [done|]. simpl.
  destruct (py_str.rstrip s) as [|a r] eqn:Hr.
  - destruct (py_str.isspace c) eqn:Hc; [done|]. simpl. by rewrite Hc.
  - change (py_str.rstrip (String c (String a r)))
      with (match py_str.rstrip (String a r) with
            | EmptyString =>
                if py_str.isspace c then EmptyString else String c EmptyString
            | r' => String c r'
            end).
    by rewrite IH.
Qed.

Lemma strip_head (s : string) :
  match py_str.strip s with
  | EmptyString => True
  | String c _ => py_str.isspace c = false
  end.
Proof.
  unfold py_str.strip. pose proof (lstrip_head s) as Hh.
  destruct (py_str.lstrip s) as [|c r]; [done|].
  destruct (rstrip_cons c r Hh) as [r' ->]. done.
Qed.

Lemma strip_idemp (s : string) : py_str.strip (py_str.strip s) = py_str.strip s.
Proof.
  unfold py_str.strip at 1. rewrite (lstrip_id _ (strip_head s)).
  unfold py_str.strip. apply rstrip_idemp.
Qed.

Lemma lf_only_last_app (a b : string) :
  lf_only_last (a +:+ b) = true → lf_only_last b = true.
Proof.
  induction a as [|c a IH]; [done|].
  change (String c a +:+ b) with (String c (a +:+ b)).
  cbn [lf_only_last]. destruct (a +:+ b) as [|x r] eqn:Hab.
  - destruct a; [|done]. change (b = "") in Hab. by subst b.
  - intros [_ Hr]%andb_true_iff. by apply IH.
Qed.

Lemma rstrip_no_line_break (s : string) :
  string_forall (λ c, negb (is_cr c)) s = true →
  lf_only_last s = true →
  string_forall (λ c, negb (is_cr c || is_lf c)) (py_str.rstrip s) = true.
Proof.
  induction s as [|c s IH]; [done|]. cbn [string_forall lf_only_last].
  intros [Hc Hs]%andb_true_iff Hlf.
  assert (lf_only_last s = true) as Hlf'.
  { destruct s; [done|]. by apply andb_true_iff in Hlf as [_ ?]. }
  specialize (IH Hs Hlf'). simpl.
  destruct (py_str.rstrip s) as [|a r] eqn:Hr.
  - destruct (py_str.isspace c) eqn:Hsp; [done|]. simpl.
    rewrite andb_true_r. apply negb_true_iff, orb_false_iff.
    split; [by apply negb_true_iff|].
    unfold is_lf. destruct (Ascii.eqb_spec c "010") as [->|]; done.
  - cbn [string_forall]. apply andb_true_iff. split; [|done].
    destruct s as [|x s']; [done|].
    apply andb_true_iff in Hlf as [Hlf _].
    apply negb_true_iff, orb_false_iff.
    split; by apply negb_true_iff.
Qed.

(** Induction on a text, two characters at a time. *)
Lemma string_ind2 (P : string → Prop) :
  P "" → (∀ c, P (String c "")) →
  (∀ c c' s, P s → P (String c' s) → P (String c (String c' s))) →
  ∀ s, P s.
Proof.
  intros H0 H1 H2 s.
  assert (P s ∧ ∀ c, P (String c s)) as [? _]; [|done].
  induction s as [|c s [IH1 IH2]]; [by split|].
  split; [apply IH2|]. intros c'. apply H2; [done|apply IH2].
Qed.

Lemma translate_newlines_no_cr (s : string) :
  string_forall (λ c, negb (is_cr c)) (py_str.translate_newlines s) = true.
Proof.
  induction s as [|c|c c' s IH1 IH2] using string_ind2.
  - done.
  - simpl. unfold is_cr. by destruct (Ascii.eqb c "013") eqn:Hc; simpl; rewrite ?Hc.
  - cbn [py_str.translate_newlines]. unfold is_cr.
    destruct (Ascii.eqb c "013") eqn:Hc.
    + destruct (Ascii.eqb c' "010"); cbn [string_forall]; by apply andb_true_iff.
    + cbn [string_forall]. apply andb_true_iff. split; [by rewrite Hc|done].
Qed.

Lemma translate_newlines_blank (s : string) :
  blank (py_str.translate_newlines s) ↔ blank s.
Proof.
  unfold blank.
  induction s as [|c|c c' s IH1 IH2] using string_ind2.
  - done.
  - simpl. destruct (Ascii.eqb_spec c "013") as [->|]; done.
  - cbn [py_str.translate_newlines].
    destruct (Ascii.eqb_spec c "013") as [->|].
    + destruct (Ascii.eqb_spec c' "010") as [->|].
      * cbn [string_forall]. rewrite !andb_true_iff. rewrite IH1.
        split; [intros [_ ?]; by split_and!|intros (_ & _ & ?); by split].
      * cbn [string_forall] in *. rewrite !andb_true_iff in *. rewrite IH2.
        done.
    + cbn [string_forall] in *. rewrite !andb_true_iff in *. by rewrite IH2.
Qed.

Lemma lines_forall (p : ascii → bool) (s : string) :
  string_forall p s = true ↔
  Forall (λ ln, string_forall p ln = true) (py_str.lines s).
Proof.
  induction s as [|c s IH]; [done|]. simpl.
  destruct (Ascii.eqb c "010").
  - rewrite Forall_cons, andb_true_iff, IH. simpl. by rewrite andb_true_r.
  - destruct (py_str.lines s) as [|ln lns].
    + rewrite Forall_singleton, andb_true_iff, IH. simpl.
      rewrite andb_true_r. split; [by intros [? _]|by split].
    + rewrite Forall_cons, andb_true_iff, IH, Forall_cons. simpl.
      rewrite andb_true_iff. tauto.
Qed.

Lemma lines_lf_only_last (s : string) :
  Forall (λ ln, lf_only_last ln = true) (py_str.lines s).
Proof.
  induction s as [|c s IH]; [done|]. simpl.
  destruct (Ascii.eqb c "010") eqn:Hc; [by constructor|].
  destruct (py_str.lines s) as [|ln lns]; [by constructor|].
  apply Forall_cons in IH as [Hln Hlns]. constructor; [|done].
  cbn [lf_only_last]. destruct ln; [done|].
  apply andb_true_iff. split; [|done]. unfold is_lf. by rewrite Hc.
Qed.

Lemma strip_no_line_break (ln : string) :
  string_forall (λ c, negb (is_cr c)) ln = true →
  lf_only_last ln = true →
  string_forall (λ c, negb (is_cr c || is_lf c)) (py_str.strip ln) = true.
Proof.
  intros Hcr Hlf. unfold py_str.strip.
  destruct (lstrip_suffix ln) as (pre & Hln & _).
  rewrite Hln in Hcr, Hlf.
  rewrite string_forall_app in Hcr. apply andb_true_iff in Hcr as [_ Hcr].
  apply lf_only_last_app in Hlf. by apply rstrip_no_line_break.
Qed.

(** X11. The queries that [read_lines] returns: no query is empty, none
    has whitespace at its ends, and none holds an end of line. *)
Theorem read_lines_queries (in_txt : string) :
  Forall is_query (read_lines in_txt).
Proof.
  unfold read_lines. apply Forall_forall. intros q Hq.
  apply list_elem_of_fmap in Hq as (ln & -> & Hln).
  apply list_elem_of_filter in Hln as [Htruthy Hln].
  split_and!.
  - by apply str_truthy_true.
  - apply strip_idemp.
  - pose proof (translate_newlines_no_cr in_txt) as Hcr.
    apply lines_forall in Hcr.
    apply strip_no_line_break.
    + exact (proj1 (Forall_forall _ _) Hcr ln Hln).
    + exact (proj1 (Forall_forall _ _) (lines_lf_only_last _) ln Hln).
Qed.


Lemma translate_newlines_app (a b : string) :
  string_forall (λ c, negb (is_cr c)) a = true →
  py_str.translate_newlines (a +:+ b) = a +:+ py_str.translate_newlines b.
Proof.
  induction a as [|c a IH]; [done|]. cbn [string_forall].
  intros [Hc Ha]%andb_true_iff. apply negb_true_iff in Hc. unfold is_cr in Hc.
  change (String c a +:+ b) with (String c (a +:+ b)).
  change (String c a +:+ py_str.translate_newlines b)
    with (String c (a +:+ py_str.translate_newlines b)).
  cbn [py_str.translate_newlines]. rewrite Hc. by rewrite IH.
Qed.

Lemma lines_app_lf (a b : string) :
  string_forall (λ c, negb (is_lf c)) a = true →
  py_str.lines (a +:+ String "010" b) = (a +:+ String "010" "") :: py_str.lines b.
Proof.
  induction a as [|c a IH]; [done|]. cbn [string_forall].
  intros [Hc Ha]%andb_true_iff. apply negb_true_iff in Hc. unfold is_lf in Hc.
  change (String c a +:+ String "010" b) with (String c (a +:+ String "010" b)).
  cbn [py_str.lines]. rewrite Hc. by rewrite IH.
Qed.

Lemma lines_single (a : string) :
  string_forall (λ c, negb (is_lf c)) a = true → a ≠ "" →
  py_str.lines a = [a].
Proof.
  induction a as [|c a IH]; [done|]. cbn [string_forall].
  intros [Hc Ha]%andb_true_iff _. apply negb_true_iff in Hc. unfold is_lf in Hc.
  cbn [py_str.lines]. rewrite Hc.
  destruct a as [|c' a]; [done|]. by rewrite IH.
Qed.

Lemma rstrip_app_space (a : string) (c : ascii) :
  py_str.isspace c = true →
  py_str.rstrip (a +:+ String c "") = py_str.rstrip a.
Proof.
  intros Hc. induction a as [|x a IH]; [by simpl; rewrite Hc|].
  change (String x a +:+ String c "") with (String x (a +:+ String c "")).
  cbn [py_str.rstrip]. by rewrite IH.
Qed.

Lemma is_query_head (q : string) :
  is_query q → ∃ c r, q = String c r ∧ py_str.isspace c = false.
Proof.
  intros (Hne & Hstrip & _). pose proof (strip_head q) as Hh.
  rewrite Hstrip in Hh. destruct q as [|c r]; [done|]. eauto.
Qed.

Lemma is_query_rstrip (q : string) : is_query q → py_str.rstrip q = q.
Proof.
  intros Hq. destruct (is_query_head q Hq) as (c & r & -> & Hc).
  destruct Hq as (_ & Hstrip & _). unfold py_str.strip in Hstrip.
  by rewrite (lstrip_id (String c r) Hc) in Hstrip.
Qed.

Lemma is_query_no_cr (q : string) :
  is_query q → string_forall (λ c, negb (is_cr c)) q = true.
Proof.
  intros (_ & _ & Hq). revert Hq. apply string_forall_impl.
  intros c. by destruct (is_cr c).
Qed.

Lemma is_query_no_lf (q : string) :
  is_query q → string_forall (λ c, negb (is_lf c)) q = true.
Proof.
  intros (_ & _ & Hq). revert Hq. apply string_forall_impl.
  intros c. destruct (is_lf c); [|done]. by rewrite orb_true_r.
Qed.

Lemma strip_query_lf (q : string) :
  is_query q → py_str.strip (q +:+ String "010" "") = q.
Proof.
  intros Hq. destruct (is_query_head q Hq) as (c & r & Heq & Hc).
  unfold py_str.strip. rewrite lstrip_id.
  - rewrite rstrip_app_space by done. by apply is_query_rstrip.
  - by rewrite Heq.
Qed.

Lemma read_lines_cons (q rest : string) :
  is_query q →
  read_lines (q +:+ String "010" rest) = q :: read_lines rest
  ∧ read_lines (q +:+ String "013" (String "010" rest)) = q :: read_lines rest.
Proof.
  intros Hq.
  assert (∀ t, map py_str.strip
                 (filter (λ ln, str_truthy (py_str.strip ln) = true)
                    (py_str.lines (q +:+ String "010" t)))
               = q :: map py_str.strip
                   (filter (λ ln, str_truthy (py_str.strip ln) = true)
                      (py_str.lines t))) as Hlines.
  { intros t. rewrite lines_app_lf by by apply is_query_no_lf.
    rewrite filter_cons_True.
    - cbn [map]. by rewrite strip_query_lf.
    - rewrite strip_query_lf by done. apply str_truthy_true. by destruct Hq. }
  unfold read_lines. split.
  - rewrite translate_newlines_app by by apply is_query_no_cr.
    change (py_str.translate_newlines (String "010" rest))
      with (String "010" (py_str.translate_newlines rest)).
    apply Hlines.
  - rewrite translate_newlines_app by by apply is_query_no_cr.
    change (py_str.translate_newlines (String "013" (String "010" rest)))
      with (String "010" (py_str.translate_newlines rest)).
    apply Hlines.
Qed.

Lemma read_lines_single (q : string) : is_query q → read_lines q = [q].
Proof.
  intros Hq. unfold read_lines.
  replace (py_str.translate_newlines q) with q.
  - rewrite lines_single; [|by apply is_query_no_lf|by destruct Hq].
    destruct Hq as (Hne & Hstrip & _).
    rewrite filter_cons_True; [by cbn [map filter]; rewrite Hstrip|].
    rewrite Hstrip. by apply str_truthy_true.
  - pose proof (translate_newlines_app q "" (is_query_no_cr q Hq)) as Happ.
    assert (∀ a : string, a +:+ "" = a) as Hnil.
    { intros a. induction a as [|x a IH]; [done|].
      change (String x a +:+ "") with (String x (a +:+ "")). by rewrite IH. }
    by rewrite !Hnil in Happ.
Qed.

(** X12. Writing ASCII queries to a file, one per line, and reading the
    file gives the queries back, with the line ends of Unix and with those
    of Windows, and with or without an end of line after the last query.
    (A query that is not ASCII can end in whitespace that [str.strip]
    takes away and [py_str.strip] does not: the statement is on ASCII
    queries.) *)
Theorem read_lines_join (sep : string) (queries : list string) :
  sep = String "010" "" ∨ sep = String "013" (String "010" "") →
  Forall is_ascii queries →
  Forall is_query queries →
  read_lines (py_str.join sep queries) = queries
  ∧ read_lines (py_str.join sep queries +:+ sep) = queries.
Proof.
  intros Hsep _ Hqs.
  assert (∀ q rest, is_query q →
            read_lines (q +:+ sep +:+ rest) = q :: read_lines rest) as Hcons.
  { intros q rest Hq. destruct (read_lines_cons q rest Hq) as [H1 H2].
    destruct Hsep as [-> | ->]; [exact H1|exact H2]. }
  assert (read_lines sep = []) as Hlast.
  { destruct Hsep as [-> | ->]; by vm_compute. }
  induction Hqs as [|q queries Hq Hqs [IH1 IH2]].
  { split; [done|]. by destruct Hsep as [-> | ->]. }
  destruct queries as [|q' queries].
  - cbn [py_str.join]. split; [by apply read_lines_single|].
    replace (q +:+ sep) with (q +:+ sep +:+ "").
    + by rewrite Hcons.
    + destruct Hsep as [-> | ->]; done.
  - change (py_str.join sep (q :: q' :: queries))
      with (q +:+ sep +:+ py_str.join sep (q' :: queries)).
    split; [by rewrite Hcons, IH1|].
    replace ((q +:+ sep +:+ py_str.join sep (q' :: queries)) +:+ sep)
      with (q +:+ sep +:+ (py_str.join sep (q' :: queries) +:+ sep)).
    + by rewrite Hcons, IH2.
    + assert (∀ a b c : string, (a +:+ b) +:+ c = a +:+ b +:+ c) as Hassoc.
      { intros a b c. induction a as [|x a IH]; [done|].
        change (String x a +:+ b) with (String x (a +:+ b)).
        change (String x (a +:+ b) +:+ c) with (String x ((a +:+ b) +:+ c)).
        by rewrite IH. }
      by rewrite !Hassoc.
Qed.

Lemma lines_blank (s : string) :
  blank s ↔ Forall blank (py_str.lines s).
Proof. apply lines_forall. Qed.

Lemma read_lines_nil (in_txt : string) : read_lines in_txt = [] ↔ blank in_txt.
Proof.
  rewrite <- translate_newlines_blank, lines_blank. unfold read_lines.
  induction (py_str.lines (py_str.translate_newlines in_txt)) as [|ln lns IH].
  { split; [by constructor|done]. }
  rewrite Forall_cons, <- IH, <- strip_empty.
  destruct (str_truthy (py_str.strip ln)) eqn:Hln.
  - rewrite filter_cons_True by done. split; [done|].
    intros [Hb _]. apply str_truthy_true in Hln. done.
  - rewrite filter_cons_False by by rewrite Hln.
    split; [|by intros [_ ?]]. intros Hnil. split; [|done].
    unfold str_truthy in Hln. apply negb_false_iff in Hln.
    by apply String.eqb_eq in Hln.
Qed.

(** X13. Among the ASCII input files, a file of whitespace only (no
    character at all, blank lines) is the only one without a query, and on
    it the run ends with the exit code 2, whatever the searches would
    return and whatever the store holds; a run that completes had an input
    that is not blank, and processed as many queries as [read_lines]
    returned. (The whitespace of [blank] is the ASCII whitespace: the
    statement is on ASCII files.) *)
Theorem blank_input_exits `{JsonCodec} `{UrlLib} (in_txt : string) :
  is_ascii in_txt →
  (blank in_txt ↔ read_lines in_txt = [])
  ∧ (blank in_txt →
       ∀ driver fs, main_in_txt driver in_txt fs = Raise (SystemExit 2))
  ∧ (∀ driver fs fs' st, main_in_txt driver in_txt fs = Ok (fs', st) →
       ¬ blank in_txt ∧ processed_count st = length (read_lines in_txt)).
Proof.
  intros _. split_and!.
  - by rewrite read_lines_nil.
  - intros Hb driver fs. apply read_lines_nil in Hb.
    unfold main_in_txt. by rewrite Hb.
  - intros driver fs fs' st Hmain. unfold main_in_txt, main in Hmain.
    rewrite <- read_lines_nil.
    destruct (read_lines in_txt) as [|q queries]; [done|]. split; [done|].
    cbn zeta in Hmain.
    destruct (main_loop driver (load_database fs) 1 (q :: queries) run0)
      as [st1|] eqn:Hloop; [|done].
    cbn [mbind result_bind] in Hmain.
    destruct (main_loop_Ok _ _ _ _ _ _ Hloop) as (dups & Hst1 & _).
    assert (st = st1) as ->.
    { destruct (new_entries st1); by simplify_eq/=. }
    by rewrite Hst1.
Qed.

End read_lines_props.

(** ** The search of the discovery run *)

Section search_props.
Import update_db_from_txt.

Lemma append_assoc (a b c : string) : (a +:+ b) +:+ c = a +:+ b +:+ c.
Proof.
  induction a as [|x a IH]; [done|].
  change (String x a +:+ b) with (String x (a +:+ b)).
  change (String x (a +:+ b) +:+ c) with (String x ((a +:+ b) +:+ c)).
  by rewrite IH.
Qed.

Lemma append_nil_r (a : string) : a +:+ "" = a.
Proof.
  induction a as [|x a IH]; [done|].
  change (String x a +:+ "") with (String x (a +:+ "")). by rewrite IH.
Qed.

Lemma prefix_spec (sub s : string) :
  String.prefix sub s = true ↔ ∃ b, s = sub +:+ b.
Proof.
  revert s. induction sub as [|c sub IH]; intros s.
  { split; [intros _; by exists s|intros _; by destruct s]. }
  destruct s as [|x s]; simpl.
  { split; [done|]. intros [b Hb].
    change (String c sub +:+ b) with (String c (sub +:+ b)) in Hb. done. }
  destruct (Ascii.ascii_dec c x) as [->|Hne].
  - rewrite IH. split; intros [b Hb]; exists b.
    + change (String x sub +:+ b) with (String x (sub +:+ b)). by rewrite Hb.
    + change (String x sub +:+ b) with (String x (sub +:+ b)) in Hb.
      by injection Hb.
  - split; [done|]. intros [b Hb].
    change (String c sub +:+ b) with (String c (sub +:+ b)) in Hb.
    injection Hb as Hx _. by destruct Hne.
Qed.

(** [sub in s] is the presence of [sub] in [s]. *)
Lemma contains_spec (sub s : string) :
  py_str.contains sub s = true ↔ ∃ a b, s = a +:+ sub +:+ b.
Proof.
  induction s as [|x s IH]; cbn [py_str.contains].
  - rewrite orb_false_r, prefix_spec. split.
    + intros [b Hb]. by exists "", b.
    + intros (a & b & Hab). destruct a as [|y a]; [by exists b|done].
  - rewrite orb_true_iff, prefix_spec, IH. split.
    + intros [[b Hb]|(a & b & Hab)]; [by exists "", b|].
      exists (String x a), b.
      change (String x a +:+ sub +:+ b) with (String x (a +:+ sub +:+ b)).
      by rewrite Hab.
    + intros (a & b & Hab). destruct a as [|y a]; [left; by exists b|].
      right. exists a, b.
      change (String y a +:+ sub +:+ b) with (String y (a +:+ sub +:+ b)) in Hab.
      by injection Hab.
Qed.

Lemma first_watch_href_Some (items : list (option string)) (url : string) :
  first_watch_href items = Some url →
  py_str.contains "/watch" url = true
  ∧ ∃ i, items !! i = Some (Some url)
      ∧ ∀ j h, (j < i)%nat → items !! j = Some (Some h) →
          py_str.contains "/watch" h = false.
Proof.
  induction items as [|a items IH]; [done|]. simpl.
  destruct a as [href|].
  - destruct (str_truthy href && py_str.contains "/watch" href) eqn:Hhref.
    + intros [= ->]. apply andb_true_iff in Hhref as [_ Hc].
      split; [done|]. exists 0%nat. split; [done|]. intros; lia.
    + intros (Hc & i & Hi & Hfirst)%IH. split; [done|]. exists (S i).
      split; [done|]. intros [|j] h Hj Hh.
      * injection Hh as ->. apply andb_false_iff in Hhref as [Ht|?]; [|done].
        unfold str_truthy in Ht. apply negb_false_iff, String.eqb_eq in Ht.
        by subst h.
      * apply (Hfirst j); [lia|done].
  - intros (Hc & i & Hi & Hfirst)%IH. split; [done|]. exists (S i).
    split; [done|]. intros [|j] h Hj Hh; [done|].
    apply (Hfirst j); [lia|done].
Qed.

Lemma first_watch_href_None (items : list (option string)) :
  first_watch_href items = None →
  ∀ h, Some h ∈ items → py_str.contains "/watch" h = false.
Proof.
  induction items as [|a items IH]; [by intros _ h ?%elem_of_nil|]. simpl.
  destruct a as [href|].
  - destruct (str_truthy href && py_str.contains "/watch" href) eqn:Hhref;
      [done|].
    intros Hnone h [[= ->]|Hin]%elem_of_cons; [|by apply IH].
    apply andb_false_iff in Hhref as [Ht|?]; [|done].
    unfold str_truthy in Ht. apply negb_false_iff, String.eqb_eq in Ht.
    by rewrite Ht.
  - intros Hnone h [?|Hin]%elem_of_cons; [done|by apply IH].
Qed.

Lemma search_Some (b : search) (url : string) :
  search_query_and_get_first_url b = Ok (Some url) →
  ∃ items, page b = VideoTitles items ∧ first_watch_href items = Some url.
Proof.
  unfold search_query_and_get_first_url. intros Hs.
  destruct (match get b with
            | Raise WebDriverException => get_again b
            | r => r
            end) as [[]|]; [|done].
  cbn [mbind result_bind] in Hs. destruct (consent b) as [[]|]; [|done].
  cbn [mbind result_bind] in Hs. unfold first_video_url_from_results in Hs.
  destruct (page b) as [| | |items]; simplify_eq/=. eauto.
Qed.

(** X14. How a search ends. A URL that is returned is the href of the
    first video title of the results page that holds the text /watch (so it
    is not empty); no URL is returned when the results did not come up or
    no title has such a href; the search raises when [driver.get] fails
    with another exception than [WebDriverException], or fails twice, or
    when the consent step or the page raises: one failure of [driver.get]
    with [WebDriverException] is absorbed by the second call. *)
Theorem search_outcome (b : search) :
  match search_query_and_get_first_url b with
  | Ok (Some url) =>
      (∃ a c, url = a +:+ "/watch" +:+ c) ∧ url ≠ ""
      ∧ ∃ items i,
          page b = VideoTitles items ∧ items !! i = Some (Some url)
          ∧ ∀ j h, (j < i)%nat → items !! j = Some (Some h) →
              ¬ ∃ a c, h = a +:+ "/watch" +:+ c
  | Ok None =>
      page b = NoItemSection ∨ page b = NoSuchElement
      ∨ ∃ items, page b = VideoTitles items
          ∧ ∀ h, Some h ∈ items → ¬ ∃ a c, h = a +:+ "/watch" +:+ c
  | Raise e =>
      (get b = Raise e ∧ e ≠ WebDriverException)
      ∨ (get b = Raise WebDriverException ∧ get_again b = Raise e)
      ∨ consent b = Raise e
      ∨ page b = PageError e
  end.
Proof.
  destruct (search_query_and_get_first_url b) as [[url|]|e] eqn:Hs.
  - destruct (search_Some b url Hs) as (items & Hpage & Hfirst).
    destruct (first_watch_href_Some items url Hfirst) as (Hc & i & Hi & Hj).
    pose proof (proj1 (contains_spec _ _) Hc) as (a & c & Hurl).
    split; [by exists a, c|]. split.
    { intros ->. by destruct a. }
    exists items, i. split_and!; [done|done|].
    intros j h Hlt Hh Hsub. apply contains_spec in Hsub.
    by rewrite (Hj j h Hlt Hh) in Hsub.
  - unfold search_query_and_get_first_url in Hs.
    destruct (match get b with
              | Raise WebDriverException => get_again b
              | r => r
              end) as [[]|]; [|done].
    cbn [mbind result_bind] in Hs. destruct (consent b) as [[]|]; [|done].
    cbn [mbind result_bind] in Hs. unfold first_video_url_from_results in Hs.
    destruct (page b) as [| | |items]; simplify_eq/=; auto.
    right. right. exists items. split; [done|].
    intros h Hin Hsub. apply contains_spec in Hsub.
    by rewrite (first_watch_href_None items Hs h Hin) in Hsub.
  - unfold search_query_and_get_first_url in Hs.
    destruct (get b) as [[]|e1] eqn:Hget.
    + cbn [mbind result_bind] in Hs.
      destruct (consent b) as [[]|e2]; [|simplify_eq/=; auto].
      cbn [mbind result_bind] in Hs. unfold first_video_url_from_results in Hs.
      destruct (page b); simplify_eq/=; auto.
    + assert (e1 = WebDriverException ∨ e1 ≠ WebDriverException) as [->|Hne].
      { destruct e1; auto. }
      * destruct (get_again b) as [[]|e2]; [|simplify_eq/=; auto].
        cbn [mbind result_bind] in Hs.
        destruct (consent b) as [[]|e3]; [|simplify_eq/=; auto].
        cbn [mbind result_bind] in Hs.
        unfold first_video_url_from_results in Hs.
        destruct (page b); simplify_eq/=; auto.
      * left. destruct e1; simplify_eq/=; done.
Qed.

(** X15. In a discovery run that searches with
    [search_query_and_get_first_url], the url of every new record holds
    the text /watch, and its title is a query of the run. *)
Theorem new_records_are_watch_links `{JsonCodec} `{UrlLib}
    (browser : nat → string → search) (queries : list string)
    (fs fs' : fsys) (st : run) :
  main (λ idx query, search_query_and_get_first_url (browser idx query))
    queries fs = Ok (fs', st) →
  Forall (λ e : entry, ∃ q url a c,
            q ∈ queries ∧ e = result_obj q url
            ∧ url = a +:+ "/watch" +:+ c) (new_entries st).
Proof.
  intros Hmain. unfold main in Hmain.
  destruct queries as [|q0 queries]; [done|]. cbn zeta in Hmain.
  match type of Hmain with
  | context [main_loop ?d ?db 1 ?qs run0] =>
      destruct (main_loop d db 1 qs run0) as [st1|] eqn:Hloop; [|done]
  end.
  cbn [mbind result_bind] in Hmain.
  assert (st = st1) as ->.
  { destruct (new_entries st1); by simplify_eq/=. }
  destruct (main_loop_Ok _ _ _ _ _ _ Hloop) as (dups & -> & _).
  cbn [new_entries run0 app]. apply Forall_forall. intros e He.
  apply appended_entries_shape in He as (i & q & url & Hq & Hdriver & _ & ->).
  destruct (search_Some _ _ Hdriver) as (items & _ & Hfirst).
  destruct (first_watch_href_Some items url Hfirst) as (Hc & _).
  apply contains_spec in Hc as (a & c & Hurl).
  exists q, url, a, c. split_and!; [|done|done].
  by eapply list_elem_of_lookup_2.
Qed.

End search_props.

(** ** The store under the three tools *)

Section manage_database_props.
Import manage_database.
Context `{JsonCodec}.

Lemma manage_load_save (data : store) (fs : fsys) :
  codec_roundtrip → load_database (save_database data fs) = data.
Proof. intros Hrt. unfold load_database, save_database. simpl. by rewrite Hrt. Qed.

(** What a call of [update_project] does, case by case. *)
Lemma update_project_cases (entry_num : option Z) (new_project : string)
    (fs : fsys) :
  update_project entry_num new_project fs = fs
  ∨ ∃ pos e,
      entry_num = Some (Z.of_nat pos + 1)%Z
      ∧ load_database fs !! pos = Some e
      ∧ py_str.strip new_project ≠ ""
      ∧ update_project entry_num new_project fs
        = save_database
            (<[pos := <["project" := JStr (py_str.strip new_project)]> e]>
               (load_database fs)) fs.
Proof.
  unfold update_project. cbn zeta.
  destruct (load_database fs) as [|e0 db] eqn:Hdb; [by left|].
  destruct entry_num as [n|]; [|by left].
  case_bool_decide; [by left|]. case_bool_decide as Hrange; [|by left].
  destruct ((e0 :: db) !! Z.to_nat (n - 1)) as [e|] eqn:He; [|by left].
  destruct (str_truthy (py_str.strip new_project)) eqn:Hnew; [|by left].
  right. exists (Z.to_nat (n - 1)), e. split_and!; [|done| |done].
  - f_equal. lia.
  - by apply str_truthy_true.
Qed.

(** X16. With an ASCII text typed as the new project, [update_project]
    changes at most the project of the record whose number was typed, and
    only to a text that is not empty and has no whitespace at its ends: the
    records are as many, at their positions, and all their other fields
    are as they were; the file is written once, or left as it was. (On a
    text that is not ASCII, [str.strip] also takes the Unicode whitespace
    away: the statement is on ASCII texts.) *)
Theorem update_project_frame (entry_num : option Z) (new_project : string)
    (fs : fsys) :
  codec_roundtrip →
  is_ascii new_project →
  let fs' := update_project entry_num new_project fs in
  length (load_database fs') = length (load_database fs)
  ∧ (∀ pos e, load_database fs !! pos = Some e →
       ∃ e', load_database fs' !! pos = Some e'
         ∧ (∀ k, k ≠ "project" → e' !! k = e !! k)
         ∧ (e' = e
            ∨ entry_num = Some (Z.of_nat pos + 1)%Z
              ∧ e' !! "project" = Some (JStr (py_str.strip new_project))
              ∧ py_str.strip new_project ≠ ""
              ∧ py_str.strip (py_str.strip new_project)
                = py_str.strip new_project))
  ∧ (fs' = fs ∨ ∃ text, db_file fs' = Some text
                        ∧ write_log fs' = write_log fs ++ [text]).
Proof.
  intros Hrt _ fs'. subst fs'.
  destruct (update_project_cases entry_num new_project fs)
    as [->|(p & e0 & Hnum & Hp & Hnew & ->)].
  { split; [done|]. split; [|by left]. intros pos e Hpos. exists e. auto. }
  rewrite manage_load_save by done. split_and!.
  - by rewrite length_insert.
  - intros pos e Hpos. destruct (decide (pos = p)) as [->|Hne].
    + assert (e = e0) as -> by congruence.
      exists (<["project" := JStr (py_str.strip new_project)]> e0).
      split_and!.
      * apply list_lookup_insert_eq. by eapply lookup_lt_Some.
      * intros k Hk. by rewrite lookup_insert_ne.
      * right. split_and!; [done|by rewrite lookup_insert_eq|done|].
        apply strip_idemp.
    + exists e. rewrite list_lookup_insert_ne by done. auto.
  - right. eexists. split; [done|]. done.
Qed.

Lemma lower_idemp (s : string) : py_str.lower (py_str.lower s) = py_str.lower s.
Proof.
  induction s as [|c s IH]; [done|]. simpl. rewrite IH. f_equal.
  by destruct c as [[] [] [] [] [] [] [] []].
Qed.

Lemma found_entries_lower (name1 name2 : string) (db : store) :
  py_str.lower name1 = py_str.lower name2 →
  found_entries name1 db = found_entries name2 db.
Proof.
  intros Hlow. induction db as [|e db IH]; [done|]. simpl.
  by rewrite IH, Hlow.
Qed.

Lemma found_entries_Ok (name : string) (db : store) (found : list entry) :
  found_entries name db = Ok found →
  found = List.filter
            (λ e, match default (JStr "") (e !! "project") with
                  | JStr project =>
                      py_str.contains (py_str.lower name) (py_str.lower project)
                  | _ => false
                  end) db
  ∧ Forall (λ e : entry, ∃ project,
              default (JStr "") (e !! "project") = JStr project) db.
Proof.
  revert found. induction db as [|e db IH]; intros found.
  { intros [= <-]. by split. }
  simpl. destruct (default (JStr "") (e !! "project")) as [| |project] eqn:He;
    try done.
  destruct (found_entries name db) as [found'|]; [|done].
  cbn [mbind result_bind]. intros [= <-].
  destruct (IH found' eq_refl) as [-> Hall]. split.
  - done.
  - constructor; [by eexists|done].
Qed.

Lemma found_entries_complete (name : string) (db : store) :
  Forall (λ e : entry, ∃ project,
            default (JStr "") (e !! "project") = JStr project) db →
  is_Ok (found_entries name db).
Proof.
  induction 1 as [|e db [project He] _ [found IH]]; [by eexists|].
  simpl. rewrite He, IH. by eexists.
Qed.

Lemma found_entries_Raise (name : string) (db : store) (ex : exn) :
  found_entries name db = Raise ex →
  ex = AttributeError
  ∧ ∃ e, e ∈ db ∧ ∃ v, e !! "project" = Some v ∧ ∀ s, v ≠ JStr s.
Proof.
  induction db as [|e db IH]; [done|]. simpl.
  destruct (e !! "project") as [v|] eqn:Hv; simpl.
  - destruct v as [|b|project].
    + intros [= <-]. split; [done|]. exists e. split; [by left|].
      by exists JNull.
    + intros [= <-]. split; [done|]. exists e. split; [by left|].
      by exists (JBool b).
    + destruct (found_entries name db) as [found'|ex'] eqn:Hrest; [done|].
      cbn [mbind result_bind]. intros [= <-].
      destruct (IH eq_refl) as (-> & e' & He' & Hv').
      split; [done|]. exists e'. split; [by right|done].
  - destruct (found_entries name db) as [found'|ex'] eqn:Hrest; [done|].
    cbn [mbind result_bind]. intros [= <-].
    destruct (IH eq_refl) as (-> & e' & He' & Hv').
    split; [done|]. exists e'. split; [by right|done].
Qed.

(** X17. [search_by_project] ignores the case of the letters and the
    whitespace around the name: two names with the same letters give the
    same result. The entries that are listed are entries of the store, in
    the order of the store, and their project holds the name, whatever the
    case; the call raises only when the project of an entry is not a
    string. *)
Theorem search_by_project_ignores_case (name1 name2 : string) (fs : fsys) :
  py_str.lower (py_str.strip name1) = py_str.lower (py_str.strip name2) →
  search_by_project name1 fs = search_by_project name2 fs
  ∧ match search_by_project name1 fs with
    | Ok found =>
        sublist found (load_database fs)
        ∧ Forall (λ e : entry, ∃ project a c,
                    e !! "project" = Some (JStr project)
                    ∧ py_str.lower project
                      = a +:+ py_str.lower (py_str.strip name1) +:+ c) found
    | Raise ex =>
        ex = AttributeError
        ∧ ∃ e, e ∈ load_database fs
            ∧ ∃ v, e !! "project" = Some v ∧ ∀ s, v ≠ JStr s
    end.
Proof.
  intros Hlow.
  assert (str_truthy (py_str.strip name1) = str_truthy (py_str.strip name2))
    as Htruthy.
  { unfold str_truthy. f_equal.
    destruct (py_str.strip name1) as [|c1 s1], (py_str.strip name2) as [|c2 s2];
      done. }
  split.
  - unfold search_by_project. cbn zeta. rewrite Htruthy.
    destruct (load_database fs); [done|].
    destruct (str_truthy (py_str.strip name2)); [|done].
    by apply found_entries_lower.
  - unfold search_by_project. cbn zeta.
    destruct (load_database fs) as [|e0 db] eqn:Hdb.
    { split; [done|by constructor]. }
    destruct (str_truthy (py_str.strip name1)) eqn:Hname.
    + destruct (found_entries (py_str.strip name1) (e0 :: db))
        as [found|ex] eqn:Hfound.
      * apply found_entries_Ok in Hfound as [-> Hall]. split.
        -- clear. induction (e0 :: db) as [|e l IH]; [done|]. simpl.
           destruct (match default (JStr "") (e !! "project") with
                     | JStr project => _
                     | _ => false
                     end); by constructor.
        -- apply Forall_forall. intros e He.
           apply list_elem_of_In, filter_In in He as [_ He].
           destruct (e !! "project") as [[| |project]|] eqn:Hp;
             simpl in He; try done.
           ++ apply contains_spec in He as (a & c & Heq). eauto.
           ++ apply str_truthy_true in Hname.
              destruct (py_str.strip name1); [done|]. done.
      * by apply found_entries_Raise in Hfound.
    + split; [apply sublist_nil_l|by constructor].
Qed.

Lemma count_statuses (db : store) :
  (length (filter (λ e : entry, e !! "done" = Some (JBool true)) db)
   + length (filter (λ e : entry, e !! "done" = Some (JStr "timeout")) db)
   + length (filter (λ e : entry, e !! "done" = Some (JBool false)) db)
   ≤ length db)%nat
  ∧ ((length (filter (λ e : entry, e !! "done" = Some (JBool true)) db)
      + length (filter (λ e : entry, e !! "done" = Some (JStr "timeout")) db)
      + length (filter (λ e : entry, e !! "done" = Some (JBool false)) db)
      = length db)%nat
     ↔ Forall (λ e : entry, ∃ v, e !! "done" = Some v ∧ is_status v) db).
Proof.
  induction db as [|e db [IHle IHeq]]; [by split|].
  rewrite !filter_cons, Forall_cons.
  destruct (e !! "done") as [[|[]|s]|] eqn:Hd.
  - repeat (rewrite decide_False by done). simpl. split; [lia|].
    split; [lia|]. intros [(v & [= <-] & [?|[?|?]]) _]; done.
  - rewrite decide_True by done. repeat (rewrite decide_False by done).
    simpl. split; [lia|]. rewrite <- IHeq. split; [intros; split|intros [_ ?]].
    + exists (JBool true). split; [done|by left].
    + lia.
    + lia.
  - repeat (rewrite decide_False by done). rewrite decide_True by done.
    simpl. split; [lia|]. rewrite <- IHeq. split; [intros; split|intros [_ ?]].
    + exists (JBool false). split; [done|by right; left].
    + lia.
    + lia.
  - destruct (decide (s = "timeout")) as [->|Hs].
    + rewrite decide_False by done. rewrite decide_True by done.
      rewrite decide_False by done.
      simpl. split; [lia|]. rewrite <- IHeq.
      split; [intros; split|intros [_ ?]].
      * exists (JStr "timeout"). split; [done|by right; right].
      * lia.
      * lia.
    + repeat (rewrite decide_False by congruence). simpl. split; [lia|].
      split; [lia|]. intros [(v & [= <-] & [?|[?|?]]) _]; congruence.
  - repeat (rewrite decide_False by done). simpl. split; [lia|].
    split; [lia|]. by intros [(v & ? & _) _].
Qed.

Lemma count_selected (db : store) :
  (length (filter (λ e : entry, e !! "done" = Some (JBool true)) db)
   + length (filter (λ item, conversion.not_done item = true) db)
   = length db)%nat.
Proof.
  induction db as [|e db IH]; [done|]. rewrite !filter_cons.
  destruct (conversion.not_done e) eqn:Hnd.
  - rewrite decide_False, decide_True by done || by apply not_done_true_done.
    simpl. lia.
  - apply not_done_false in Hnd.
    destruct (e !! "done") as [v|] eqn:Hd; simpl in Hnd; [|done]. subst v.
    rewrite decide_True, decide_False by done. simpl. lia.
Qed.

(** X18. The counters of [show_stats]: the completed, timed out and pending
    entries are together at most the entries; when the status of every
    record is one of [True], [False] and "timeout", they are all the
    entries, and the timed out and pending entries are the entries that a
    conversion run selects. (With another status the counters and the
    selection can disagree: [1 == True] holds and [1 is True] does not.) *)
Theorem show_stats_counters (fs : fsys) (s : stats) :
  show_stats fs = Some s →
  total s = length (load_database fs)
  ∧ (0 < total s)%nat
  ∧ (completed s + timeout s + pending s ≤ total s)%nat
  ∧ (Forall (λ e : entry, ∃ v, e !! "done" = Some v ∧ is_status v)
       (load_database fs) →
     (completed s + timeout s + pending s = total s)%nat
     ∧ (timeout s + pending s
        = length (filter (λ item, conversion.not_done item = true)
                    (conversion.load_database fs)))%nat).
Proof.
  unfold show_stats. cbn zeta.
  change (conversion.load_database fs) with (load_database fs).
  destruct (load_database fs) as [|e0 db] eqn:Hdb; [done|].
  intros [= <-]. cbn [total completed timeout pending].
  destruct (count_statuses (e0 :: db)) as [Hle Heq].
  pose proof (count_selected (e0 :: db)) as Hsel.
  split_and!; [done|simpl; lia|done|].
  intros Hall%Heq. split; [done|]. lia.
Qed.

End manage_database_props.

Section pipeline_props.
Context `{JsonCodec} `{UrlLib}.

Lemma extends_store_refl (db : store) : extends_store db db.
Proof. split; [done|]. intros pos e Hpos. by exists e. Qed.

Lemma extends_store_trans (db1 db2 db3 : store) :
  extends_store db1 db2 → extends_store db2 db3 → extends_store db1 db3.
Proof.
  intros [Hlen1 H1] [Hlen2 H2]. split; [lia|]. intros pos e Hpos.
  destruct (H1 pos e Hpos) as (e' & Hpos' & Ht & Hu).
  destruct (H2 pos e' Hpos') as (e'' & Hpos'' & Ht' & Hu').
  exists e''. split_and!; [done|congruence|congruence].
Qed.

Lemma record_ok_result_obj (q url : string) :
  record_ok (update_db_from_txt.result_obj q url).
Proof.
  destruct (result_obj_fields q url) as (? & ? & ? & ? & ?).
  split_and!; eauto. eexists. split; [done|]. right. by left.
Qed.

Lemma record_ok_set_done (e : entry) (v : jval) :
  record_ok e → is_status v → record_ok (<["done" := v]> e).
Proof.
  intros ((t & Ht) & (u & Hu) & _ & (dp & Hdp) & (p & Hp)) Hv.
  split_and!; [exists t|exists u|exists v|exists dp|exists p];
    by simplify_map_eq.
Qed.

Lemma record_ok_set_path (e : entry) (s : string) :
  record_ok e → record_ok (<["download_path" := JStr s]> e).
Proof.
  intros ((t & Ht) & (u & Hu) & (v & Hd & Hv) & _ & (p & Hp)).
  split_and!; [exists t|exists u|exists v|exists s|exists p];
    by simplify_map_eq.
Qed.

Lemma record_ok_set_project (e : entry) (s : string) :
  record_ok e → record_ok (<["project" := JStr s]> e).
Proof.
  intros ((t & Ht) & (u & Hu) & (v & Hd & Hv) & (dp & Hdp) & _).
  split_and!; [exists t|exists u|exists v|exists dp|exists s];
    by simplify_map_eq.
Qed.

Lemma record_ok_urls (db : store) : Forall record_ok db → urls_present db.
Proof.
  intros Hok. eapply Forall_impl; [exact Hok|].
  intros e (_ & (u & Hu) & _). by exists (JStr u).
Qed.

Lemma record_ok_store_ok (db : store) : Forall record_ok db → store_ok db.
Proof.
  intros Hok. eapply Forall_impl; [exact Hok|].
  intros e ((t & Ht) & (u & Hu) & _).
  split; [by exists u|by exists (JStr t)].
Qed.

Lemma record_ok_titles_ok (tqdm : bool) (db : store) :
  Forall record_ok db → titles_ok tqdm db.
Proof.
  intros Hok _. eapply Forall_impl; [exact Hok|].
  intros e ((t & Ht) & _) _. exists t. by rewrite Ht.
Qed.

(** A discovery run on well-formed records. *)
Lemma discovery_run_inv (driver : nat → string → result (option string))
    (queries : list string) (fs fs' : fsys) (st : update_db_from_txt.run) :
  codec_roundtrip →
  update_db_from_txt.main driver queries fs = Ok (fs', st) →
  Forall record_ok (conversion.load_database fs) →
  Forall record_ok (conversion.load_database fs')
  ∧ extends_store (conversion.load_database fs) (conversion.load_database fs').
Proof.
  intros Hrt Hmain Hok. unfold update_db_from_txt.main in Hmain.
  destruct queries as [|q0 queries]; [done|]. cbn zeta in Hmain.
  change (update_db_from_txt.load_database fs)
    with (conversion.load_database fs) in Hmain.
  destruct (update_db_from_txt.main_loop driver (conversion.load_database fs)
              1 (q0 :: queries) update_db_from_txt.run0)
    as [st1|] eqn:Hloop; [|done].
  cbn [mbind result_bind] in Hmain.
  destruct (main_loop_Ok _ _ _ _ _ _ Hloop) as (dups & Hst1 & _).
  destruct (update_db_from_txt.new_entries st1) as [|e1 new] eqn:Hnew.
  { injection Hmain as <- <-. split; [done|apply extends_store_refl]. }
  injection Hmain as <- <-.
  change (conversion.load_database
            (update_db_from_txt.save_database
               (conversion.load_database fs ++ e1 :: new) fs))
    with (update_db_from_txt.load_database
            (update_db_from_txt.save_database
               (conversion.load_database fs ++ e1 :: new) fs)).
  rewrite load_save_database by done. split.
  - apply Forall_app. split; [done|]. rewrite <- Hnew, Hst1.
    cbn [update_db_from_txt.new_entries update_db_from_txt.run0 app].
    apply Forall_forall. intros e He.
    apply appended_entries_shape in He as (i & q & url & _ & _ & _ & ->).
    apply record_ok_result_obj.
  - split; [rewrite length_app; lia|]. intros pos e Hpos. exists e.
    split; [|done]. by apply lookup_app_l_Some.
Qed.

(** A conversion run on well-formed records. *)
Lemma conversion_run_inv (tqdm : bool) (download_dir : string)
    (browser : nat → outcome) (fs : fsys) (st : conversion.state) :
  codec_roundtrip →
  conversion.process_file tqdm download_dir browser fs = Ok st →
  Forall record_ok (conversion.load_database fs) →
  Forall record_ok (conversion.load_database (conversion.fs st))
  ∧ extends_store (conversion.load_database fs)
      (conversion.load_database (conversion.fs st)).
Proof.
  intros Hrt Hrun Hok.
  assert (length (conversion.load_database (conversion.fs st))
          = length (conversion.load_database fs)) as Hlen.
  { apply process_file_inv in Hrun as [[_ ->]|(st1 & Hloop & ->)];
      cbn zeta in *; [done|].
    cbn [conversion.final_save conversion.fs].
    rewrite conversion_load_save by done.
    by destruct (process_entries_other tqdm download_dir browser _ _ _ Hloop)
      as [-> _]. }
  assert (∀ pos item, conversion.load_database fs !! pos = Some item →
            ∃ item', conversion.load_database (conversion.fs st) !! pos
                     = Some item'
              ∧ record_ok item'
              ∧ item' !! "title" = item !! "title"
              ∧ item' !! "url" = item !! "url") as Hentry.
  { intros pos item Hpos.
    pose proof (proj1 (Forall_lookup _ _) Hok pos item Hpos) as Hitem.
    destruct (process_file_entry tqdm download_dir browser fs st pos item
                Hrt Hrun Hpos) as (_ & item' & Hload & Hframe & Hkept & Hcase).
    exists item'. split; [done|]. split; [|by rewrite !Hframe].
    destruct (conversion.not_done item) eqn:Hnd;
      [|by rewrite (Hkept eq_refl)].
    specialize (Hcase eq_refl).
    assert (is_status (JStr "timeout")) as Htimeout by (by right; right).
    destruct (browser pos) eqn:Hb; subst; auto using record_ok_set_done.
    rewrite (process_file_downloaded tqdm download_dir browser fs st pos item)
      in Hload by auto using record_ok_urls.
    injection Hload as <-.
    apply record_ok_set_path, record_ok_set_done; [done|by left]. }
  split.
  - apply Forall_lookup. intros pos item' Hpos'.
    destruct (conversion.load_database fs !! pos) as [item|] eqn:Hpos.
    + destruct (Hentry pos item Hpos) as (x & Hx & Hrec & _). congruence.
    + apply lookup_ge_None in Hpos. apply lookup_lt_Some in Hpos'. lia.
  - split; [lia|]. intros pos item Hpos.
    destruct (Hentry pos item Hpos) as (item' & Hload & _ & Ht & Hu). eauto.
Qed.

(** An update of a project on well-formed records. *)
Lemma project_update_inv (entry_num : option Z) (new_project : string)
    (fs : fsys) :
  codec_roundtrip →
  Forall record_ok (conversion.load_database fs) →
  Forall record_ok
    (conversion.load_database
       (manage_database.update_project entry_num new_project fs))
  ∧ extends_store (conversion.load_database fs)
      (conversion.load_database
         (manage_database.update_project entry_num new_project fs)).
Proof.
  intros Hrt Hok.
  destruct (update_project_cases entry_num new_project fs)
    as [->|(p & e0 & Hnum & Hp & Hnew & ->)].
  { split; [done|apply extends_store_refl]. }
  change (manage_database.load_database fs)
    with (conversion.load_database fs) in *.
  change (conversion.load_database (manage_database.save_database ?d fs))
    with (manage_database.load_database (manage_database.save_database d fs)).
  rewrite manage_load_save by done. split.
  - apply Forall_insert; [done|]. apply record_ok_set_project.
    by apply (proj1 (Forall_lookup _ _) Hok p e0).
  - split; [by rewrite length_insert|]. intros pos e Hpos.
    destruct (decide (pos = p)) as [->|Hne].
    + assert (e = e0) as -> by congruence. eexists. split.
      * apply list_lookup_insert_eq. by eapply lookup_lt_Some.
      * by rewrite !lookup_insert_ne.
    + exists e. by rewrite list_lookup_insert_ne.
Qed.

Lemma tool_run_inv (fs fs' : fsys) :
  codec_roundtrip →
  tool_run fs fs' →
  Forall record_ok (conversion.load_database fs) →
  Forall record_ok (conversion.load_database fs')
  ∧ extends_store (conversion.load_database fs) (conversion.load_database fs').
Proof.
  intros Hrt [driver queries st Hmain|tqdm dir browser st Hrun ->|n p ->] Hok.
  - by eapply discovery_run_inv.
  - by eapply conversion_run_inv.
  - by apply project_update_inv.
Qed.

(** X19. The three tools keep the store well formed and lose nothing:
    after any sequence of completed runs of discovery, of conversion and of
    project updates on a store of well-formed records, every record is
    well formed (the five fields, a status among [True], [False] and
    "timeout", strings elsewhere), and every record that was there is
    still there, at its position, with its title and its url. *)
Theorem tools_keep_store (fs fs' : fsys) :
  codec_roundtrip →
  rtc tool_run fs fs' →
  Forall record_ok (conversion.load_database fs) →
  Forall record_ok (conversion.load_database fs')
  ∧ extends_store (conversion.load_database fs) (conversion.load_database fs').
Proof.
  intros Hrt Hruns. induction Hruns as [fs|fs fs1 fs' Hrun _ IH]; intros Hok.
  { split; [done|apply extends_store_refl]. }
  destruct (tool_run_inv fs fs1 Hrt Hrun Hok) as [Hok1 Hext1].
  destruct (IH Hok1) as [Hok' Hext']. split; [done|].
  by eapply extends_store_trans.
Qed.

(** X20. On a store of well-formed records no tool fails on a record: a
    conversion run completes, whatever the browser does; a search by
    project completes; a discovery run with at least one query completes
    when no search raises and [urlparse] returns on the result URLs of the
    searches and on the urls of the records. *)
Theorem well_formed_store_runs (fs : fsys) :
  Forall record_ok (conversion.load_database fs) →
  (∀ tqdm download_dir browser,
     is_Ok (conversion.process_file tqdm download_dir browser fs))
  ∧ (∀ project_name, is_Ok (manage_database.search_by_project project_name fs))
  ∧ (∀ driver queries, queries ≠ [] → driver_ok driver →
       results_parse driver → urls_parse (conversion.load_database fs) →
       is_Ok (update_db_from_txt.main driver queries fs)).
Proof.
  intros Hok. split_and!.
  - intros tqdm dir browser. apply process_file_complete.
    by apply record_ok_titles_ok.
  - intros name. unfold manage_database.search_by_project. cbn zeta.
    change (manage_database.load_database fs)
      with (conversion.load_database fs).
    destruct (conversion.load_database fs) as [|e0 db] eqn:Hdb; [by eexists|].
    destruct (str_truthy (py_str.strip name)); [|by eexists].
    apply found_entries_complete.
    eapply Forall_impl; [exact Hok|].
    intros e (_ & _ & _ & _ & (p & Hp)). exists p. by rewrite Hp.
  - intros driver queries Hne Hdriver Hres Hparse.
    apply main_complete; [done|done|done| |done].
    by apply record_ok_store_ok.
Qed.

(** X29. From discovery to conversion: the records that a completed
    discovery run adds are taken up by the next completed conversion run,
    each at its position behind the records that were there (the run logs
    every one of them as an entry in process). *)
Theorem new_records_are_processed
    (driver : nat → string → result (option string)) (queries : list string)
    (fs fs1 : fsys) (st1 : update_db_from_txt.run) (tqdm : bool)
    (download_dir : string) (browser : nat → outcome) (st : conversion.state) :
  codec_roundtrip →
  update_db_from_txt.main driver queries fs = Ok (fs1, st1) →
  conversion.process_file tqdm download_dir browser fs1 = Ok st →
  ∀ i e, update_db_from_txt.new_entries st1 !! i = Some e →
    conversion.load_database fs1
      !! (length (conversion.load_database fs) + i)%nat = Some e
    ∧ conversion.not_done e = true
    ∧ Processing (length (conversion.load_database fs) + i)
      ∈ conversion.log st.
Proof.
  intros Hrt Hmain Hrun i e Hi.
  assert (conversion.load_database fs1
          = conversion.load_database fs ++ update_db_from_txt.new_entries st1
          ∧ ∃ q url, e = update_db_from_txt.result_obj q url)
    as [Hdb1 (q & url & ->)].
  { unfold update_db_from_txt.main in Hmain.
    destruct queries as [|q0 queries]; [done|]. cbn zeta in Hmain.
    change (update_db_from_txt.load_database fs)
      with (conversion.load_database fs) in Hmain.
    destruct (update_db_from_txt.main_loop driver (conversion.load_database fs)
                1 (q0 :: queries) update_db_from_txt.run0)
      as [r1|] eqn:Hloop; [|done].
    cbn [mbind result_bind] in Hmain.
    destruct (main_loop_Ok _ _ _ _ _ _ Hloop) as (dups & Hr1 & _).
    assert (st1 = r1) as ->.
    { destruct (update_db_from_txt.new_entries r1); by simplify_eq/=. }
    split.
    - destruct (update_db_from_txt.new_entries r1) as [|e1 new] eqn:Hnew;
        [done|].
      injection Hmain as <-.
      change (conversion.load_database (update_db_from_txt.save_database ?d fs))
        with (update_db_from_txt.load_database
                (update_db_from_txt.save_database d fs)).
      by rewrite load_save_database.
    - apply list_elem_of_lookup_2 in Hi. rewrite Hr1 in Hi.
      cbn [update_db_from_txt.new_entries update_db_from_txt.run0 app] in Hi.
      apply appended_entries_shape in Hi as (? & q & url & _ & _ & _ & ->).
      eauto. }
  assert (conversion.load_database fs1
            !! (length (conversion.load_database fs) + i)%nat
          = Some (update_db_from_txt.result_obj q url)) as Hpos.
  { rewrite Hdb1, lookup_app_r by lia.
    by replace (length (conversion.load_database fs) + i
                - length (conversion.load_database fs))%nat with i by lia. }
  assert (conversion.not_done (update_db_from_txt.result_obj q url) = true)
    as Hnd by done.
  split_and!; [done|done|].
  apply process_file_inv in Hrun as [[Hall _]|(st2 & Hloop & ->)];
    cbn zeta in *.
  { pose proof (proj1 (Forall_lookup _ _) Hall _ _ Hpos). congruence. }
  destruct (process_entries_log tqdm download_dir browser _ _ _
              (NoDup_seq _ _) Hloop) as [Hlog _].
  cbn [conversion.final_save conversion.log]. rewrite Hlog.
  cbn [conversion.log conversion.data app].
  apply list_elem_of_In, in_flat_map.
  exists (length (conversion.load_database fs) + i)%nat. split.
  - apply in_seq. apply lookup_lt_Some in Hpos. lia.
  - unfold event_of. rewrite Hpos, Hnd. by left.
Qed.

End pipeline_props.

(** ** The helpers of the browser steps *)

Section helpers_props.
Import conversion.

Lemma endswith_spec (s suffix : string) :
  py_str.endswith s suffix = true ↔ ∃ a, s = a +:+ suffix.
Proof.
  induction s as [|c s IH]; cbn [py_str.endswith].
  - rewrite orb_false_r, String.eqb_eq. split.
    + intros <-. by exists "".
    + intros [a Ha]. destruct a as [|x a]; [done|].
      change (String x a +:+ suffix) with (String x (a +:+ suffix)) in Ha. done.
  - rewrite orb_true_iff, String.eqb_eq, IH. split.
    + intros [<-|[a ->]]; [by exists ""|]. by exists (String c a).
    + intros [a Ha]. destruct a as [|x a]; [by left|]. right. exists a.
      change (String x a +:+ suffix) with (String x (a +:+ suffix)) in Ha.
      by injection Ha.
Qed.

Lemma wait_for_download_loop_Some (set_iter : gset string → list string)
    (initial_files : gset string) (polls : list (option (list string)))
    (f : string) :
  (∀ X, set_iter X ≡ₚ elements X) →
  wait_for_download_loop set_iter initial_files polls = Some f →
  (∃ names, Some names ∈ polls ∧ f ∈ names)
  ∧ (f ∉ initial_files) ∧ is_partial f = false.
Proof.
  intros Hiter. induction polls as [|[names|] polls IH]; [done| |].
  - cbn [wait_for_download_loop]. cbn zeta.
    destruct (List.filter (λ f, negb (is_partial f))
                (set_iter (list_to_set names ∖ initial_files)))
      as [|f0 completed] eqn:Hcompleted.
    + intros (Hin & Hnew & Hpart)%IH. split; [|done].
      destruct Hin as (names' & ? & ?). exists names'. split; [by right|done].
    + intros [= ->].
      assert (In f (List.filter (λ f, negb (is_partial f))
                      (set_iter (list_to_set names ∖ initial_files)))) as Hf.
      { rewrite Hcompleted. by left. }
      apply filter_In in Hf as [Hf Hpart]. apply list_elem_of_In in Hf.
      rewrite Hiter in Hf. apply elem_of_elements in Hf.
      apply elem_of_difference in Hf as [Hf Hnew].
      apply elem_of_list_to_set in Hf. split_and!.
      * exists names. split; [by left|done].
      * done.
      * by apply negb_true_iff.
  - cbn [wait_for_download_loop]. intros (Hin & Hnew & Hpart)%IH.
    split; [|done]. destruct Hin as (names' & ? & ?).
    exists names'. split; [by right|done].
Qed.

Lemma wait_for_download_loop_None (set_iter : gset string → list string)
    (initial_files : gset string) (polls : list (option (list string))) :
  (∀ X, set_iter X ≡ₚ elements X) →
  wait_for_download_loop set_iter initial_files polls = None →
  ∀ names f, Some names ∈ polls → f ∈ names →
    f ∈ initial_files ∨ is_partial f = true.
Proof.
  intros Hiter. induction polls as [|[names|] polls IH];
    [by intros _ ? ? ?%elem_of_nil| |].
  - cbn [wait_for_download_loop]. cbn zeta.
    destruct (List.filter (λ f, negb (is_partial f))
                (set_iter (list_to_set names ∖ initial_files)))
      as [|f0 completed] eqn:Hcompleted; [|done].
    intros Hnone names' f [[= ->]|Hin]%elem_of_cons Hf; [|by eapply IH].
    destruct (decide (f ∈ initial_files)) as [|Hnew]; [by left|]. right.
    destruct (is_partial f) eqn:Hpart; [done|].
    assert (In f (List.filter (λ f, negb (is_partial f))
                    (set_iter (list_to_set names ∖ initial_files)))) as Hin.
    { apply filter_In. split; [|by rewrite Hpart].
      apply list_elem_of_In. rewrite Hiter. apply elem_of_elements.
      apply elem_of_difference. split; [|done]. by apply elem_of_list_to_set. }
    by rewrite Hcompleted in Hin.
  - cbn [wait_for_download_loop].
    intros Hnone names' f [?|Hin]%elem_of_cons Hf; [done|by eapply IH].
Qed.

Lemma is_partial_spec (f : string) :
  is_partial f = true ↔
  ∃ a, f = a +:+ ".crdownload" ∨ f = a +:+ ".tmp" ∨ f = a +:+ ".part".
Proof.
  unfold is_partial. rewrite !orb_true_iff, !endswith_spec. split.
  - intros [[[a ->] | [a ->]] | [a ->]]; exists a; auto.
  - intros [a [-> | [-> | ->]]]; eauto.
Qed.

(** X21. What [wait_for_download] returns, in whatever order Python
    iterates over the set of the new names: a name that is returned was
    listed by a poll, was not in the directory when the wait began (so a
    download that replaces a file of the directory is not seen), and does
    not end in .crdownload, .tmp or .part; and [None] is returned only when
    every name that the polls listed was there at the start or has one of
    these endings. *)
Theorem wait_for_download_new_file (set_iter : gset string → list string)
    (initial : option (list string)) (polls : list (option (list string))) :
  (∀ X, set_iter X ≡ₚ elements X) →
  match wait_for_download set_iter initial polls with
  | Some f =>
      (∃ names, Some names ∈ polls ∧ f ∈ names)
      ∧ (∀ names, initial = Some names → f ∉ names)
      ∧ ¬ ∃ a, f = a +:+ ".crdownload" ∨ f = a +:+ ".tmp" ∨ f = a +:+ ".part"
  | None =>
      ∀ names f, Some names ∈ polls → f ∈ names →
        (∃ names0, initial = Some names0 ∧ f ∈ names0)
        ∨ ∃ a, f = a +:+ ".crdownload" ∨ f = a +:+ ".tmp" ∨ f = a +:+ ".part"
  end.
Proof.
  intros Hiter. unfold wait_for_download. cbn zeta.
  destruct (wait_for_download_loop set_iter _ polls) as [f|] eqn:Hwait.
  - apply wait_for_download_loop_Some in Hwait as (Hin & Hnew & Hpart);
      [|done].
    split; [done|]. split.
    + intros names ->. by rewrite elem_of_list_to_set in Hnew.
    + rewrite <- is_partial_spec. by rewrite Hpart.
  - intros names f Hnames Hf.
    destruct (wait_for_download_loop_None _ _ _ Hiter Hwait names f Hnames Hf)
      as [Hold|Hpart].
    + left. destruct initial as [names0|].
      * exists names0. split; [done|]. by apply elem_of_list_to_set in Hold.
      * by apply elem_of_empty in Hold.
    + right. by apply is_partial_spec.
Qed.

Lemma uniq_visible_Ok (elems : list WebElement) (seen : gset (string * string))
    (uniq : list WebElement) :
  uniq_visible elems seen = Ok uniq →
  NoDup (map elem_key uniq)
  ∧ (∀ e, e ∈ uniq → elem_key e ∉ seen)
  ∧ Forall (λ e, is_visible e = true ∧ is_Some (get_attribute e "outerHTML")) uniq
  ∧ sublist uniq elems
  ∧ (∀ e, e ∈ elems → is_visible e = true →
       elem_key e ∈ seen ∨ elem_key e ∈ map elem_key uniq).
Proof.
  revert seen uniq. induction elems as [|e elems IH]; intros seen uniq.
  { intros [= <-]. split_and!; [constructor|by intros ? ?%elem_of_nil
      |constructor|constructor|by intros ? ?%elem_of_nil]. }
  cbn [uniq_visible]. destruct (is_visible e) eqn:Hvis; cbn [negb].
  - destruct (get_attribute e "outerHTML") as [html|] eqn:Hhtml; [|done].
    cbn zeta.
    assert (elem_key e = (elem_id e, py_str.slice_to 120 html)) as Hkey.
    { unfold elem_key. by rewrite Hhtml. }
    rewrite <- Hkey. case_bool_decide as Hseen.
    + intros (Hnd & Hfresh & Hall & Hsub & Hcov)%IH.
      split_and!; [done|done|done|by constructor|].
      intros e' [->|Hin]%elem_of_cons Hvis'; [by left|by apply Hcov].
    + destruct (uniq_visible elems ({[elem_key e]} ∪ seen)) as [uniq'|] eqn:Hrest;
        [|done].
      cbn [mbind result_bind]. intros [= <-].
      apply IH in Hrest as (Hnd & Hfresh & Hall & Hsub & Hcov).
      split_and!.
      * cbn [map]. constructor; [|done].
        intros (e' & Heq & Hin)%list_elem_of_fmap.
        apply (Hfresh e' Hin). rewrite <- Heq.
        apply elem_of_union. left. by apply elem_of_singleton.
      * intros e' [->|Hin]%elem_of_cons; [done|].
        intros Hs. apply (Hfresh e' Hin), elem_of_union. by right.
      * constructor; [|done]. split; [done|]. by rewrite Hhtml.
      * by constructor.
      * intros e' [->|Hin]%elem_of_cons Hvis'.
        -- right. cbn [map]. by left.
        -- destruct (Hcov e' Hin Hvis') as [Hs|Hu].
           ++ apply elem_of_union in Hs as [->%elem_of_singleton|Hs];
                [right; cbn [map]; by left|by left].
           ++ right. cbn [map]. by right.
  - intros (Hnd & Hfresh & Hall & Hsub & Hcov)%IH.
    split_and!; [done|done|done|by constructor|].
    intros e' [->|Hin]%elem_of_cons Hvis'; [congruence|by apply Hcov].
Qed.

Lemma uniq_visible_Raise (elems : list WebElement) (seen : gset (string * string))
    (ex : exn) :
  uniq_visible elems seen = Raise ex →
  ex = TypeError
  ∧ ∃ e, e ∈ elems ∧ is_visible e = true ∧ get_attribute e "outerHTML" = None.
Proof.
  revert seen. induction elems as [|e elems IH]; intros seen; [done|].
  cbn [uniq_visible]. destruct (is_visible e) eqn:Hvis; cbn [negb].
  - destruct (get_attribute e "outerHTML") as [html|] eqn:Hhtml.
    + cbn zeta. case_bool_decide.
      * intros (-> & e' & ? & ?)%IH. split; [done|]. exists e'.
        split; [by right|done].
      * destruct (uniq_visible elems _) as [uniq'|ex'] eqn:Hrest; [done|].
        cbn [mbind result_bind]. intros [= <-].
        apply IH in Hrest as (-> & e' & ? & ?). split; [done|]. exists e'.
        split; [by right|done].
    + intros [= <-]. split; [done|]. exists e. split; [by left|done].
  - intros (-> & e' & ? & ?)%IH. split; [done|]. exists e'.
    split; [by right|done].
Qed.

Lemma find_all_found (find_elements : string → result (list WebElement))
    (selectors : list string) (e : WebElement) :
  e ∈ find_all find_elements selectors →
  ∃ sel found, sel ∈ selectors ∧ find_elements sel = Ok found ∧ e ∈ found.
Proof.
  unfold find_all. intros (sel & Hsel & He)%list_elem_of_In%in_flat_map.
  exists sel. destruct (find_elements sel) as [found|]; [|done].
  exists found. split_and!; [by apply list_elem_of_In|done|by apply list_elem_of_In].
Qed.

Lemma find_all_complete (find_elements : string → result (list WebElement))
    (selectors : list string) (sel : string) (found : list WebElement)
    (e : WebElement) :
  sel ∈ selectors → find_elements sel = Ok found → e ∈ found →
  e ∈ find_all find_elements selectors.
Proof.
  intros Hsel Hfound He. unfold find_all. apply list_elem_of_In, in_flat_map.
  exists sel. split; [by apply list_elem_of_In|].
  rewrite Hfound. by apply list_elem_of_In.
Qed.

Lemma listing_spec (find_elements : string → result (list WebElement))
    (selectors : list string) :
  match uniq_visible (find_all find_elements selectors) ∅ with
  | Ok uniq =>
      NoDup (map elem_key uniq)
      ∧ Forall (λ e, is_visible e = true ∧ found_by find_elements e) uniq
      ∧ (∀ sel found e, sel ∈ selectors → find_elements sel = Ok found →
           e ∈ found → is_visible e = true → elem_key e ∈ map elem_key uniq)
  | Raise ex =>
      ex = TypeError
      ∧ ∃ e, found_by find_elements e ∧ is_visible e = true
          ∧ get_attribute e "outerHTML" = None
  end.
Proof.
  destruct (uniq_visible (find_all find_elements selectors) ∅)
    as [uniq|ex] eqn:Huniq.
  - apply uniq_visible_Ok in Huniq as (Hnd & _ & Hall & Hsub & Hcov).
    split_and!; [done| |].
    + apply Forall_forall. intros e He.
      split; [by apply (proj1 (Forall_forall _ _) Hall e He)|].
      assert (e ∈ find_all find_elements selectors) as Hin.
      { by eapply elem_of_sublist. }
      apply find_all_found in Hin as (s & found & _ & ? & ?).
      by exists s, found.
    + intros sel found e Hsel Hfound He Hvis.
      destruct (Hcov e) as [Hs|?]; [|done| |done].
      * by eapply find_all_complete.
      * by apply elem_of_empty in Hs.
  - apply uniq_visible_Raise in Huniq as (-> & e & Hin & Hvis & Hhtml).
    split; [done|]. exists e. split; [|done].
    apply find_all_found in Hin as (s & found & _ & ? & ?).
    by exists s, found.
Qed.

Lemma listing_returns (find_elements : string → result (list WebElement))
    (selectors : list string) (uniq : list WebElement) :
  uniq_visible (find_all find_elements selectors) ∅ = Ok uniq →
  NoDup (map elem_key uniq)
  ∧ Forall (λ e, is_visible e = true ∧ found_by find_elements e
                 ∧ is_Some (get_attribute e "outerHTML")) uniq
  ∧ (∀ sel found e, sel ∈ selectors → find_elements sel = Ok found →
       e ∈ found → is_visible e = true →
       is_Some (get_attribute e "outerHTML")
       ∧ elem_key e ∈ map elem_key uniq).
Proof.
  intros Huniq.
  assert (∀ elems seen uniq', uniq_visible elems seen = Ok uniq' →
            ∀ e, e ∈ elems → is_visible e = true →
              is_Some (get_attribute e "outerHTML")) as Hhtml.
  { clear. induction elems as [|x elems IH]; intros seen uniq' Hrun e;
      [by intros ?%elem_of_nil|].
    cbn [uniq_visible] in Hrun. destruct (is_visible x) eqn:Hx; cbn [negb] in Hrun.
    - destruct (get_attribute x "outerHTML") as [html|] eqn:Hh; [|done].
      cbn zeta in Hrun.
      intros [->|Hin]%elem_of_cons Hvis; [by rewrite Hh|].
      case_bool_decide; [by eapply IH|].
      destruct (uniq_visible elems _) as [u|] eqn:Hrest; [|done].
      by eapply IH.
    - intros [->|Hin]%elem_of_cons Hvis; [congruence|by eapply IH]. }
  pose proof (Hhtml _ _ _ Huniq) as Hall_html.
  apply uniq_visible_Ok in Huniq as (Hnd & _ & Hall & Hsub & Hcov).
  split_and!; [done| |].
  - apply Forall_forall. intros e He.
    destruct (proj1 (Forall_forall _ _) Hall e He) as [Hvis Hh].
    split_and!; [done| |done].
    assert (e ∈ find_all find_elements selectors) as Hin
      by by eapply elem_of_sublist.
    apply find_all_found in Hin as (s & found & _ & ? & ?).
    by exists s, found.
  - intros sel found e Hsel Hfound He Hvis.
    assert (e ∈ find_all find_elements selectors) as Hin
      by by eapply find_all_complete.
    split; [by apply Hall_html|].
    destruct (Hcov e Hin Hvis) as [Hs|?]; [|done].
    by apply elem_of_empty in Hs.
Qed.

(** X22. What the listing of the buttons returns: the elements of the list
    are visible, have an outerHTML and were found by a selector; no two of
    them have the same key (the id in the browser and the first 120
    characters of the outerHTML); every visible element that the selector
    [button] finds has an outerHTML and is in the list, or an element with
    its key is. The listing of the text boxes is the same loop on other
    selectors. The values are those that the calls of the listing got from
    the browser; when one of the calls raises, the listing returns
    nothing. *)
Theorem list_buttons_visible_unique
    (find_elements : string → result (list WebElement)) :
  (∀ uniq, list_buttons find_elements = Ok uniq →
     NoDup (map elem_key uniq)
     ∧ Forall (λ e, is_visible e = true ∧ found_by find_elements e
                    ∧ is_Some (get_attribute e "outerHTML")) uniq
     ∧ (∀ found e, find_elements "button" = Ok found → e ∈ found →
          is_visible e = true →
          is_Some (get_attribute e "outerHTML")
          ∧ elem_key e ∈ map elem_key uniq))
  ∧ (∀ uniq, list_text_boxes find_elements = Ok uniq →
       NoDup (map elem_key uniq)
       ∧ Forall (λ e, is_visible e = true ∧ found_by find_elements e
                      ∧ is_Some (get_attribute e "outerHTML")) uniq
       ∧ (∀ found e, find_elements "textarea" = Ok found → e ∈ found →
            is_visible e = true →
            is_Some (get_attribute e "outerHTML")
            ∧ elem_key e ∈ map elem_key uniq)).
Proof.
  split.
  - intros uniq Hlist. unfold list_buttons in Hlist. cbn zeta in Hlist.
    apply listing_returns in Hlist as (Hnd & Hall & Hcov).
    split_and!; [done|done|]. intros found e. apply Hcov. by left.
  - intros uniq Hlist. unfold list_text_boxes in Hlist. cbn zeta in Hlist.
    apply listing_returns in Hlist as (Hnd & Hall & Hcov).
    split_and!; [done|done|]. intros found e. apply Hcov. do 7 right. by left.
Qed.

Lemma contains_empty (s : string) : py_str.contains "" s = true.
Proof. by destruct s. Qed.

Lemma button_has_text_lower (text1 text2 : string) (btn : WebElement) :
  py_str.lower text1 = py_str.lower text2 →
  button_has_text text1 btn = button_has_text text2 btn.
Proof. intros Hlow. unfold button_has_text. by rewrite Hlow. Qed.

Lemma find_ext {A} (f g : A → bool) (l : list A) :
  (∀ x, f x = g x) → List.find f l = List.find g l.
Proof. intros Hfg. induction l as [|x l IH]; [done|]. simpl. by rewrite Hfg, IH. Qed.

Lemma find_button_by_text_Some
    (find_elements : string → result (list WebElement)) (text : string)
    (btn : WebElement) :
  find_button_by_text find_elements text = Ok (Some btn) →
  is_visible btn = true ∧ found_by find_elements btn
  ∧ button_has_text text btn = true.
Proof.
  unfold find_button_by_text, list_buttons. cbn zeta.
  match goal with
  | |- context [find_all find_elements ?sels] =>
      pose proof (listing_spec find_elements sels) as Hspec;
      destruct (uniq_visible (find_all find_elements sels) ∅)
        as [buttons|]
  end; [|done].
  destruct Hspec as (_ & Hbuttons & _).
  cbn [mbind result_bind]. intros [= Hfind].
  apply find_some in Hfind as [Hin Hhas]. apply list_elem_of_In in Hin.
  by destruct (proj1 (Forall_forall _ _) Hbuttons btn Hin) as [Hvis Hfound].
Qed.

(** X23. [find_button_by_text] ignores the case of the letters of the text:
    two texts with the same letters find the same button. A button that is
    found is a visible element found by a selector, and its text or its
    value, without the whitespace at the ends and in lower case, holds the
    text in lower case; with the empty text the first button of the listing
    is found. *)
Theorem find_button_by_text_ignores_case
    (find_elements : string → result (list WebElement)) (text1 text2 : string) :
  py_str.lower text1 = py_str.lower text2 →
  find_button_by_text find_elements text1
  = find_button_by_text find_elements text2
  ∧ (∀ btn, find_button_by_text find_elements text1 = Ok (Some btn) →
       is_visible btn = true ∧ found_by find_elements btn
       ∧ ∃ a c,
           py_str.lower (py_str.strip (elem_text btn))
           = a +:+ py_str.lower text1 +:+ c
           ∨ py_str.lower
               (py_str.strip (default "" (get_attribute btn "value")))
             = a +:+ py_str.lower text1 +:+ c)
  ∧ (∀ buttons, list_buttons find_elements = Ok buttons →
       find_button_by_text find_elements "" = Ok (head buttons)).
Proof.
  intros Hlow. split_and!.
  - unfold find_button_by_text.
    destruct (list_buttons find_elements) as [buttons|]; [|done].
    cbn [mbind result_bind]. f_equal. apply find_ext.
    intros btn. by apply button_has_text_lower.
  - intros btn Hfind.
    apply find_button_by_text_Some in Hfind as (Hvis & Hfound & Hhas).
    split_and!; [done|done|].
    unfold button_has_text in Hhas. cbn zeta in Hhas.
    apply orb_true_iff in Hhas as [Hc|Hc];
      apply contains_spec in Hc as (a & c & Heq); exists a, c; auto.
  - intros buttons Hbuttons. unfold find_button_by_text. rewrite Hbuttons.
    cbn [mbind result_bind]. f_equal. destruct buttons as [|btn buttons]; [done|].
    cbn [List.find head]. unfold button_has_text. cbn zeta.
    change (py_str.lower "") with "". by rewrite contains_empty.
Qed.


Lemma length_slice_to (n : nat) (s : string) :
  (String.length (py_str.slice_to n s) ≤ n)%nat.
Proof.
  unfold py_str.slice_to. revert s. induction n as [|n IH]; intros s.
  - destruct s; simpl; lia.
  - destruct s as [|c s]; simpl; [lia|]. specialize (IH s). lia.
Qed.

Lemma slice_to_forall (p : ascii → bool) (n : nat) (s : string) :
  string_forall p s = true → string_forall p (py_str.slice_to n s) = true.
Proof.
  unfold py_str.slice_to. revert s. induction n as [|n IH]; intros s.
  - by destruct s.
  - destruct s as [|c s]; simpl; [done|].
    intros [Hc Hs]%andb_true_iff. apply andb_true_iff. auto.
Qed.

Lemma split_words (p : ascii → bool) (s : string) :
  (∀ c, py_str.isspace c = false → p c = true) →
  Forall (λ w, string_forall p w = true) (py_str.split s).
Proof.
  intros Hp. induction s as [|c s IH]; [constructor|].
  cbn [py_str.split]. destruct (py_str.isspace c) eqn:Hc; [done|].
  destruct s as [|c' s'].
  - constructor; [|constructor]. simpl. by rewrite Hp.
  - destruct (py_str.isspace c') eqn:Hc'.
    + constructor; [|done]. simpl. by rewrite Hp.
    + destruct (py_str.split (String c' s')) as [|w ws].
      * constructor; [|constructor]. simpl. by rewrite Hp.
      * apply Forall_cons in IH as [Hw Hws]. constructor; [|done].
        simpl. by rewrite Hp.
Qed.

Lemma join_forall (p : ascii → bool) (sep : string) (words : list string) :
  string_forall p sep = true →
  Forall (λ w, string_forall p w = true) words →
  string_forall p (py_str.join sep words) = true.
Proof.
  intros Hsep. induction 1 as [|w words Hw Hwords IH]; [done|].
  cbn [py_str.join]. destruct words as [|w' words]; [done|].
  rewrite !string_forall_app, Hw, Hsep, IH. done.
Qed.

(** X24. The text that [short_label] shows for an element has at most 60
    characters, and its only whitespace is the space: the text of an
    element stays on the line of its label, whatever ends of line and
    tabulations it holds. *)
Theorem short_label_text_one_line (elem : WebElement) :
  (String.length (short_label_text elem) ≤ 60)%nat
  ∧ string_forall (λ c, negb (py_str.isspace c) || Ascii.eqb c " ")
      (short_label_text elem) = true.
Proof.
  unfold short_label_text. cbn zeta.
  set (text := py_str.join " " (py_str.split (py_str.strip (elem_text elem)))).
  assert (string_forall (λ c, negb (py_str.isspace c) || Ascii.eqb c " ") text
          = true) as Htext.
  { apply join_forall; [done|]. apply split_words.
    intros c ->. done. }
  destruct (Nat.ltb_spec 60 (String.length text)) as [Hlong|Hshort].
  - split.
    + rewrite length_append. pose proof (length_slice_to 57 text).
      change (String.length "...") with 3%nat. lia.
    + rewrite string_forall_app. apply andb_true_iff. split; [|done].
      by apply slice_to_forall.
  - split; [lia|done].
Qed.

Lemma filter_all {A} (f : A → bool) (l : list A) :
  (∀ x, x ∈ l → f x = true) → List.filter f l = l.
Proof.
  induction l as [|x l IH]; [done|]. intros Hf. simpl.
  rewrite Hf by by left. rewrite IH; [done|]. intros y Hy. apply Hf. by right.
Qed.

Lemma filter_comp {A} (f g : A → bool) (l : list A) :
  List.filter f (List.filter g l) = List.filter (λ x, g x && f x) l.
Proof.
  induction l as [|x l IH]; [done|]. simpl.
  destruct (g x); simpl; [destruct (f x)|]; by rewrite IH.
Qed.

Lemma filter_eqb_NoDup (x : string) (l : list string) :
  NoDup l →
  List.filter (λ h, String.eqb h x) l = if bool_decide (x ∈ l) then [x] else [].
Proof.
  induction 1 as [|y l Hy Hl IH]; [done|]. simpl.
  destruct (String.eqb_spec y x) as [->|Hne].
  - rewrite bool_decide_eq_true_2 by by left.
    rewrite IH, bool_decide_eq_false_2 by done. done.
  - rewrite IH. case_bool_decide as Hin.
    + rewrite bool_decide_eq_true_2; [done|by right].
    + rewrite bool_decide_eq_false_2; [done|].
      intros [?|?]%elem_of_cons; [by subst|done].
Qed.

Lemma close_new_tabs_loop_spec (original_window : string)
    (current_windows : list string) (w : windows) :
  NoDup current_windows →
  (∀ h, h ∈ current_windows → h ∈ window_handles w) →
  ∃ w',
    close_new_tabs_loop original_window current_windows w = (w', true)
    ∧ window_handles w'
      = List.filter (λ h, String.eqb h original_window
                          || negb (bool_decide (h ∈ current_windows)))
          (window_handles w)
    ∧ (current_windows = [original_window] ∨ current_windows = [] →
       current_window_handle w' = current_window_handle w).
Proof.
  intros Hnd. revert w.
  induction Hnd as [|window rest Hwindow Hrest IH]; intros w Hopen.
  { exists w. split; [done|]. split; [|done].
    symmetry. apply filter_all. intros h _.
    rewrite bool_decide_eq_false_2 by apply not_elem_of_nil.
    apply orb_true_r. }
  cbn [close_new_tabs_loop].
  destruct (String.eqb_spec window original_window) as [->|Hne]; cbn [negb].
  - destruct (IH w) as (w' & Hloop & Hhandles & Hfocus).
    { intros h Hh. apply Hopen. by right. }
    exists w'. split; [done|]. split.
    + rewrite Hhandles. apply filter_ext. intros h.
      destruct (String.eqb_spec h original_window) as [->|Hh]; [done|].
      cbn [orb]. f_equal. apply bool_decide_ext.
      rewrite elem_of_cons. split; [by right|by intros [?|?]].
    + intros [[= ->]|?]; [|done]. by apply Hfocus; right.
  - unfold switch_to_window.
    rewrite bool_decide_eq_true_2 by (apply Hopen; by left).
    cbn [close current_window_handle window_handles].
    match goal with
    | |- context [close_new_tabs_loop _ _ ?w2] =>
        destruct (IH w2) as (w' & Hloop & Hhandles & Hfocus)
    end.
    { cbn [window_handles]. intros h Hh.
      apply list_elem_of_In, filter_In. split.
      - apply list_elem_of_In, Hopen. by right.
      - apply negb_true_iff, String.eqb_neq. by intros ->. }
    exists w'. split; [done|]. split.
    + rewrite Hhandles. cbn [window_handles]. rewrite filter_comp.
      apply filter_ext. intros h.
      destruct (String.eqb_spec h window) as [->|Hh]; cbn [negb andb].
      * rewrite (proj2 (String.eqb_neq _ _)) by done.
        rewrite bool_decide_eq_true_2 by by left. done.
      * f_equal. f_equal. apply bool_decide_ext.
        rewrite elem_of_cons. split; [by right|by intros [?|?]].
    + intros [[= -> ->]|?]; done.
Qed.

(** X25. [close_new_tabs], on windows with distinct handles: when more
    than one window is open and the original window is among them, the
    call leaves the original window open, alone, with the focus; when more
    than one window is open and the original window is not among them, it
    closes every window (the exception of the last step is logged only);
    with one window or none it does nothing. *)
Theorem close_new_tabs_leaves_original (original_window : string) (w : windows) :
  NoDup (window_handles w) →
  ((1 < length (window_handles w))%nat →
     original_window ∈ window_handles w →
     close_new_tabs original_window w
     = {| window_handles := [original_window];
          current_window_handle := Some original_window |})
  ∧ ((1 < length (window_handles w))%nat →
       original_window ∉ window_handles w →
       window_handles (close_new_tabs original_window w) = [])
  ∧ ((length (window_handles w) ≤ 1)%nat →
       close_new_tabs original_window w = w).
Proof.
  intros Hnd.
  destruct (close_new_tabs_loop_spec original_window (window_handles w) w Hnd)
    as (w' & Hloop & Hhandles & _); [done|].
  assert (window_handles w'
          = if bool_decide (original_window ∈ window_handles w)
            then [original_window] else []) as Hleft.
  { rewrite Hhandles, <- filter_eqb_NoDup by done.
    apply filter_ext_in. intros h Hh%list_elem_of_In.
    rewrite bool_decide_eq_true_2 by done. apply orb_false_r. }
  unfold close_new_tabs. cbn zeta. split_and!.
  - intros Hlen Hin. rewrite (proj2 (Nat.ltb_lt _ _) Hlen), Hloop.
    rewrite bool_decide_eq_true_2 in Hleft by done.
    unfold switch_to_window. rewrite Hleft.
    by rewrite bool_decide_eq_true_2 by by left.
  - intros Hlen Hin. rewrite (proj2 (Nat.ltb_lt _ _) Hlen), Hloop.
    rewrite bool_decide_eq_false_2 in Hleft by done.
    unfold switch_to_window. rewrite Hleft.
    rewrite bool_decide_eq_false_2 by apply not_elem_of_nil. done.
  - intros Hlen. by rewrite (proj2 (Nat.ltb_ge _ _) Hlen).
Qed.


Lemma first_visible_Some (p : poll) (queries : list string) (elem : WebElement) :
  first_visible p queries = Some elem →
  is_visible elem = true
  ∧ ∃ xpath elements,
      xpath ∈ queries ∧ by_xpath p xpath = Ok elements ∧ elem ∈ elements.
Proof.
  induction queries as [|xpath queries IH]; [done|]. cbn [first_visible].
  destruct (by_xpath p xpath) as [elements|] eqn:Hq.
  - destruct (List.find is_visible elements) as [e|] eqn:Hfind.
    + intros [= ->]. apply find_some in Hfind as [Hin Hvis].
      split; [done|]. exists xpath, elements.
      split_and!; [by left|done|by apply list_elem_of_In].
    + intros (Hvis & x & es & ? & ? & ?)%IH. split; [done|].
      exists x, es. split_and!; [by right|done|done].
  - intros (Hvis & x & es & ? & ? & ?)%IH. split; [done|].
    exists x, es. split_and!; [by right|done|done].
Qed.

Lemma first_visible_None (p : poll) (queries : list string) :
  first_visible p queries = None →
  ∀ xpath elements elem,
    xpath ∈ queries → by_xpath p xpath = Ok elements → elem ∈ elements →
    is_visible elem = false.
Proof.
  induction queries as [|xpath queries IH];
    [by intros _ ? ? ? ?%elem_of_nil|].
  cbn [first_visible]. destruct (by_xpath p xpath) as [elements|] eqn:Hq.
  - destruct (List.find is_visible elements) as [e|] eqn:Hfind; [done|].
    intros Hnone x es elem [->|Hin]%elem_of_cons Hx Helem.
    + assert (es = elements) as -> by congruence.
      exact (proj1 (Forall_forall _ _) (find_none _ _ Hfind) elem Helem).
    + by eapply IH.
  - intros Hnone x es elem [->|Hin]%elem_of_cons Hx Helem; [congruence|].
    by eapply IH.
Qed.

Lemma wait_for_button_with_text_Some (text : string) (polls : list poll)
    (elem : WebElement) :
  wait_for_button_with_text text polls = Some elem →
  is_visible elem = true
  ∧ ∃ p, p ∈ polls
      ∧ ((∃ xpath elements, xpath ∈ xpath_queries text
            ∧ by_xpath p xpath = Ok elements ∧ elem ∈ elements)
         ∨ find_button_by_text (by_css p) text = Ok (Some elem)).
Proof.
  induction polls as [|p polls IH]; [done|]. cbn [wait_for_button_with_text].
  destruct (first_visible p (xpath_queries text)) as [e|] eqn:Hx.
  - intros [= ->]. apply first_visible_Some in Hx as [Hvis Hfound].
    split; [done|]. exists p. split; [by left|by left].
  - destruct (find_button_by_text (by_css p) text) as [[btn|]|] eqn:Hbtn.
    + intros [= ->].
      destruct (find_button_by_text_Some _ _ _ Hbtn) as (Hvis & _).
      split; [done|]. exists p. split; [by left|by right].
    + intros (Hvis & p' & ? & ?)%IH. split; [done|]. exists p'.
      split; [by right|done].
    + intros (Hvis & p' & ? & ?)%IH. split; [done|]. exists p'.
      split; [by right|done].
Qed.

Lemma xpath_queries_lower (text1 text2 : string) :
  py_str.lower text1 = py_str.lower text2 →
  xpath_queries text1 = xpath_queries text2.
Proof. intros Hlow. unfold xpath_queries. by rewrite Hlow. Qed.

(** X26. [wait_for_button_with_text]: an element that is returned is
    visible, and one of the polls found it, by one of the XPath queries for
    the text or as the button that [find_button_by_text] finds; [None] is
    returned only when in every poll the XPath queries found no visible
    element and [find_button_by_text] found no button (or raised, which is
    only logged); the result depends on the text through its lower-case
    form only. *)
Theorem wait_for_button_with_text_visible (text : string) (polls : list poll) :
  match wait_for_button_with_text text polls with
  | Some elem =>
      is_visible elem = true
      ∧ ∃ p, p ∈ polls
          ∧ ((∃ xpath elements, xpath ∈ xpath_queries text
                ∧ by_xpath p xpath = Ok elements ∧ elem ∈ elements)
             ∨ find_button_by_text (by_css p) text = Ok (Some elem))
  | None =>
      ∀ p, p ∈ polls →
        (∀ xpath elements elem, xpath ∈ xpath_queries text →
           by_xpath p xpath = Ok elements → elem ∈ elements →
           is_visible elem = false)
        ∧ ∀ btn, find_button_by_text (by_css p) text ≠ Ok (Some btn)
  end
  ∧ ∀ text', py_str.lower text' = py_str.lower text →
      wait_for_button_with_text text' polls
      = wait_for_button_with_text text polls.
Proof.
  split.
  - destruct (wait_for_button_with_text text polls) as [elem|] eqn:Hwait.
    + by apply wait_for_button_with_text_Some.
    + induction polls as [|p polls IH]; [by intros ? ?%elem_of_nil|].
      cbn [wait_for_button_with_text] in Hwait.
      destruct (first_visible p (xpath_queries text)) as [e|] eqn:Hx; [done|].
      destruct (find_button_by_text (by_css p) text) as [[btn|]|] eqn:Hbtn;
        [done| |].
      * intros p' [->|Hin]%elem_of_cons; [|by apply IH].
        split; [by apply first_visible_None|]. by rewrite Hbtn.
      * intros p' [->|Hin]%elem_of_cons; [|by apply IH].
        split; [by apply first_visible_None|]. by rewrite Hbtn.
  - intros text' Hlow. induction polls as [|p polls IH]; [done|].
    cbn [wait_for_button_with_text].
    rewrite (xpath_queries_lower text' text Hlow), IH.
    assert (find_button_by_text (by_css p) text'
            = find_button_by_text (by_css p) text) as ->; [|done].
    unfold find_button_by_text.
    destruct (list_buttons (by_css p)) as [buttons|]; [|done].
    cbn [mbind result_bind]. f_equal. apply find_ext.
    intros btn. by apply button_has_text_lower.
Qed.

Lemma browser_steps_Downloaded (p : entry_page) :
  browser_steps p = Downloaded →
  ∃ input_elem convert_btn download_btn,
    input_v p = Ok input_elem ∧ is_visible input_elem = true
    ∧ find_button_by_text (find_elements p) "Convert" = Ok (Some convert_btn)
    ∧ is_visible convert_btn = true
    ∧ wait_for_button_with_text "Download" (download_polls p)
      = Some download_btn
    ∧ is_visible download_btn = true.
Proof.
  unfold browser_steps, find_input_by_id. intros Hsteps.
  destruct (navigate p); [|done].
  destruct (input_v p) as [input_elem|]; [|done].
  destruct (is_visible input_elem) eqn:Hinput; [|done].
  destruct (type_url p); [|done].
  destruct (find_button_by_text (find_elements p) "Convert")
    as [[convert_btn|]|] eqn:Hconvert; [|done|done].
  destruct (click_convert p); [|done].
  destruct (wait_for_button_with_text "Download" (download_polls p))
    as [download_btn|] eqn:Hdownload; [|done].
  exists input_elem, convert_btn, download_btn.
  destruct (find_button_by_text_Some _ _ _ Hconvert) as (? & _).
  destruct (wait_for_button_with_text_Some _ _ _ Hdownload) as (? & _).
  split_and!; done.
Qed.

(** X27. From the page to the status. In a completed run whose browser
    steps are those of [process_file] on the pages of the entries, a record
    that was not done when the store was loaded has the status [True] in
    the store that the run leaves only if on its page the element with the
    id v was visible, [find_button_by_text] found a visible Convert button,
    and [wait_for_button_with_text] found a visible Download element. *)
Theorem done_requires_visible_buttons `{JsonCodec} (tqdm : bool)
    (download_dir : string) (pages : nat → entry_page) (fs0 : fsys)
    (st : state) (pos : nat) (item item' : entry) :
  codec_roundtrip →
  process_file tqdm download_dir (λ pos, browser_steps (pages pos)) fs0
    = Ok st →
  load_database fs0 !! pos = Some item →
  load_database (fs st) !! pos = Some item' →
  item' !! "done" = Some (JBool true) →
  item !! "done" = Some (JBool true)
  ∨ ∃ input_elem convert_btn download_btn,
      input_v (pages pos) = Ok input_elem ∧ is_visible input_elem = true
      ∧ find_button_by_text (find_elements (pages pos)) "Convert"
        = Ok (Some convert_btn)
      ∧ is_visible convert_btn = true
      ∧ wait_for_button_with_text "Download" (download_polls (pages pos))
        = Some download_btn
      ∧ is_visible download_btn = true.
Proof.
  intros Hrt Hrun Hpos Hpos' Hdone.
  destruct (process_file_entry tqdm download_dir _ fs0 st pos item Hrt Hrun Hpos)
    as (_ & x & Hload & _ & Hkept & Hcase).
  assert (x = item') as -> by congruence.
  destruct (not_done item) eqn:Hnd.
  - right. specialize (Hcase eq_refl). cbv beta in Hcase.
    destruct (browser_steps (pages pos)) eqn:Hsteps;
      [| | | |by apply browser_steps_Downloaded].
    + subst item'. by simplify_map_eq.
    + subst item'. by destruct (not_done_true_done item Hnd).
    + subst item'. by destruct (not_done_true_done item Hnd).
    + subst item'. by simplify_map_eq.
  - left. rewrite <- (Hkept eq_refl). done.
Qed.

End helpers_props.

(** ** Concrete runs of the further properties *)

Section witnesses.

Lemma sample_urls_present :
  urls_present (@conversion.load_database py_json
                  (@store_file py_json [done_a; pending_b])).
Proof.
  rewrite (load_store_file _ py_json_roundtrip).
  repeat constructor; by eexists.
Qed.

Lemma sample_records_ok :
  Forall record_ok (@conversion.load_database py_json
                      (@store_file py_json [done_a; pending_b])).
Proof.
  rewrite (load_store_file _ py_json_roundtrip).
  repeat constructor; try (by eexists);
    eexists; (split; [reflexivity|]); unfold is_status; auto.
Qed.

Lemma sample_run_complete (browser : nat → outcome) :
  ∃ st, @conversion.process_file py_json true "/music" browser
          (@store_file py_json [done_a; pending_b]) = Ok st.
Proof. apply process_file_complete, sample_titles_ok. Qed.

(** Witness of X1: a run on a done record followed by a pending one. *)
Lemma run_counters_bounded_witness :
  ∃ st,
    @conversion.process_file py_json true "/music" browser_timeout
      (@store_file py_json [done_a; pending_b]) = Ok st
    ∧ (conversion.successful_downloads st ≤ conversion.processed_count st)%nat
    ∧ (conversion.processed_count st
       ≤ length (filter (λ item, conversion.not_done item = true)
                   (@conversion.load_database py_json
                      (@store_file py_json [done_a; pending_b]))))%nat.
Proof.
  destruct (sample_run_complete browser_timeout) as [st Hst].
  exists st. split; [exact Hst|].
  exact (@run_counters_bounded py_json true "/music" browser_timeout _ st Hst).
Defined.

(** Witness of X2. *)
Lemma process_file_frame_witness :
  ∃ st,
    @conversion.process_file py_json true "/music" browser_timeout
      (@store_file py_json [done_a; pending_b]) = Ok st
    ∧ length (@conversion.load_database py_json (conversion.fs st))
      = length (@conversion.load_database py_json
                  (@store_file py_json [done_a; pending_b])).
Proof.
  destruct (sample_run_complete browser_timeout) as [st Hst].
  exists st. split; [exact Hst|].
  exact (proj1 (@process_file_frame py_json true "/music" browser_timeout _ st
                  py_json_roundtrip Hst)).
Defined.

(** Witness of X3: the first record was done when the store was loaded. *)
Lemma no_spurious_done_witness :
  ∃ st,
    @conversion.process_file py_json true "/music" browser_timeout
      (@store_file py_json [done_a; pending_b]) = Ok st
    ∧ (done_a !! "done" = Some (JBool true) ∨ browser_timeout 0 = Downloaded).
Proof.
  destruct (sample_run_complete browser_timeout) as [st Hst].
  exists st. split; [exact Hst|].
  assert (@conversion.load_database py_json
            (@store_file py_json [done_a; pending_b]) !! 0%nat = Some done_a)
    as Hpos by (by rewrite (load_store_file _ py_json_roundtrip)).
  destruct (@process_file_entry py_json true "/music" browser_timeout _ st
              0%nat done_a py_json_roundtrip Hst Hpos)
    as (_ & item' & Hload & _ & Hkept & _).
  rewrite (Hkept eq_refl) in Hload.
  exact (@no_spurious_done py_json true "/music" browser_timeout _ st 0%nat
           done_a done_a py_json_roundtrip Hst Hpos Hload eq_refl).
Defined.

(** Witness of X4: the input field is not found. *)
Lemma not_found_leaves_entry_witness :
  ∃ st,
    @conversion.process_file py_json true "/music" browser_no_input
      (@store_file py_json [done_a; pending_b]) = Ok st
    ∧ @conversion.load_database py_json (conversion.fs st) !! 1%nat
      = Some pending_b.
Proof.
  destruct (sample_run_complete browser_no_input) as [st Hst].
  exists st. split; [exact Hst|].
  refine (proj1 (@not_found_leaves_entry py_json true "/music" browser_no_input
                   _ st 1%nat pending_b py_json_roundtrip Hst _ _)).
  - by rewrite (load_store_file _ py_json_roundtrip).
  - by left.
Defined.

(** Witness of X5: the second record downloads. *)
Lemma download_recorded_witness :
  ∃ st item',
    @conversion.process_file py_json true "/music" browser_error_first
      (@store_file py_json [done_a; pending_b]) = Ok st
    ∧ @conversion.load_database py_json (conversion.fs st) !! 1%nat = Some item'
    ∧ item' !! "done" = Some (JBool true)
    ∧ item' !! "download_path" = Some (JStr "/music").
Proof.
  destruct (sample_run_complete browser_error_first) as [st Hst].
  destruct (@download_recorded py_json true "/music" browser_error_first
              _ st 1%nat pending_b py_json_roundtrip Hst sample_urls_present)
    as (item' & Hload & Hdone & Hpath & _).
  - by rewrite (load_store_file _ py_json_roundtrip).
  - reflexivity.
  - reflexivity.
  - exists st, item'. split; [exact Hst|]. split; [exact Hload|].
    split; [exact Hdone|exact Hpath].
Defined.

Lemma sample_all_downloaded (pos : nat) (item : entry) :
  @conversion.load_database py_json (@store_file py_json [done_a; pending_b])
    !! pos = Some item →
  conversion.not_done item = true → browser_error_first pos = Downloaded.
Proof.
  rewrite (load_store_file _ py_json_roundtrip).
  destruct pos as [|pos]; [|done]. by intros [= <-].
Qed.

(** Witness of X6: a second run after the download of the second record. *)
Lemma rerun_after_success_is_idle_witness :
  ∃ st st',
    @conversion.process_file py_json true "/music" browser_error_first
      (@store_file py_json [done_a; pending_b]) = Ok st
    ∧ @conversion.process_file py_json false "/other" browser_timeout
        (conversion.fs st) = Ok st'
    ∧ conversion.fs st' = conversion.fs st
    ∧ conversion.processed_count st' = 0%nat.
Proof.
  destruct (sample_run_complete browser_error_first) as [st Hst].
  destruct (@rerun_after_success_is_idle py_json true "/music"
              browser_error_first _ st false "/other" browser_timeout
              py_json_roundtrip Hst sample_urls_present sample_all_downloaded)
    as (st' & Hrun' & Hfs & Hcount & _).
  exists st, st'. split; [exact Hst|]. split; [exact Hrun'|].
  split; [exact Hfs|exact Hcount].
Defined.

(** Witness of X7: the second record times out, and the next run takes it
    up again. *)
Lemma failed_entry_is_retried_witness :
  ∃ st st',
    @conversion.process_file py_json true "/music" browser_timeout
      (@store_file py_json [done_a; pending_b]) = Ok st
    ∧ @conversion.process_file py_json false "/music" browser_error_first
        (conversion.fs st) = Ok st'
    ∧ Processing 1 ∈ conversion.log st'.
Proof.
  destruct (sample_run_complete browser_timeout) as [st Hst].
  destruct (@process_file_complete py_json false "/music" browser_error_first
              (conversion.fs st)) as [st' Hst'].
  { intros Htqdm. discriminate Htqdm. }
  exists st, st'. split; [exact Hst|]. split; [exact Hst'|].
  refine (proj2 (@failed_entry_is_retried py_json true "/music" browser_timeout
                   _ st st' 1%nat pending_b false "/music" browser_error_first
                   py_json_roundtrip Hst _ _ _ Hst')).
  - by rewrite (load_store_file _ py_json_roundtrip).
  - reflexivity.
  - discriminate.
Defined.

(** Witness of X8: the same update twice. *)
Lemma update_database_entry_idempotent_witness :
  ∃ fs1 fs2,
    @conversion.update_database_entry py_json (JStr sample_url_3) "/music"
      (JBool true) (@store_file py_json [done_a; pending_b]) = Ok fs1
    ∧ @conversion.update_database_entry py_json (JStr sample_url_3) "/music"
        (JBool true) fs1 = Ok fs2
    ∧ @conversion.load_database py_json fs2
      = @conversion.load_database py_json fs1.
Proof.
  destruct (@update_database_entry_complete py_json (JStr sample_url_3)
              "/music" (JBool true) _ sample_urls_present) as [fs1 Hfs1].
  destruct (@update_database_entry_idempotent py_json (JStr sample_url_3)
              "/music" (JBool true) _ fs1 py_json_roundtrip Hfs1)
    as (fs2 & Hfs2 & _ & Hload & _).
  exists fs1, fs2. split; [exact Hfs1|]. split; [exact Hfs2|exact Hload].
Defined.

Lemma sample_main_complete (driver : nat → string → result (option string)) :
  driver_ok driver → @results_parse py_urllib driver →
  ∃ r, @update_db_from_txt.main py_json py_urllib driver ["Song A"] no_file
       = Ok r.
Proof.
  intros Hdriver Hres. apply main_complete; [done|done|done| |]; constructor.
Qed.

Lemma sample_url_parses : is_Some (@urlparse py_urllib sample_url_1).
Proof. eexists. vm_compute. reflexivity. Qed.

(** Witness of X10: one query, one new record. *)
Lemma discovery_summary_witness :
  ∃ fs' st,
    @update_db_from_txt.main py_json py_urllib
      (λ _ _, Ok (Some sample_url_1)) ["Song A"] no_file = Ok (fs', st)
    ∧ update_db_from_txt.processed_count st = 1%nat
    ∧ (length (update_db_from_txt.new_entries st)
       + length (update_db_from_txt.duplicates_found st) ≤ 1)%nat.
Proof.
  destruct (sample_main_complete (λ _ _, Ok (Some sample_url_1)))
    as [[fs' st] Hmain].
  { intros idx q. by eexists. }
  { intros idx q url [= <-]. exact sample_url_parses. }
  destruct (@discovery_summary py_json py_urllib _ _ _ fs' st Hmain)
    as (_ & Hcount & Hsum & _).
  exists fs', st. split; [exact Hmain|]. split; [exact Hcount|exact Hsum].
Defined.

(** Witness of X12: two queries, with the line ends of Unix. *)
Lemma read_lines_join_witness :
  update_db_from_txt.read_lines
    (py_str.join (String "010" "") ["Song A"; "Song B"])
  = ["Song A"; "Song B"]
  ∧ update_db_from_txt.read_lines
      (py_str.join (String "010" "") ["Song A"; "Song B"] +:+ String "010" "")
    = ["Song A"; "Song B"].
Proof.
  apply (read_lines_join (String "010" "") ["Song A"; "Song B"]).
  - left. reflexivity.
  - repeat constructor.
  - repeat constructor; discriminate.
Defined.

(** Witness of X13: a file of two blank lines. *)
Lemma blank_input_exits_witness :
  let in_txt := String " " (String "010" (String "009" (String "010" ""))) in
  is_ascii in_txt ∧ blank in_txt
  ∧ update_db_from_txt.read_lines in_txt = []
  ∧ @update_db_from_txt.main_in_txt py_json py_urllib
      (λ _ _, Ok (Some sample_url_1)) in_txt no_file = Raise (SystemExit 2).
Proof.
  intros in_txt.
  destruct (@blank_input_exits py_json py_urllib in_txt eq_refl)
    as (Hnil & Hexit & _).
  split; [reflexivity|]. split; [reflexivity|].
  split; [exact (proj1 Hnil eq_refl)|]. exact (Hexit eq_refl _ _).
Defined.

(** Witness of X15: the search returns a watch link. *)
Lemma new_records_are_watch_links_witness :
  ∃ fs' st,
    @update_db_from_txt.main py_json py_urllib
      (λ idx query,
         update_db_from_txt.search_query_and_get_first_url (search_a idx query))
      ["Song A"] no_file = Ok (fs', st)
    ∧ Forall (λ e : entry, ∃ q url a c,
                q ∈ ["Song A"] ∧ e = update_db_from_txt.result_obj q url
                ∧ url = a +:+ "/watch" +:+ c)
        (update_db_from_txt.new_entries st).
Proof.
  destruct (sample_main_complete
              (λ idx query,
                 update_db_from_txt.search_query_and_get_first_url
                   (search_a idx query))) as [[fs' st] Hmain].
  { intros idx q. by eexists. }
  { intros idx q url [= <-]. exact sample_url_parses. }
  exists fs', st. split; [exact Hmain|].
  exact (@new_records_are_watch_links py_json py_urllib search_a _ _ fs' st
           Hmain).
Defined.

(** Witness of X16: the project of the second record is typed. *)
Lemma update_project_frame_witness :
  let fs := @store_file py_json [done_a; pending_b] in
  let fs' := @manage_database.update_project py_json (Some 2%Z) " Album " fs in
  length (@manage_database.load_database py_json fs')
  = length (@manage_database.load_database py_json fs)
  ∧ (fs' = fs ∨ ∃ text, db_file fs' = Some text
                        ∧ write_log fs' = write_log fs ++ [text]).
Proof.
  intros fs fs'.
  destruct (@update_project_frame py_json (Some 2%Z) " Album " fs
              py_json_roundtrip eq_refl) as (Hlen & _ & Hwrite).
  split; [exact Hlen|exact Hwrite].
Defined.

(** Witness of X17: the name in upper case and with spaces around. *)
Lemma search_by_project_ignores_case_witness :
  @manage_database.search_by_project py_json "ROCK"
    (@store_file py_json [rock_a; pending_b])
  = @manage_database.search_by_project py_json " rock "
      (@store_file py_json [rock_a; pending_b]).
Proof.
  refine (proj1 (@search_by_project_ignores_case py_json "ROCK" " rock "
                   (@store_file py_json [rock_a; pending_b]) _)).
  reflexivity.
Defined.

(** Witness of X18: one completed and one pending record. *)
Lemma show_stats_counters_witness :
  ∃ s,
    @manage_database.show_stats py_json (@store_file py_json [done_a; pending_b])
    = Some s
    ∧ manage_database.total s = 2%nat
    ∧ (manage_database.completed s + manage_database.timeout s
       + manage_database.pending s ≤ manage_database.total s)%nat.
Proof.
  assert (∃ s, @manage_database.show_stats py_json
                 (@store_file py_json [done_a; pending_b]) = Some s)
    as [s Hs].
  { unfold manage_database.show_stats. cbn zeta.
    change (@manage_database.load_database py_json)
      with (@conversion.load_database py_json).
    rewrite (load_store_file _ py_json_roundtrip). by eexists. }
  destruct (@show_stats_counters py_json _ s Hs) as (Htotal & _ & Hle & _).
  exists s. split; [exact Hs|]. split; [|exact Hle].
  rewrite Htotal.
  change (@manage_database.load_database py_json)
    with (@conversion.load_database py_json).
  by rewrite (load_store_file _ py_json_roundtrip).
Defined.

(** Witness of X19: a project update, then a conversion run. *)
Lemma tools_keep_store_witness :
  ∃ st,
    let fs := @store_file py_json [done_a; pending_b] in
    let fs1 := @manage_database.update_project py_json (Some 2%Z) "Album" fs in
    @conversion.process_file py_json false "/music" browser_timeout fs1 = Ok st
    ∧ Forall record_ok (@conversion.load_database py_json (conversion.fs st))
    ∧ extends_store (@conversion.load_database py_json fs)
        (@conversion.load_database py_json (conversion.fs st)).
Proof.
  destruct (@process_file_complete py_json false "/music" browser_timeout
              (@manage_database.update_project py_json (Some 2%Z) "Album"
                 (@store_file py_json [done_a; pending_b]))) as [st Hst].
  { intros Htqdm. discriminate Htqdm. }
  exists st. cbv zeta. split; [exact Hst|].
  apply (@tools_keep_store py_json py_urllib _ (conversion.fs st)
           py_json_roundtrip); [|exact sample_records_ok].
  eapply rtc_l; [by eapply project_update|].
  apply rtc_once. by eapply conversion_run.
Defined.

(** Witness of X20. *)
Lemma well_formed_store_runs_witness :
  (∀ tqdm download_dir browser,
     is_Ok (@conversion.process_file py_json tqdm download_dir browser
              (@store_file py_json [done_a; pending_b])))
  ∧ (∀ project_name,
       is_Ok (@manage_database.search_by_project py_json project_name
                (@store_file py_json [done_a; pending_b]))).
Proof.
  destruct (@well_formed_store_runs py_json py_urllib _ sample_records_ok)
    as (Hrun & Hsearch & _).
  split; [exact Hrun|exact Hsearch].
Defined.

(** Witness of X21: the first poll sees a partial file, the second the
    file. *)
Lemma wait_for_download_new_file_witness :
  conversion.wait_for_download elements (Some ["old.mp3"])
    [Some ["old.mp3"; "new.mp3.crdownload"]; Some ["old.mp3"; "new.mp3"]]
  = Some "new.mp3"
  ∧ ∀ names, Some ["old.mp3"] = Some names → "new.mp3" ∉ names.
Proof.
  pose proof (wait_for_download_new_file elements (Some ["old.mp3"])
                [Some ["old.mp3"; "new.mp3.crdownload"];
                 Some ["old.mp3"; "new.mp3"]]
                (λ X, reflexivity (elements X))) as Hwait.
  assert (conversion.wait_for_download elements (Some ["old.mp3"])
            [Some ["old.mp3"; "new.mp3.crdownload"];
             Some ["old.mp3"; "new.mp3"]] = Some "new.mp3") as Heq.
  { vm_compute. reflexivity. }
  rewrite Heq in Hwait. split; [exact Heq|]. exact (proj1 (proj2 Hwait)).
Defined.

(** Witness of X23: the text in upper case. *)
Lemma find_button_by_text_ignores_case_witness :
  conversion.find_button_by_text page_with_button "Convert"
  = conversion.find_button_by_text page_with_button "CONVERT"
  ∧ conversion.find_button_by_text page_with_button "Convert"
    = Ok (Some convert_button).
Proof.
  split.
  - refine (proj1 (find_button_by_text_ignores_case page_with_button
                     "Convert" "CONVERT" _)).
    reflexivity.
  - vm_compute. reflexivity.
Defined.

(** Witness of X25: a popup beside the original window. *)
Lemma close_new_tabs_leaves_original_witness :
  conversion.close_new_tabs "main"
    {| conversion.window_handles := ["main"; "popup"];
       conversion.current_window_handle := Some "main" |}
  = {| conversion.window_handles := ["main"];
       conversion.current_window_handle := Some "main" |}.
Proof.
  refine (proj1 (close_new_tabs_leaves_original "main"
                   {| conversion.window_handles := ["main"; "popup"];
                      conversion.current_window_handle := Some "main" |} _)
            _ _).
  - apply NoDup_cons. split; [|apply NoDup_singleton].
    rewrite list_elem_of_singleton. discriminate.
  - simpl. lia.
  - by left.
Defined.

Lemma good_page_downloads : conversion.browser_steps good_page = Downloaded.
Proof. vm_compute. reflexivity. Qed.

(** Witness of X27: the second record is converted on a page on which
    the three steps succeed. *)
Lemma done_requires_visible_buttons_witness :
  ∃ st,
    @conversion.process_file py_json true "/music"
      (λ pos, conversion.browser_steps good_page)
      (@store_file py_json [done_a; pending_b]) = Ok st
    ∧ (pending_b !! "done" = Some (JBool true)
       ∨ ∃ input_elem convert_btn download_btn,
           conversion.input_v good_page = Ok input_elem
           ∧ conversion.is_visible input_elem = true
           ∧ conversion.find_button_by_text
               (conversion.find_elements good_page) "Convert"
             = Ok (Some convert_btn)
           ∧ conversion.is_visible convert_btn = true
           ∧ conversion.wait_for_button_with_text "Download"
               (conversion.download_polls good_page) = Some download_btn
           ∧ conversion.is_visible download_btn = true).
Proof.
  destruct (sample_run_complete (λ pos, conversion.browser_steps good_page))
    as [st Hst].
  exists st. split; [exact Hst|].
  assert (@conversion.load_database py_json
            (@store_file py_json [done_a; pending_b]) !! 1%nat = Some pending_b)
    as Hpos by (by rewrite (load_store_file _ py_json_roundtrip)).
  refine (@done_requires_visible_buttons py_json true "/music"
            (λ _, good_page) _ st 1%nat pending_b _ py_json_roundtrip Hst Hpos
            (@process_file_downloaded py_json true "/music" _ _ st 1%nat
               pending_b py_json_roundtrip Hst sample_urls_present Hpos
               eq_refl good_page_downloads) _).
  rewrite lookup_insert_ne by discriminate. apply lookup_insert_eq.
Defined.

(** Witness of X28: the same query twice, in two runs. *)
Lemma discovery_rerun_adds_nothing_witness :
  ∃ fs1 st1 fs2 st2,
    @update_db_from_txt.main py_json py_urllib
      (λ _ _, Ok (Some sample_url_1)) ["Song A"] no_file = Ok (fs1, st1)
    ∧ @update_db_from_txt.main py_json py_urllib
        (λ _ _, Ok (Some sample_url_1)) ["Song A"] fs1 = Ok (fs2, st2)
    ∧ update_db_from_txt.new_entries st2 = []
    ∧ fs2 = fs1.
Proof.
  assert (driver_ok (λ (_ : nat) (_ : string), Ok (Some sample_url_1)))
    as Hdriver.
  { intros idx q. by eexists. }
  assert (@results_parse py_urllib (λ (_ : nat) (_ : string), Ok (Some sample_url_1)))
    as Hres.
  { intros idx q url [= <-]. exact sample_url_parses. }
  assert (@update_db_from_txt.main py_json py_urllib
            (λ _ _, Ok (Some sample_url_1)) ["Song A"] no_file
          = Ok (@update_db_from_txt.save_database py_json [pending_a] no_file,
                {| update_db_from_txt.processed_count := 1;
                   update_db_from_txt.new_entries := [pending_a];
                   update_db_from_txt.duplicates_found := [] |})) as Hmain1.
  { vm_compute. reflexivity. }
  destruct (@main_complete py_json py_urllib
              (λ _ _, Ok (Some sample_url_1)) ["Song A"]
              (@update_db_from_txt.save_database py_json [pending_a] no_file))
    as [[fs2 st2] Hmain2]; [done|done|done| | |].
  { rewrite (load_save_database _ _ py_json_roundtrip).
    repeat constructor; by eexists. }
  { rewrite (load_save_database _ _ py_json_roundtrip).
    constructor; [|constructor]. intros u Hu.
    assert (u = sample_url_1) as ->
      by (vm_compute in Hu; injection Hu as <-; reflexivity).
    exact sample_url_parses. }
  destruct (@discovery_rerun_adds_nothing py_json py_urllib
              (λ _ _, Ok (Some sample_url_1)) ["Song A"] no_file
              (@update_db_from_txt.save_database py_json [pending_a] no_file)
              fs2
              {| update_db_from_txt.processed_count := 1;
                 update_db_from_txt.new_entries := [pending_a];
                 update_db_from_txt.duplicates_found := [] |}
              st2 py_json_roundtrip) as (Hnone & Hfs & _).
  - intros idx q url [= <-] _. exists "abc123".
    split; [vm_compute; reflexivity|discriminate].
  - exact Hmain1.
  - exact Hmain2.
  - eexists _, _, fs2, st2.
    split; [exact Hmain1|]. split; [exact Hmain2|]. split; [exact Hnone|exact Hfs].
Defined.

(** Witness of X29: the record of a first discovery run is taken up by
    the conversion run that follows. *)
Lemma new_records_are_processed_witness :
  ∃ fs1 st1 st,
    @update_db_from_txt.main py_json py_urllib
      (λ _ _, Ok (Some sample_url_1)) ["Song A"] no_file = Ok (fs1, st1)
    ∧ @conversion.process_file py_json false "/music" browser_timeout fs1
      = Ok st
    ∧ update_db_from_txt.new_entries st1 !! 0%nat = Some pending_a
    ∧ Processing 0 ∈ conversion.log st.
Proof.
  assert (@update_db_from_txt.main py_json py_urllib
            (λ _ _, Ok (Some sample_url_1)) ["Song A"] no_file
          = Ok (@update_db_from_txt.save_database py_json [pending_a] no_file,
                {| update_db_from_txt.processed_count := 1;
                   update_db_from_txt.new_entries := [pending_a];
                   update_db_from_txt.duplicates_found := [] |})) as Hmain.
  { vm_compute. reflexivity. }
  destruct (@process_file_complete py_json false "/music" browser_timeout
              (@update_db_from_txt.save_database py_json [pending_a] no_file))
    as [st Hst].
  { intros Htqdm. discriminate Htqdm. }
  eexists _, _, st. split; [exact Hmain|]. split; [exact Hst|].
  split; [reflexivity|].
  exact (proj2 (proj2 (@new_records_are_processed py_json py_urllib _ _ _ _ _
                         false "/music" browser_timeout st py_json_roundtrip
                         Hmain Hst 0%nat pending_a eq_refl))).
Defined.

End witnesses.
